(** * ScriptExecutor: the shell-command runner of the desktop application

    A shallow embedding of class [ScriptExecutor] (fields, [appendLines],
    [appendMessage], [clearKillTimer], [clearOutput], [runScript],
    [stopScript] and the listeners [runScript] installs), followed by the
    properties of the command supervisor it implements.

    JavaScript strings are sequences of UTF-16 code units, numbers that the
    code only uses as integers are [Z], the DOM is a small heap of element
    children, and the calls to [child_process.spawn], [kill], [setTimeout]
    and [clearTimeout] are recorded in an effect log.

    Further parts embed the text helpers of the map tabs
    ([truncateText], [maskApiKey], [saveApiKey]), the list of recent
    prompts, the tab bar ([switchTab]) and the todo list of [server.ts]. *)

From Stdlib Require Import ZArith NArith List Ascii String Bool Lia.
From stdpp Require Import base option list gmap pretty.
Import ListNotations.

Local Open Scope N_scope.

(** ** JavaScript strings *)

Module JsString.

(** A string value: its UTF-16 code units. *)
Definition jsstring := list N.

(** An ASCII literal of the source. *)
Definition lit (s : string) : jsstring :=
  map N_of_ascii (list_ascii_of_string s).

Definition LF : N := 10.
Definition CR : N := 13.

(** [!s] on a string: the empty string is the only falsy one. *)
Definition falsy (s : jsstring) : bool :=
  match s with [] => true | _ => false end.

(** WhiteSpace and LineTerminator code points, the set [String.prototype.trim]
    strips. *)
Definition is_whitespace (c : N) : bool :=
  (c =? 0x09) || (c =? 0x0A) || (c =? 0x0B) || (c =? 0x0C) || (c =? 0x0D)
  || (c =? 0x20) || (c =? 0xA0) || (c =? 0x1680)
  || ((0x2000 <=? c) && (c <=? 0x200A))
  || (c =? 0x2028) || (c =? 0x2029) || (c =? 0x202F) || (c =? 0x205F)
  || (c =? 0x3000) || (c =? 0xFEFF).

Fixpoint trimStart (s : jsstring) : jsstring :=
  match s with
  | [] => []
  | c :: rest => if is_whitespace c then trimStart rest else s
  end.

Definition trimEnd (s : jsstring) : jsstring := rev (trimStart (rev s)).

(** [s.trim()] *)
Definition trim (s : jsstring) : jsstring := trimEnd (trimStart s).

(** *** The regular expression [/\bsudo\b/i]

    The pattern has no [u] flag: the word characters of [\b] are the 63
    characters [a-z], [A-Z], [0-9] and [_], and case-insensitive comparison
    canonicalizes a code unit with [toUpperCase] unless that would turn a
    code unit of 128 or more into one below 128.  A code unit of 128 or more
    therefore never equals a canonicalized ASCII letter; [canonicalize] leaves
    it alone, which decides the comparison with an ASCII pattern the same
    way. *)

Definition is_word_char (c : N) : bool :=
  ((0x61 <=? c) && (c <=? 0x7A)) || ((0x41 <=? c) && (c <=? 0x5A))
  || ((0x30 <=? c) && (c <=? 0x39)) || (c =? 0x5F).

Definition canonicalize (c : N) : N :=
  if (0x61 <=? c) && (c <=? 0x7A) then c - 0x20 else c.

(** One pattern character against one input code unit under the [i] flag. *)
Definition char_ci (p : ascii) (c : N) : bool :=
  canonicalize (N_of_ascii p) =? canonicalize c.

Definition is_word_at (o : option N) : bool :=
  match o with Some c => is_word_char c | None => false end.

(** [\b] between the code unit before the position ([None] at the start of
    the input) and the one after it ([None] at the end). *)
Definition word_boundary (before after : option N) : bool :=
  xorb (is_word_at before) (is_word_at after).

(** The whole pattern tried at one position; [prev] is the code unit just
    before that position. *)
Definition sudo_match_at (prev : option N) (s : jsstring) : bool :=
  match s with
  | c1 :: c2 :: c3 :: c4 :: rest =>
      word_boundary prev (Some c1)
      && char_ci "s" c1 && char_ci "u" c2 && char_ci "d" c3 && char_ci "o" c4
      && word_boundary (Some c4) (head rest)
  | _ => false
  end.

(** The search of [RegExp.prototype.test]: every start position, left to
    right. *)
Fixpoint sudo_search (prev : option N) (s : jsstring) : bool :=
  sudo_match_at prev s
  || match s with
     | [] => false
     | c :: rest => sudo_search (Some c) rest
     end.

(** [/\bsudo\b/i.test(s)] *)
Definition sudo_test (s : jsstring) : bool := sudo_search None s.

(** *** [data.split(/\r?\n/)]

    The separator is a line feed, or a carriage return immediately followed
    by one; a carriage return on its own stays in its line.  [cur] is the
    piece collected since the last separator. *)
Fixpoint split_scan (cur s : jsstring) : list jsstring :=
  match s with
  | [] => [cur]
  | c :: rest =>
      if c =? LF then cur :: split_scan [] rest
      else if c =? CR then
        match rest with
        | d :: rest' =>
            if d =? LF then cur :: split_scan [] rest'
            else split_scan (cur ++ [c]) rest
        | [] => split_scan (cur ++ [c]) rest
        end
      else split_scan (cur ++ [c]) rest
  end.

Definition split_newlines (s : jsstring) : list jsstring := split_scan [] s.

(** The code units of [s] consumed by the separators of [split_newlines]. *)
Fixpoint separator_units (s : jsstring) : nat :=
  match s with
  | [] => 0%nat
  | c :: rest =>
      if c =? LF then S (separator_units rest)
      else if c =? CR then
        match rest with
        | d :: _ => if d =? LF then S (separator_units rest)
                    else separator_units rest
        | [] => separator_units rest
        end
      else separator_units rest
  end.

(** Decimal rendering of an integer-valued number in a template string. *)
Definition of_Z (z : Z) : jsstring := lit (pretty z).

End JsString.
Export JsString.

(** ** The executor: data *)

Module Executor.

(** A child of an output block: a [div] with a class and a text. *)
Record Element := mkElement { className : jsstring; textContent : jsstring }.

(** A child of [#scriptOutput]. *)
Inductive Node :=
| Placeholder                    (* div.output-placeholder *)
| CommandDiv (text : jsstring)   (* div.output-command *)
| OutputBlock (id : nat).        (* div.output-block; its children live in [blocks] *)

(** An entry of [commandHistory].  [output] stands for [outputDiv.innerHTML],
    the serialization of the block's children at the time of the push. *)
Record HistoryEntry := mkHistoryEntry {
  command : jsstring;
  output : list Element;
  isError : bool;
  duration : jsstring
}.

(** A thrown or emitted [Error] object. *)
Record JsError := mkJsError { name : jsstring; message : jsstring }.

(** Calls to the facilities outside the class, in program order. *)
Inductive Effect :=
| Spawn (file : jsstring) (args : list jsstring) (child : option nat)
    (* [spawn(file, args)]; [None] when the call threw *)
| Kill (pid : nat) (signal : jsstring)
| SetTimeout (timer : nat) (ms : Z)
| ClearTimeout (timer : nat).

(** The variables of one [runScript] call that its listeners and the code
    after [await] keep using. *)
Record Frame := mkFrame {
  script : jsstring;
  startTime : Z;
  isError_v : bool;
  duration_v : jsstring;
  outputChars : Z;
  outputDiv : nat
}.

(** The instance fields of [ScriptExecutor], the part of the page it
    touches, and the runtime around it: [frames] holds the calls suspended at
    [await], keyed by the child process whose events they listen to, [timers]
    the timeouts that are still pending.

    [runScript] never removes the ['data'] listeners it installs.  When a
    call ends on an ['error'] event its child may still be running (the
    event also reports a signal that could not be delivered), and the
    listeners go on using the variables of the call: [lingering] holds
    them, keyed by that child, until its ['close']. *)
Record State := mkState {
  isRunning : bool;
  currentProcess : option nat;
  commandHistory : list HistoryEntry;
  killTimer : option nat;
  wasStopped : bool;
  timedOut : bool;
  scriptOutput : list Node;
  executionTime : jsstring;
  runBtn_disabled : bool;
  runBtn_innerHTML : jsstring;
  stopBtn_disabled : bool;
  blocks : gmap nat (list Element);
  frames : gmap nat Frame;
  lingering : gmap nat Frame;
  timers : list nat;
  effects : list Effect;
  nextHandle : nat
}.

Definition timeoutMs : Z := 30000.
Definition maxOutputChars : Z := 50000.

Definition set_isRunning (v : bool) (st : State) : State :=
  {| isRunning := v; currentProcess := currentProcess st;
     commandHistory := commandHistory st; killTimer := killTimer st;
     wasStopped := wasStopped st; timedOut := timedOut st;
     scriptOutput := scriptOutput st; executionTime := executionTime st;
     runBtn_disabled := runBtn_disabled st;
     runBtn_innerHTML := runBtn_innerHTML st;
     stopBtn_disabled := stopBtn_disabled st; blocks := blocks st;
     frames := frames st; lingering := lingering st; timers := timers st;
     effects := effects st; nextHandle := nextHandle st |}.

Definition set_currentProcess (v : option nat) (st : State) : State :=
  {| isRunning := isRunning st; currentProcess := v;
     commandHistory := commandHistory st; killTimer := killTimer st;
     wasStopped := wasStopped st; timedOut := timedOut st;
     scriptOutput := scriptOutput st; executionTime := executionTime st;
     runBtn_disabled := runBtn_disabled st;
     runBtn_innerHTML := runBtn_innerHTML st;
     stopBtn_disabled := stopBtn_disabled st; blocks := blocks st;
     frames := frames st; lingering := lingering st; timers := timers st;
     effects := effects st; nextHandle := nextHandle st |}.

Definition set_commandHistory (v : list HistoryEntry) (st : State) : State :=
  {| isRunning := isRunning st; currentProcess := currentProcess st;
     commandHistory := v; killTimer := killTimer st;
     wasStopped := wasStopped st; timedOut := timedOut st;
     scriptOutput := scriptOutput st; executionTime := executionTime st;
     runBtn_disabled := runBtn_disabled st;
     runBtn_innerHTML := runBtn_innerHTML st;
     stopBtn_disabled := stopBtn_disabled st; blocks := blocks st;
     frames := frames st; lingering := lingering st; timers := timers st;
     effects := effects st; nextHandle := nextHandle st |}.

Definition set_killTimer (v : option nat) (st : State) : State :=
  {| isRunning := isRunning st; currentProcess := currentProcess st;
     commandHistory := commandHistory st; killTimer := v;
     wasStopped := wasStopped st; timedOut := timedOut st;
     scriptOutput := scriptOutput st; executionTime := executionTime st;
     runBtn_disabled := runBtn_disabled st;
     runBtn_innerHTML := runBtn_innerHTML st;
     stopBtn_disabled := stopBtn_disabled st; blocks := blocks st;
     frames := frames st; lingering := lingering st; timers := timers st;
     effects := effects st; nextHandle := nextHandle st |}.

Definition set_wasStopped (v : bool) (st : State) : State :=
  {| isRunning := isRunning st; currentProcess := currentProcess st;
     commandHistory := commandHistory st; killTimer := killTimer st;
     wasStopped := v; timedOut := timedOut st;
     scriptOutput := scriptOutput st; executionTime := executionTime st;
     runBtn_disabled := runBtn_disabled st;
     runBtn_innerHTML := runBtn_innerHTML st;
     stopBtn_disabled := stopBtn_disabled st; blocks := blocks st;
     frames := frames st; lingering := lingering st; timers := timers st;
     effects := effects st; nextHandle := nextHandle st |}.

Definition set_timedOut (v : bool) (st : State) : State :=
  {| isRunning := isRunning st; currentProcess := currentProcess st;
     commandHistory := commandHistory st; killTimer := killTimer st;
     wasStopped := wasStopped st; timedOut := v;
     scriptOutput := scriptOutput st; executionTime := executionTime st;
     runBtn_disabled := runBtn_disabled st;
     runBtn_innerHTML := runBtn_innerHTML st;
     stopBtn_disabled := stopBtn_disabled st; blocks := blocks st;
     frames := frames st; lingering := lingering st; timers := timers st;
     effects := effects st; nextHandle := nextHandle st |}.

Definition set_scriptOutput (v : list Node) (st : State) : State :=
  {| isRunning := isRunning st; currentProcess := currentProcess st;
     commandHistory := commandHistory st; killTimer := killTimer st;
     wasStopped := wasStopped st; timedOut := timedOut st; scriptOutput := v;
     executionTime := executionTime st; runBtn_disabled := runBtn_disabled st;
     runBtn_innerHTML := runBtn_innerHTML st;
     stopBtn_disabled := stopBtn_disabled st; blocks := blocks st;
     frames := frames st; lingering := lingering st; timers := timers st;
     effects := effects st; nextHandle := nextHandle st |}.

Definition set_executionTime (v : jsstring) (st : State) : State :=
  {| isRunning := isRunning st; currentProcess := currentProcess st;
     commandHistory := commandHistory st; killTimer := killTimer st;
     wasStopped := wasStopped st; timedOut := timedOut st;
     scriptOutput := scriptOutput st; executionTime := v;
     runBtn_disabled := runBtn_disabled st;
     runBtn_innerHTML := runBtn_innerHTML st;
     stopBtn_disabled := stopBtn_disabled st; blocks := blocks st;
     frames := frames st; lingering := lingering st; timers := timers st;
     effects := effects st; nextHandle := nextHandle st |}.

Definition set_runBtn_disabled (v : bool) (st : State) : State :=
  {| isRunning := isRunning st; currentProcess := currentProcess st;
     commandHistory := commandHistory st; killTimer := killTimer st;
     wasStopped := wasStopped st; timedOut := timedOut st;
     scriptOutput := scriptOutput st; executionTime := executionTime st;
     runBtn_disabled := v; runBtn_innerHTML := runBtn_innerHTML st;
     stopBtn_disabled := stopBtn_disabled st; blocks := blocks st;
     frames := frames st; lingering := lingering st; timers := timers st;
     effects := effects st; nextHandle := nextHandle st |}.

Definition set_runBtn_innerHTML (v : jsstring) (st : State) : State :=
  {| isRunning := isRunning st; currentProcess := currentProcess st;
     commandHistory := commandHistory st; killTimer := killTimer st;
     wasStopped := wasStopped st; timedOut := timedOut st;
     scriptOutput := scriptOutput st; executionTime := executionTime st;
     runBtn_disabled := runBtn_disabled st; runBtn_innerHTML := v;
     stopBtn_disabled := stopBtn_disabled st; blocks := blocks st;
     frames := frames st; lingering := lingering st; timers := timers st;
     effects := effects st; nextHandle := nextHandle st |}.

Definition set_stopBtn_disabled (v : bool) (st : State) : State :=
  {| isRunning := isRunning st; currentProcess := currentProcess st;
     commandHistory := commandHistory st; killTimer := killTimer st;
     wasStopped := wasStopped st; timedOut := timedOut st;
     scriptOutput := scriptOutput st; executionTime := executionTime st;
     runBtn_disabled := runBtn_disabled st;
     runBtn_innerHTML := runBtn_innerHTML st; stopBtn_disabled := v;
     blocks := blocks st; frames := frames st; lingering := lingering st;
     timers := timers st; effects := effects st; nextHandle := nextHandle st |}.

Definition set_blocks (v : gmap nat (list Element)) (st : State) : State :=
  {| isRunning := isRunning st; currentProcess := currentProcess st;
     commandHistory := commandHistory st; killTimer := killTimer st;
     wasStopped := wasStopped st; timedOut := timedOut st;
     scriptOutput := scriptOutput st; executionTime := executionTime st;
     runBtn_disabled := runBtn_disabled st;
     runBtn_innerHTML := runBtn_innerHTML st;
     stopBtn_disabled := stopBtn_disabled st; blocks := v;
     frames := frames st; lingering := lingering st; timers := timers st;
     effects := effects st; nextHandle := nextHandle st |}.

Definition set_frames (v : gmap nat Frame) (st : State) : State :=
  {| isRunning := isRunning st; currentProcess := currentProcess st;
     commandHistory := commandHistory st; killTimer := killTimer st;
     wasStopped := wasStopped st; timedOut := timedOut st;
     scriptOutput := scriptOutput st; executionTime := executionTime st;
     runBtn_disabled := runBtn_disabled st;
     runBtn_innerHTML := runBtn_innerHTML st;
     stopBtn_disabled := stopBtn_disabled st; blocks := blocks st;
     frames := v; lingering := lingering st; timers := timers st;
     effects := effects st; nextHandle := nextHandle st |}.

Definition set_lingering (v : gmap nat Frame) (st : State) : State :=
  {| isRunning := isRunning st; currentProcess := currentProcess st;
     commandHistory := commandHistory st; killTimer := killTimer st;
     wasStopped := wasStopped st; timedOut := timedOut st;
     scriptOutput := scriptOutput st; executionTime := executionTime st;
     runBtn_disabled := runBtn_disabled st;
     runBtn_innerHTML := runBtn_innerHTML st;
     stopBtn_disabled := stopBtn_disabled st; blocks := blocks st;
     frames := frames st; lingering := v; timers := timers st;
     effects := effects st; nextHandle := nextHandle st |}.

Definition set_timers (v : list nat) (st : State) : State :=
  {| isRunning := isRunning st; currentProcess := currentProcess st;
     commandHistory := commandHistory st; killTimer := killTimer st;
     wasStopped := wasStopped st; timedOut := timedOut st;
     scriptOutput := scriptOutput st; executionTime := executionTime st;
     runBtn_disabled := runBtn_disabled st;
     runBtn_innerHTML := runBtn_innerHTML st;
     stopBtn_disabled := stopBtn_disabled st; blocks := blocks st;
     frames := frames st; lingering := lingering st; timers := v;
     effects := effects st; nextHandle := nextHandle st |}.

Definition set_effects (v : list Effect) (st : State) : State :=
  {| isRunning := isRunning st; currentProcess := currentProcess st;
     commandHistory := commandHistory st; killTimer := killTimer st;
     wasStopped := wasStopped st; timedOut := timedOut st;
     scriptOutput := scriptOutput st; executionTime := executionTime st;
     runBtn_disabled := runBtn_disabled st;
     runBtn_innerHTML := runBtn_innerHTML st;
     stopBtn_disabled := stopBtn_disabled st; blocks := blocks st;
     frames := frames st; lingering := lingering st; timers := timers st;
     effects := v; nextHandle := nextHandle st |}.

Definition set_nextHandle (v : nat) (st : State) : State :=
  {| isRunning := isRunning st; currentProcess := currentProcess st;
     commandHistory := commandHistory st; killTimer := killTimer st;
     wasStopped := wasStopped st; timedOut := timedOut st;
     scriptOutput := scriptOutput st; executionTime := executionTime st;
     runBtn_disabled := runBtn_disabled st;
     runBtn_innerHTML := runBtn_innerHTML st;
     stopBtn_disabled := stopBtn_disabled st; blocks := blocks st;
     frames := frames st; lingering := lingering st; timers := timers st;
     effects := effects st; nextHandle := v |}.

Definition set_outputChars (v : Z) (f : Frame) : Frame :=
  {| script := script f; startTime := startTime f; isError_v := isError_v f;
     duration_v := duration_v f; outputChars := v; outputDiv := outputDiv f |}.

Definition set_locals (e : bool) (d : jsstring) (f : Frame) : Frame :=
  {| script := script f; startTime := startTime f; isError_v := e;
     duration_v := d; outputChars := outputChars f; outputDiv := outputDiv f |}.

(** ** The executor: operations *)

Inductive Completion (A : Type) :=
| Normal (a : A)
| Throw (e : JsError).
Arguments Normal {A} a.
Arguments Throw {A} e.

(** The promise an [async] call has returned. *)
Inductive Promise :=
| Pending
| Fulfilled
| Rejected (reason : JsError).

Definition promise_of {A} (c : Completion A) : Promise :=
  match c with
  | Normal _ => Fulfilled
  | Throw e => Rejected e
  end.

(** What [spawn] does when [runScript] calls it: it returns a child, or it
    throws; the catch block then reads the clock, which shows [now]. *)
Inductive SpawnOutcome :=
| SpawnOk
| SpawnThrows (e : JsError) (now : Z).

Definition SIGTERM : jsstring := lit "SIGTERM".

Definition log (e : Effect) (st : State) : State :=
  set_effects (effects st ++ [e]) st.

(** [proc.kill(signal)] *)
Definition kill (pid : nat) (signal : jsstring) (st : State) : State :=
  log (Kill pid signal) st.

(** [this.currentProcess.kill('SIGTERM')] under [if (this.currentProcess)] *)
Definition kill_current (st : State) : State :=
  match currentProcess st with
  | Some pid => kill pid SIGTERM st
  | None => st
  end.

Definition setTimeout (ms : Z) (st : State) : State * nat :=
  let t := nextHandle st in
  (log (SetTimeout t ms)
     (set_timers (t :: timers st) (set_nextHandle (S t) st)), t).

Definition clearTimeout (t : nat) (st : State) : State :=
  log (ClearTimeout t) (set_timers (filter (λ x, x ≠ t) (timers st)) st).

(** Children of an output block; a block the heap does not list has none. *)
Definition children (id : nat) (st : State) : list Element :=
  default [] (blocks st !! id).

(** [document.createElement('div')] for an output block. *)
Definition createBlock (st : State) : State * nat :=
  let id := nextHandle st in
  (set_blocks (<[id := []]> (blocks st)) (set_nextHandle (S id) st), id).

(** [container.appendChild(div)] on an output block. *)
Definition appendChild (container : nat) (el : Element) (st : State) : State :=
  set_blocks (<[container := children container st ++ [el]]> (blocks st)) st.

(** [querySelector('.output-placeholder')] on [#scriptOutput]: the children
    of output blocks never carry that class. *)
Definition has_placeholder (ns : list Node) : bool :=
  existsb (fun n => match n with Placeholder => true | _ => false end) ns.

(** [if (querySelector('.output-placeholder')) innerHTML = ''] *)
Definition remove_placeholder (st : State) : State :=
  if has_placeholder (scriptOutput st) then set_scriptOutput [] st else st.

Definition append_node (n : Node) (st : State) : State :=
  set_scriptOutput (scriptOutput st ++ [n]) st.

(** [appendLines]: one [div] per non-empty line, the sum of their lengths
    returned.  (Scrolling the pane is left out here and below.) *)
Definition appendLines (container : nat) (data className : jsstring)
    (st : State) : State * Z :=
  fold_left
    (fun (acc : State * Z) (line : jsstring) =>
       if falsy line then acc
       else
         (appendChild container
            (mkElement (lit "output-line " ++ className) line) (fst acc),
          (snd acc + Z.of_nat (length line))%Z))
    (split_newlines data) (st, 0%Z).

Definition appendMessage (container : nat) (text className : jsstring)
    (st : State) : State :=
  appendChild container (mkElement className text) st.

Definition clearKillTimer (st : State) : State :=
  match killTimer st with
  | Some t => set_killTimer None (clearTimeout t st)
  | None => st
  end.

Definition clearOutput (st : State) : State :=
  set_commandHistory []
    (set_executionTime [] (set_scriptOutput [Placeholder] st)).

Definition stopScript (st : State) : State :=
  match currentProcess st with
  | Some pid =>
      if isRunning st then
        kill pid SIGTERM (set_stopBtn_disabled true (set_wasStopped true st))
      else st
  | None => st
  end.

Definition msg_blocked : jsstring := 0x2717 :: lit " sudo is blocked in this app".
Definition msg_truncated : jsstring :=
  [0x23F9; 0xFE0F] ++ lit " Output truncated (too large)".
Definition msg_stopped : jsstring :=
  [0x23F9; 0xFE0F] ++ lit " Execution stopped by user".
Definition msg_completed : jsstring := 0x2713 :: lit " Completed successfully".
(** [Math.round(this.timeoutMs / 1000)] *)
Definition msg_timed_out : jsstring :=
  0x2717 :: lit " Timed out after " ++ of_Z ((timeoutMs + 500) / 1000) ++ lit "s".
Definition msg_exit_code (code : Z) : jsstring :=
  0x2717 :: lit " Error: exited with code " ++ of_Z code.
(** [error.message || error]: a non-empty message, else the string form of
    the error, which for an empty message is its name. *)
Definition error_text (e : JsError) : jsstring :=
  if falsy (message e) then name e else message e.
Definition msg_error (e : JsError) : jsstring :=
  0x2717 :: lit " Error: " ++ error_text e.

Definition output_error : jsstring := lit "output-error".
Definition output_success : jsstring := lit "output-success".
Definition output_stdout : jsstring := lit "output-stdout".
Definition output_stderr : jsstring := lit "output-stderr".

(** The label of the run button while a command runs; [0x22] is the double
    quote around the class name. *)
Definition label_running : jsstring :=
  lit "<span class=" ++ [0x22] ++ lit "spinner" ++ [0x22]
  ++ lit "></span>Running...".
Definition label_run : jsstring := 0x25B6 :: lit " Run".

Definition command_text (script : jsstring) : jsstring := lit "$ " ++ script.

(** The body of [if (/\bsudo\b/i.test(script)) { ... return; }] *)
Definition blocked (script : jsstring) (st : State) : State :=
  let st := remove_placeholder st in
  let st := append_node (CommandDiv (command_text script)) st in
  let '(st, outputDiv) := createBlock st in
  let st := appendMessage outputDiv msg_blocked output_error st in
  let st := append_node (OutputBlock outputDiv) st in
  let st :=
    set_commandHistory
      (commandHistory st
       ++ [mkHistoryEntry script (children outputDiv st) true (lit "0.00")])
      st in
  set_executionTime [] st.

(** The timeout callback. *)
Definition onTimeout (st : State) : State :=
  kill_current (set_timedOut true st).

(** The body of the ['data'] listener of [stdout] and of [stderr], which
    differ in the class name only.  [f] holds the variables of the call that
    installed the listener, [store] writes them back; the fields it reads
    through [this] are those of the executor at the time the chunk arrives. *)
Definition listener (className : jsstring) (f : Frame)
    (store : Frame -> State -> State) (data : jsstring) (st : State)
    : State :=
  if (maxOutputChars <? outputChars f)%Z || timedOut st || wasStopped st
  then st
  else
    let '(st, added) := appendLines (outputDiv f) data className st in
    let f := set_outputChars (outputChars f + added) f in
    let st := store f st in
    if (maxOutputChars <? outputChars f)%Z then
      let st := appendMessage (outputDiv f) msg_truncated output_error st in
      let st := set_wasStopped true st in
      kill_current st
    else st.

(** A chunk from child [pid]: the listener runs with the variables of the
    call that spawned it, whether that call is still suspended or has ended
    on an ['error'].  A child whose streams have closed sends nothing. *)
Definition onData (className : jsstring) (pid : nat) (data : jsstring)
    (st : State) : State :=
  match frames st !! pid with
  | Some f =>
      listener className f
        (fun f st => set_frames (<[pid := f]> (frames st)) st) data st
  | None =>
      match lingering st !! pid with
      | Some f =>
          listener className f
            (fun f st => set_lingering (<[pid := f]> (lingering st)) st)
            data st
      | None => st
      end
  end.

Section Clock.

(** [toFixed2 ms] is [(ms / 1000).toFixed(2)], the rendering of a number of
    milliseconds as seconds with two decimals.  It goes through floating
    point, so it stays a parameter; [toFixed2_exact] below computes it. *)
Variable toFixed2 : Z -> jsstring.

(** The statements after [await] inside [try]. *)
Definition after_close (f : Frame) (code : option Z) (endTime : Z)
    (st : State) : State * Frame :=
  let duration := toFixed2 (endTime - startTime f) in
  let durationText :=
    if timedOut st then lit "Execution time: " ++ duration ++ lit "s (timeout)"
    else if wasStopped st then
      lit "Execution time: " ++ duration ++ lit "s (stopped)"
    else lit "Execution time: " ++ duration ++ lit "s" in
  let st := set_executionTime durationText st in
  if timedOut st then
    (appendMessage (outputDiv f) msg_timed_out output_error st,
     set_locals true duration f)
  else if wasStopped st then
    (appendMessage (outputDiv f) msg_stopped output_error st,
     set_locals true duration f)
  else
    let success :=
      (appendMessage (outputDiv f) msg_completed output_success st,
       set_locals (isError_v f) duration f) in
    match code with
    | Some c =>
        if (c =? 0)%Z then success
        else
          (appendMessage (outputDiv f) (msg_exit_code c) output_error st,
           set_locals true duration f)
    | None => success
    end.

Definition catch_block (f : Frame) (error : JsError) (endTime : Z)
    (st : State) : State * Frame :=
  let duration := toFixed2 (endTime - startTime f) in
  let st :=
    set_executionTime
      (lit "Execution time: " ++ duration ++ lit "s (failed)") st in
  (appendMessage (outputDiv f) (msg_error error) output_error st,
   set_locals true duration f).

Definition finally_block (f : Frame) (st : State) : State :=
  let st := clearKillTimer st in
  let st :=
    set_commandHistory
      (commandHistory st
       ++ [mkHistoryEntry (script f) (children (outputDiv f) st)
             (isError_v f) (duration_v f)])
      st in
  let st := set_isRunning false st in
  let st := set_runBtn_disabled false st in
  let st := set_stopBtn_disabled true st in
  let st := set_currentProcess None st in
  set_runBtn_innerHTML label_run st.

(** [try { body } catch (error) { ... } finally { ... }] of [runScript],
    given how the body completed and the clock reading the catch block would
    take.  Neither block contains a statement that throws, so the statement
    completes normally. *)
Definition try_catch_finally (body : State * Frame * Completion unit)
    (catchTime : Z) : State * Completion unit :=
  let '(st, f, c) := body in
  let '(st, f) :=
    match c with
    | Normal _ => (st, f)
    | Throw error => catch_block f error catchTime st
    end in
  (finally_block f st, Normal tt).

(** [runScript], up to its return or to the [await]. *)
Definition runScript (input : jsstring) (now : Z) (env : SpawnOutcome)
    (st : State) : State * Promise :=
  let script := trim input in
  if falsy script || isRunning st then (st, Fulfilled)
  else if sudo_test script then (blocked script st, Fulfilled)
  else
    let st := set_isRunning true st in
    let st := set_wasStopped false st in
    let st := set_timedOut false st in
    let st := set_runBtn_disabled true st in
    let st := set_stopBtn_disabled false st in
    let st := set_runBtn_innerHTML label_running st in
    let st := remove_placeholder st in
    let st := append_node (CommandDiv (command_text script)) st in
    let '(st, outputDiv) := createBlock st in
    let st := append_node (OutputBlock outputDiv) st in
    let f := mkFrame script now false [] 0 outputDiv in
    let argv := [lit "-c"; script] in
    match env with
    | SpawnThrows e endTime =>
        let st := log (Spawn (lit "/bin/zsh") argv None) st in
        let '(st, c) := try_catch_finally (st, f, Throw e) endTime in
        (st, promise_of c)
    | SpawnOk =>
        let pid := nextHandle st in
        let st := set_nextHandle (S pid) st in
        let st := log (Spawn (lit "/bin/zsh") argv (Some pid)) st in
        let st := set_currentProcess (Some pid) st in
        let '(st, t) := setTimeout timeoutMs st in
        let st := set_killTimer (Some t) st in
        let st := set_frames (<[pid := f]> (frames st)) st in
        (st, Pending)
    end.

(** The promise of the [await] settles: ['close'] resolves it with the exit
    code, ['error'] rejects it; the call resumes inside [try] and runs to its
    end within the same turn of the event loop, before any other event is
    handled.  A promise settles once, so later events of the child find no
    frame.  After an ['error'] the listeners of the child linger. *)
Definition settle (pid : nat) (outcome : Completion (option Z)) (now : Z)
    (st : State) : State * option Promise :=
  match frames st !! pid with
  | None => (st, None)
  | Some f =>
      let st := set_frames (delete pid (frames st)) st in
      let body :=
        match outcome with
        | Normal code =>
            let '(st, f) := after_close f code now st in (st, f, Normal tt)
        | Throw error =>
            (set_lingering (<[pid := f]> (lingering st)) st, f, Throw error)
        end in
      let '(st, c) := try_catch_finally body now in
      (st, Some (promise_of c))
  end.

(** ['close'] is emitted once the streams of the child have ended: its
    ['data'] listeners do not run again. *)
Definition streams_end (pid : nat) (st : State) : State :=
  set_lingering (delete pid (lingering st)) st.

(** What happens to the executor: a click or key press that calls a method,
    a timeout that expires, or an event of a child process.  ['close'] also
    carries a signal, which [runScript] stores and never reads.  [now] is
    what [Date.now()] returns during the turn. *)
Inductive Event :=
| RunScript (input : jsstring) (now : Z) (env : SpawnOutcome)
| StopScript
| ClearOutput
| TimerFired (timer : nat)
| StdoutData (pid : nat) (data : jsstring)
| StderrData (pid : nat) (data : jsstring)
| ProcClose (pid : nat) (code : option Z) (now : Z)
| ProcError (pid : nat) (error : JsError) (now : Z).

(** One turn of the event loop.  A timeout runs its callback only while it is
    pending, and then no longer is. *)
Definition step (st : State) (e : Event) : State :=
  match e with
  | RunScript input now env => fst (runScript input now env st)
  | StopScript => stopScript st
  | ClearOutput => clearOutput st
  | TimerFired t =>
      if decide (t ∈ timers st) then
        onTimeout (set_timers (filter (λ x, x ≠ t) (timers st)) st)
      else st
  | StdoutData pid data => onData output_stdout pid data st
  | StderrData pid data => onData output_stderr pid data st
  | ProcClose pid code now =>
      streams_end pid (fst (settle pid (Normal code) now st))
  | ProcError pid error now => fst (settle pid (Throw error) now st)
  end.

Definition steps (st : State) (es : list Event) : State := fold_left step es st.

End Clock.

(** A freshly constructed executor on a page whose pane shows the
    placeholder. *)
Definition fresh : State :=
  {| isRunning := false; currentProcess := None; commandHistory := [];
     killTimer := None; wasStopped := false; timedOut := false;
     scriptOutput := [Placeholder]; executionTime := [];
     runBtn_disabled := false; runBtn_innerHTML := label_run;
     stopBtn_disabled := true; blocks := ∅; frames := ∅; lingering := ∅;
     timers := []; effects := []; nextHandle := 0 |}.

(** [num / den] rounded to the nearest integer, a tie to the even one. *)
Definition round_half_even (num den : Z) : Z :=
  let q := (num / den)%Z in
  let r := (num mod den)%Z in
  if (2 * r <? den)%Z then q
  else if (den <? 2 * r)%Z then (q + 1)%Z
  else if Z.even q then q else (q + 1)%Z.

(** The digits of [(ms / 1000).toFixed(2)] for an integer [ms] of magnitude
    below [2 ^ 53], computed exactly.  The quotient is the double nearest to
    [ms / 1000]: [m / 2 ^ s] with [2 ^ 52 <= m <= 2 ^ 53], a tie going to the
    even [m].  [toFixed(2)] takes the integer [n] for which [n / 100] is
    nearest to that double, the larger one on a tie, and writes it with two
    digits after the point, after a minus sign if the number is negative.
    So 1005 gives [1.00], the double nearest to 1.005 being below it, and
    125 gives [0.13].  It instantiates [toFixed2] in the examples. *)
Definition toFixed2_exact (ms : Z) : jsstring :=
  if (ms =? 0)%Z then lit "0.00"
  else
    let a := Z.abs ms in
    let s0 := (62 - Z.log2 a)%Z in
    let s := if (1000 * 2 ^ 53 <=? a * 2 ^ s0)%Z then (s0 - 1)%Z else s0 in
    let m := round_half_even (a * 2 ^ s) 1000 in
    let n := ((200 * m + 2 ^ s) / 2 ^ (s + 1))%Z in
    (if (ms <? 0)%Z then lit "-" else [])
    ++ of_Z (n / 100) ++ lit "." ++ of_Z (n mod 100 / 10) ++ of_Z (n mod 10).

End Executor.
Export Executor.

(** ** Notions the properties are stated with *)

Module Notions.

(** A letter, digit or underscore. *)
Definition identifier_char (c : N) : Prop :=
  (0x61 <= c <= 0x7A) \/ (0x41 <= c <= 0x5A) \/ (0x30 <= c <= 0x39) \/ c = 0x5F.

Definition either (a b : ascii) (c : N) : Prop :=
  c = N_of_ascii a \/ c = N_of_ascii b.

Definition free_of_identifier (o : option N) : Prop :=
  forall c, o = Some c -> ~ identifier_char c.

(** The command line contains the token [sudo], in any mix of cases, with
    no letter, digit or underscore right before or right after it. *)
Definition standalone_sudo (s : jsstring) : Prop :=
  exists pre c1 c2 c3 c4 post,
    s = pre ++ c1 :: c2 :: c3 :: c4 :: post
    /\ either "s" "S" c1 /\ either "u" "U" c2
    /\ either "d" "D" c3 /\ either "o" "O" c4
    /\ free_of_identifier (last pre) /\ free_of_identifier (head post).

Definition whitespace_only (s : jsstring) : Prop :=
  Forall (fun c => is_whitespace c = true) s.

(** The sum of the lengths of the non-empty lines of a chunk. *)
Definition counted_units (data : jsstring) : Z :=
  fold_right Z.add 0%Z
    (map (fun l => Z.of_nat (length l))
       (List.filter (fun l => negb (falsy l)) (split_newlines data))).

(** The call that started with [script] at [start] and writes to block
    [div] is suspended at its [await], listening to child [pid]. *)
Definition Awaiting (pid : nat) (script : jsstring) (start : Z) (div : nat)
    (st : State) : Prop :=
  exists n, frames st !! pid = Some (mkFrame script start false [] n div).

(** That call is the executor's current run, with kill timer [t]. *)
Definition InFlight (pid t : nat) (script : jsstring) (start : Z) (div : nat)
    (st : State) : Prop :=
  isRunning st = true /\ currentProcess st = Some pid
  /\ killTimer st = Some t /\ Awaiting pid script start div st.

(** An event other than the exit or failure of a child. *)
Definition quiet (e : Event) : Prop :=
  match e with
  | ProcClose _ _ _ | ProcError _ _ _ => False
  | _ => True
  end.

(** The size of the chunk an event delivers. *)
Definition chunk_units (e : Event) : Z :=
  match e with
  | StdoutData _ data | StderrData _ data => Z.of_nat (length data)
  | _ => 0%Z
  end.

(** The run is marked: timed out, stopped, or past the output cap. *)
Definition marked (pid : nat) (st : State) : Prop :=
  timedOut st = true \/ wasStopped st = true
  \/ exists f, frames st !! pid = Some f /\ (maxOutputChars < outputChars f)%Z.

(** An idle or a running executor, with the bookkeeping that goes with
    each. *)
Definition consistent (st : State) : Prop :=
  (isRunning st = false
   /\ frames st = ∅ /\ timers st = [] /\ currentProcess st = None
   /\ killTimer st = None)
  \/ (isRunning st = true
      /\ exists pid t f,
           frames st = {[ pid := f ]} /\ currentProcess st = Some pid
           /\ killTimer st = Some t /\ (timers st = [t] \/ timers st = [])).

(** The total length of some lines. *)
Definition sum_lengths (ls : list jsstring) : Z :=
  fold_right Z.add 0%Z (map (fun l => Z.of_nat (length l)) ls).

(** The divs [appendLines] creates for a chunk. *)
Definition line_elements (className data : jsstring) : list Element :=
  map (mkElement (lit "output-line " ++ className))
    (List.filter (fun l => negb (falsy l)) (split_newlines data)).

(** The condition under which a ['data'] listener drops its chunk. *)
Definition guard (f : Frame) (st : State) : bool :=
  (maxOutputChars <? outputChars f)%Z || timedOut st || wasStopped st.

Definition truncation_notice : Element := mkElement output_error msg_truncated.

(** Every suspended call has counted at most [B] units past the cap. *)
Definition frames_within (B : Z) (st : State) : Prop :=
  forall pid f, frames st !! pid = Some f ->
    (outputChars f <= maxOutputChars + B)%Z.

(** An executor with one run in flight: block 0, child 1, timeout 2. *)
Definition running_example : State :=
  step toFixed2_exact fresh (RunScript (lit "sleep 60") 0 SpawnOk).

End Notions.
Export Notions.

(** ** Further notions *)

Module MoreNotions.

(** An event that is neither the end of a child nor a timeout. *)
Definition calm (e : Event) : Prop :=
  match e with
  | ProcClose _ _ _ | ProcError _ _ _ | TimerFired _ => False
  | _ => True
  end.

(** Block [b] is the output block of a call whose listeners are still
    installed: a suspended call, or one that ended on an ['error']. *)
Definition owned (b : nat) (st : State) : Prop :=
  exists pid f,
    (frames st !! pid = Some f \/ lingering st !! pid = Some f)
    /\ outputDiv f = b.

(** Neither the first nor the last code unit is whitespace. *)
Definition trimmed (s : jsstring) : Prop :=
  (forall c, head s = Some c -> is_whitespace c = false)
  /\ (forall c, last s = Some c -> is_whitespace c = false).

(** Child [pid] came out of a [spawn] of the shell that the log records. *)
Definition spawned (pid : nat) (log : list Effect) : Prop :=
  exists args, In (Spawn (lit "/bin/zsh") args (Some pid)) log.

(** What the executor may do to the outside: run a non-empty command with
    no standalone [sudo] under [/bin/zsh -c], send [SIGTERM] to a child it
    has spawned, arm a timeout of 30000 milliseconds, cancel a timeout. *)
Definition allowed_effect (log : list Effect) (e : Effect) : Prop :=
  match e with
  | Spawn file args _ =>
      file = lit "/bin/zsh"
      /\ exists script,
           args = [lit "-c"; script] /\ script <> []
           /\ ~ standalone_sudo script
  | Kill pid signal => signal = SIGTERM /\ spawned pid log
  | SetTimeout _ ms => ms = 30000%Z
  | ClearTimeout _ => True
  end.

Definition safe_log (st : State) : Prop :=
  Forall (allowed_effect (effects st)) (effects st)
  /\ forall pid, currentProcess st = Some pid -> spawned pid (effects st).

(** A history entry as the executor writes them: a command that is not
    empty and has no whitespace around it, and an output that ends with a
    status line, an error line exactly if the entry is flagged as an
    error. *)
Definition well_formed_entry (h : HistoryEntry) : Prop :=
  command h <> [] /\ trimmed (command h)
  /\ exists status,
       last (output h) = Some status
       /\ ((className status = output_error /\ isError h = true)
           \/ (className status = output_success /\ isError h = false)).

(** The suspended calls hold a trimmed, non-empty command and have not
    flagged an error. *)
Definition clean_frames (st : State) : Prop :=
  forall pid f, frames st !! pid = Some f ->
    isError_v f = false /\ script f <> [] /\ trimmed (script f).

(** An executor whose run in flight has counted exactly as much as the cap
    allows. *)
Definition near_cap_example : State :=
  set_frames {[ 1%nat := mkFrame (lit "sleep 60") 0 false [] 50000 0 ]}
    running_example.

End MoreNotions.

(** ** Text helpers of the map tabs and the prompt list *)

Module Helpers.

(** [MapApp.truncateText].  Both call sites pass an integer literal for
    [maxLength]; [cutoff] is never negative, so [slice(0, cutoff)] is the
    first [cutoff] code units, or all of them if there are fewer. *)
Definition truncateText (value : jsstring) (maxLength : Z) : jsstring :=
  if (Z.of_nat (length value) <=? maxLength)%Z then value
  else
    let cutoff := Z.max (maxLength - 3) 0 in
    take (Z.to_nat cutoff) value ++ lit "...".

(** [GoogleMapsApp.maskApiKey] *)
Definition maskApiKey (key : jsstring) : jsstring :=
  if (length key <=? 8)%nat then key
  else take 4 key ++ lit "..." ++ drop (length key - 4) key.

Fixpoint starts_with (sub s : jsstring) : bool :=
  match sub, s with
  | [], _ => true
  | _ :: _, [] => false
  | a :: sub', b :: s' => (a =? b) && starts_with sub' s'
  end.

(** [s.includes(sub)] *)
Fixpoint includes (sub s : jsstring) : bool :=
  starts_with sub s
  || match s with
     | [] => false
     | _ :: rest => includes sub rest
     end.

(** The part of [GoogleMapsApp] that [saveApiKey] reads and writes: the
    item [googleMapsApiKey] of [localStorage], the field [apiKey], the value
    of the key input, the text and class of the status line, the alerts
    shown and the page reloads scheduled (by their delay). *)
Record KeyState := mkKeyState {
  stored : option jsstring;
  apiKey : jsstring;
  inputValue : jsstring;
  statusText : jsstring;
  statusClass : jsstring;
  alerts : list jsstring;
  reloads : list Z
}.

Definition updateApiKeyStatus (message type : jsstring) (st : KeyState)
    : KeyState :=
  {| stored := stored st; apiKey := apiKey st; inputValue := inputValue st;
     statusText := message; statusClass := lit "api-key-status " ++ type;
     alerts := alerts st; reloads := reloads st |}.

Definition alert (message : jsstring) (st : KeyState) : KeyState :=
  {| stored := stored st; apiKey := apiKey st; inputValue := inputValue st;
     statusText := statusText st; statusClass := statusClass st;
     alerts := alerts st ++ [message]; reloads := reloads st |}.

(** [saveApiKey]; [setItemThrows] tells whether [localStorage.setItem]
    throws, in which case the rest of the [try] block is skipped. *)
Definition saveApiKey (setItemThrows : bool) (st : KeyState) : KeyState :=
  let key := trim (inputValue st) in
  if falsy key then alert (lit "Please enter an API key") st
  else if includes (lit "...") key then
    updateApiKeyStatus ([0x2139; 0xFE0F] ++ lit " API key already saved")
      (lit "success") st
  else if setItemThrows then
    alert (lit "Failed to save API key. Please try again.")
      (updateApiKeyStatus (0x274C :: lit " Failed to save API key")
         (lit "error") st)
  else
    let st :=
      {| stored := Some key; apiKey := key; inputValue := maskApiKey key;
         statusText := statusText st; statusClass := statusClass st;
         alerts := alerts st; reloads := reloads st |} in
    let st :=
      updateApiKeyStatus (0x2705 :: lit " API Key saved! Reloading map...")
        (lit "success") st in
    {| stored := stored st; apiKey := apiKey st; inputValue := inputValue st;
       statusText := statusText st; statusClass := statusClass st;
       alerts := alerts st; reloads := reloads st ++ [1000%Z] |}.

(** The part of [OwrapApp] behind the recent prompts: the field
    [recentPrompts], the item [owrapRecentPrompts] of [localStorage] (the
    array its JSON text denotes) and the options of the select, each a value
    and a text. *)
Record PromptState := mkPromptState {
  recentPrompts : list jsstring;
  storedPrompts : option (list jsstring);
  options : list (jsstring * jsstring)
}.

Definition maxRecentPrompts : nat := 20.

Definition jsstring_eqb (a b : jsstring) : bool :=
  bool_decide (a = b).

(** [saveRecentPrompts]: a throwing [setItem] is caught and logged. *)
Definition saveRecentPrompts (setItemThrows : bool) (st : PromptState)
    : PromptState :=
  if setItemThrows then st
  else
    {| recentPrompts := recentPrompts st;
       storedPrompts := Some (recentPrompts st); options := options st |}.

(** [updateRecentPromptsUI] *)
Definition updateRecentPromptsUI (st : PromptState) : PromptState :=
  {| recentPrompts := recentPrompts st; storedPrompts := storedPrompts st;
     options :=
       ([], lit "-- Select a recent prompt --")
       :: map (fun prompt =>
                 (prompt,
                  if (60 <? length prompt)%nat
                  then take 60 prompt ++ lit "..." else prompt))
            (recentPrompts st) |}.

(** [addToRecentPrompts] *)
Definition addToRecentPrompts (prompt : jsstring) (setItemThrows : bool)
    (st : PromptState) : PromptState :=
  let rp :=
    List.filter (fun p => negb (jsstring_eqb p prompt)) (recentPrompts st) in
  let rp := prompt :: rp in
  let rp :=
    if (maxRecentPrompts <? length rp)%nat then take maxRecentPrompts rp
    else rp in
  let st :=
    {| recentPrompts := rp; storedPrompts := storedPrompts st;
       options := options st |} in
  updateRecentPromptsUI (saveRecentPrompts setItemThrows st).

End Helpers.

(** ** The tab bar *)

Module Tabs.
Import Helpers.

(** A button of the bar: its [data-tab] attribute ([None] when it has none,
    for which [getAttribute] returns [null]) and its class list. *)
Record TabButton := mkTabButton {
  dataTab : option jsstring;
  btnClasses : list jsstring
}.

(** A tab's content: its id and its class list. *)
Record TabContent := mkTabContent {
  contentId : jsstring;
  contentClasses : list jsstring
}.

Record Page := mkPage {
  tabBtns : list TabButton;
  tabContents : list TabContent
}.

Definition active : jsstring := lit "active".

(** A class list is the ordered set of tokens of a [DOMTokenList], in the
    order of the [class] attribute.

    [classList.remove(token)] *)
Definition classList_remove (token : jsstring) (classes : list jsstring)
    : list jsstring :=
  List.filter (fun c => negb (jsstring_eqb c token)) classes.

(** [classList.add(token)]: a token the list has is not added again. *)
Definition classList_add (token : jsstring) (classes : list jsstring)
    : list jsstring :=
  if existsb (fun c => jsstring_eqb c token) classes then classes
  else classes ++ [token].

(** [attr === tabName], where either side may be [null]. *)
Definition same_name (attr tabName : option jsstring) : bool :=
  match attr, tabName with
  | Some a, Some b => jsstring_eqb a b
  | None, None => true
  | _, _ => false
  end.

(** The text of [tabName] inside a template string. *)
Definition name_text (tabName : option jsstring) : jsstring :=
  match tabName with
  | Some s => s
  | None => lit "null"
  end.

(** [TabManager.switchTab]; the click listener passes the attribute of the
    button that was clicked. *)
Definition switchTab (tabName : option jsstring) (p : Page) : Page :=
  {| tabBtns :=
       map (fun btn =>
              let classes := classList_remove active (btnClasses btn) in
              mkTabButton (dataTab btn)
                (if same_name (dataTab btn) tabName
                 then classList_add active classes else classes))
         (tabBtns p);
     tabContents :=
       map (fun content =>
              let classes := classList_remove active (contentClasses content) in
              mkTabContent (contentId content)
                (if jsstring_eqb (contentId content)
                      (name_text tabName ++ lit "-tab")
                 then classList_add active classes else classes))
         (tabContents p) |}.

End Tabs.

(** ** The todo list of [server.ts] *)

Module Todo.

Record Task := mkTask {
  id : Z;
  description : jsstring;
  completed : bool
}.

(** The fields [tasks] and [nextId] of [TodoApp], and the lines written
    with [console.log]. *)
Record App := mkApp {
  tasks : list Task;
  nextId : Z;
  console : list jsstring
}.

(** A number a method is called with: the callers pass [parseInt] of a
    line, which is [NaN], an integer, or an infinity; an infinity equals no
    id, like an integer beyond [2 ^ 53]. *)
Inductive JsNumber :=
| NaN
| Int (z : Z).

(** [t.id === n] *)
Definition id_is (n : JsNumber) (t : Task) : bool :=
  match n with
  | NaN => false
  | Int z => (id t =? z)%Z
  end.

Definition quoted (s : jsstring) : jsstring := [0x22] ++ s ++ [0x22].

Definition log (line : jsstring) (app : App) : App :=
  {| tasks := tasks app; nextId := nextId app;
     console := console app ++ [line] |}.

Definition not_found : jsstring := 0x274C :: lit " Task not found".

(** A fresh [TodoApp]. *)
Definition initial : App := {| tasks := []; nextId := 1; console := [] |}.

(** [nextId] is a number, that is a double: it starts at 1 and only
    [nextId++] changes it.  Below [2 ^ 53] the sum [n + 1] is exact; at
    [2 ^ 53] it lies halfway between two doubles and rounds back to
    [2 ^ 53]. *)
Definition exact_limit : Z := 2 ^ 53.

Definition increment (n : Z) : Z :=
  if (n <? exact_limit)%Z then (n + 1)%Z else n.

Definition addTask (description : jsstring) (app : App) : App :=
  let task := mkTask (nextId app) description false in
  log (0x2705 :: lit " Task added: " ++ quoted description)
    {| tasks := tasks app ++ [task]; nextId := increment (nextId app);
       console := console app |}.

(** The line [listTasks] prints for a task. *)
Definition task_line (task : Task) : jsstring :=
  let status := if completed task then [0x2713] else lit " " in
  lit "[" ++ status ++ lit "] " ++ of_Z (id task) ++ lit ". "
  ++ description task.

Definition listTasks (app : App) : App :=
  match tasks app with
  | [] => log (LF :: lit "No tasks yet. Add some tasks to get started!") app
  | _ =>
      fold_left (fun app task => log (task_line task) app) (tasks app)
        (log (lit "-----------") (log (LF :: lit "Your Tasks:") app))
  end.

(** [task.completed = true] on the first task [find] returns. *)
Fixpoint complete_first (n : JsNumber) (ts : list Task)
    : option (Task * list Task) :=
  match ts with
  | [] => None
  | t :: rest =>
      if id_is n t then
        Some (t, mkTask (id t) (description t) true :: rest)
      else
        match complete_first n rest with
        | Some (found, rest') => Some (found, t :: rest')
        | None => None
        end
  end.

Definition completeTask (n : JsNumber) (app : App) : App :=
  match complete_first n (tasks app) with
  | Some (task, ts) =>
      log (0x2713 :: lit " Completed: " ++ quoted (description task))
        {| tasks := ts; nextId := nextId app; console := console app |}
  | None => log not_found app
  end.

(** [findIndex]: the position of the first task with that id. *)
Fixpoint findIndex (n : JsNumber) (ts : list Task) : option nat :=
  match ts with
  | [] => None
  | t :: rest =>
      if id_is n t then Some 0%nat
      else option_map S (findIndex n rest)
  end.

Definition deleteTask (n : JsNumber) (app : App) : App :=
  match findIndex n (tasks app) with
  | Some index =>
      match tasks app !! index with
      | Some task =>
          log ([0xD83D; 0xDDD1; 0xFE0F] ++ lit "  Deleted: "
               ++ quoted (description task))
            {| tasks := take index (tasks app) ++ drop (S index) (tasks app);
               nextId := nextId app; console := console app |}
      | None => app
      end
  | None => log not_found app
  end.

(** A method call. *)
Inductive Call :=
| AddTask (description : jsstring)
| ListTasks
| CompleteTask (n : JsNumber)
| DeleteTask (n : JsNumber).

Definition call (app : App) (c : Call) : App :=
  match c with
  | AddTask d => addTask d app
  | ListTasks => listTasks app
  | CompleteTask n => completeTask n app
  | DeleteTask n => deleteTask n app
  end.

Definition calls (app : App) (cs : list Call) : App := fold_left call cs app.

Definition ids (app : App) : list Z := map id (tasks app).

(** The ids are increasing along the list and all below [nextId]. *)
Fixpoint increasing_below (bound : Z) (l : list Z) : Prop :=
  match l with
  | [] => True
  | x :: rest =>
      (x < bound)%Z /\ Forall (fun y => (x < y)%Z) rest
      /\ increasing_below bound rest
  end.

End Todo.

(** ** Strings *)

Example trim_example : trim (lit "  sudo ls  ") = lit "sudo ls".
Proof. reflexivity. Qed.

Example sudo_test_examples :
  sudo_test (lit "echo a; SuDo ls") = true
  /\ sudo_test (lit "pseudo ls") = false
  /\ sudo_test (lit "sudo_x") = false
  /\ sudo_test (lit "sudo-rs ls") = true.
Proof. repeat split; reflexivity. Qed.

Example split_newlines_examples :
  split_newlines (lit "a" ++ [CR; LF] ++ lit "b" ++ [LF]) = [lit "a"; lit "b"; []]
  /\ split_newlines [CR; CR; LF] = [[CR]; []]
  /\ split_newlines [] = [[]].
Proof. repeat split; reflexivity. Qed.

Example of_Z_examples : of_Z 30 = lit "30" /\ of_Z (-2) = lit "-2".
Proof. split; vm_compute; reflexivity. Qed.

Ltac bool_to_prop :=
  rewrite ?orb_true_iff, ?andb_true_iff, ?orb_false_iff, ?andb_false_iff,
    ?N.eqb_eq, ?N.eqb_neq, ?N.leb_le, ?N.leb_gt in *.

Lemma whitespace_not_word c : is_whitespace c = true -> is_word_char c = false.
Proof. unfold is_whitespace, is_word_char. intros H. bool_to_prop. lia. Qed.

Lemma is_word_char_spec c : is_word_char c = true <-> identifier_char c.
Proof. unfold is_word_char, identifier_char. bool_to_prop. lia. Qed.

Lemma char_ci_spec (lower upper : ascii) c :
  (0x61 <= N_of_ascii lower <= 0x7A) ->
  N_of_ascii upper = N_of_ascii lower - 0x20 ->
  char_ci lower c = true <-> either lower upper c.
Proof.
  unfold char_ci, either, canonicalize. intros Hl Hu. rewrite Hu.
  destruct ((97 <=? N_of_ascii lower) && (N_of_ascii lower <=? 122)) eqn:E1;
  destruct ((97 <=? c) && (c <=? 122)) eqn:E2; bool_to_prop; lia.
Qed.

Lemma whitespace_not_letter (p : ascii) c :
  (0x61 <= N_of_ascii p <= 0x7A) ->
  is_whitespace c = true -> char_ci p c = false.
Proof.
  unfold char_ci, is_whitespace, canonicalize. intros Hl H.
  destruct ((97 <=? N_of_ascii p) && (N_of_ascii p <=? 122)) eqn:E1;
  destruct ((97 <=? c) && (c <=? 122)) eqn:E2; bool_to_prop; lia.
Qed.

Lemma letter_is_word (lower upper : ascii) c :
  (0x61 <= N_of_ascii lower <= 0x7A) ->
  N_of_ascii upper = N_of_ascii lower - 0x20 ->
  either lower upper c -> is_word_char c = true.
Proof.
  unfold either, is_word_char. intros Hl Hu H. rewrite Hu in H.
  bool_to_prop. lia.
Qed.

(** *** Literals and numbers *)

Lemma lit_inj s1 s2 : lit s1 = lit s2 -> s1 = s2.
Proof.
  unfold lit. intros H.
  apply (f_equal (map ascii_of_N)) in H. rewrite !map_map in H.
  rewrite !(map_ext (fun a => ascii_of_N (N_of_ascii a)) (fun a => a))
    in H by apply ascii_N_embedding.
  rewrite !map_id in H.
  apply (f_equal string_of_list_ascii) in H.
  rewrite !string_of_list_ascii_of_string in H. exact H.
Qed.

Lemma of_Z_inj z1 z2 : of_Z z1 = of_Z z2 -> z1 = z2.
Proof. unfold of_Z. intros H. apply lit_inj in H. exact (inj pretty _ _ H). Qed.

Lemma msg_exit_code_inj c1 c2 : msg_exit_code c1 = msg_exit_code c2 -> c1 = c2.
Proof.
  unfold msg_exit_code. intros H. apply of_Z_inj.
  apply (app_inv_head (0x2717 :: lit " Error: exited with code ")).
  exact H.
Qed.

(** *** [trim] *)

Lemma trimStart_app s :
  exists l, whitespace_only l /\ s = l ++ trimStart s.
Proof.
  induction s as [|c s [l [Hl Hs]]]; cbn.
  - exists []. split; [constructor | reflexivity].
  - destruct (is_whitespace c) eqn:E.
    + exists (c :: l). split; [constructor; assumption | cbn; congruence].
    + exists []. split; [constructor | reflexivity].
Qed.

Lemma trim_app s :
  exists l r, whitespace_only l /\ whitespace_only r /\ s = l ++ trim s ++ r.
Proof.
  destruct (trimStart_app s) as [l [Hl Hs]].
  destruct (trimStart_app (rev (trimStart s))) as [r [Hr Ht]].
  exists l, (rev r). split; [assumption|]. split.
  - apply Forall_rev. exact Hr.
  - unfold trim, trimEnd. rewrite <- rev_app_distr, <- Ht, rev_involutive.
    exact Hs.
Qed.

Lemma trimStart_whitespace_only s : whitespace_only s -> trimStart s = [].
Proof.
  induction 1 as [|c s Hc _ IH]; cbn; [reflexivity|]. rewrite Hc. exact IH.
Qed.

Lemma trim_whitespace_only s : whitespace_only s -> trim s = [].
Proof.
  intros H. unfold trim. rewrite (trimStart_whitespace_only s H). reflexivity.
Qed.

(** *** The search for [/\bsudo\b/i] *)

Lemma s_range : 0x61 <= N_of_ascii "s" <= 0x7A. Proof. cbn. lia. Qed.
Lemma u_range : 0x61 <= N_of_ascii "u" <= 0x7A. Proof. cbn. lia. Qed.
Lemma d_range : 0x61 <= N_of_ascii "d" <= 0x7A. Proof. cbn. lia. Qed.
Lemma o_range : 0x61 <= N_of_ascii "o" <= 0x7A. Proof. cbn. lia. Qed.

Lemma sudo_search_cons prev c s :
  sudo_search prev (c :: s)
  = sudo_match_at prev (c :: s) || sudo_search (Some c) s.
Proof. reflexivity. Qed.

Lemma sudo_match_at_prev p q s :
  is_word_at p = is_word_at q -> sudo_match_at p s = sudo_match_at q s.
Proof.
  intros H. destruct s as [|c1 [|c2 [|c3 [|c4 s]]]]; try reflexivity.
  unfold sudo_match_at, word_boundary. rewrite H. reflexivity.
Qed.

Lemma sudo_search_prev p q s :
  is_word_at p = is_word_at q -> sudo_search p s = sudo_search q s.
Proof.
  intros H. destruct s as [|c s]; cbn [sudo_search];
    rewrite (sudo_match_at_prev p q) by assumption; reflexivity.
Qed.

Lemma sudo_match_at_whitespace p w s :
  is_whitespace w = true -> sudo_match_at p (w :: s) = false.
Proof.
  intros H. destruct s as [|c2 [|c3 [|c4 s]]]; try reflexivity.
  unfold sudo_match_at. rewrite (whitespace_not_letter _ w s_range H).
  rewrite andb_false_r. reflexivity.
Qed.

Lemma sudo_search_whitespace_only p s :
  whitespace_only s -> sudo_search p s = false.
Proof.
  intros H. revert p. induction H as [|w s Hw _ IH]; intros p.
  - reflexivity.
  - rewrite sudo_search_cons, sudo_match_at_whitespace by assumption. apply IH.
Qed.

Lemma sudo_search_skip_whitespace l s :
  whitespace_only l -> sudo_search None (l ++ s) = sudo_search None s.
Proof.
  induction 1 as [|w l Hw _ IH]; [reflexivity|].
  cbn [app]. rewrite sudo_search_cons, sudo_match_at_whitespace by assumption.
  cbn [orb]. rewrite <- IH. apply sudo_search_prev. cbn.
  apply whitespace_not_word. assumption.
Qed.

Lemma sudo_match_at_app_whitespace p s r :
  whitespace_only r -> sudo_match_at p (s ++ r) = sudo_match_at p s.
Proof.
  intros Hr.
  assert (Hhead : is_word_at (head r) = false).
  { destruct Hr as [|w r Hw _]; cbn; [reflexivity|].
    apply whitespace_not_word. assumption. }
  destruct s as [|c1 [|c2 [|c3 [|c4 [|c5 s]]]]]; cbn [app].
  - destruct Hr as [|w r Hw _]; [reflexivity|].
    apply sudo_match_at_whitespace. assumption.
  - destruct Hr as [|w1 r Hw1 Hr]; [reflexivity|].
    destruct r as [|w2 [|w3 r]]; try reflexivity.
    unfold sudo_match_at. rewrite (whitespace_not_letter _ w1 u_range Hw1).
    rewrite ?andb_false_r, ?andb_false_l. reflexivity.
  - destruct Hr as [|w1 r Hw1 Hr]; [reflexivity|].
    destruct r as [|w2 r]; try reflexivity.
    unfold sudo_match_at. rewrite (whitespace_not_letter _ w1 d_range Hw1).
    rewrite ?andb_false_r, ?andb_false_l. reflexivity.
  - destruct Hr as [|w1 r Hw1 Hr]; [reflexivity|].
    unfold sudo_match_at. rewrite (whitespace_not_letter _ w1 o_range Hw1).
    rewrite ?andb_false_r, ?andb_false_l. reflexivity.
  - unfold sudo_match_at, word_boundary. cbn [app].
    rewrite Hhead. reflexivity.
  - reflexivity.
Qed.

Lemma sudo_search_app_whitespace p s r :
  whitespace_only r -> sudo_search p (s ++ r) = sudo_search p s.
Proof.
  intros Hr. revert p. induction s as [|c s IH]; intros p.
  - cbn [app]. rewrite sudo_search_whitespace_only by assumption. reflexivity.
  - change ((c :: s) ++ r) with (c :: (s ++ r)).
    rewrite !sudo_search_cons, IH.
    change (c :: (s ++ r)) with ((c :: s) ++ r).
    rewrite sudo_match_at_app_whitespace by assumption. reflexivity.
Qed.

(** Trimming never changes whether the pattern matches. *)
Lemma sudo_test_trim s : sudo_test (trim s) = sudo_test s.
Proof.
  destruct (trim_app s) as [l [r [Hl [Hr Hs]]]]. unfold sudo_test.
  rewrite Hs at 2.
  rewrite sudo_search_skip_whitespace, sudo_search_app_whitespace by assumption.
  reflexivity.
Qed.

Lemma sudo_match_at_spec prev s :
  sudo_match_at prev s = true <->
  exists c1 c2 c3 c4 post,
    s = c1 :: c2 :: c3 :: c4 :: post
    /\ either "s" "S" c1 /\ either "u" "U" c2
    /\ either "d" "D" c3 /\ either "o" "O" c4
    /\ free_of_identifier prev /\ free_of_identifier (head post).
Proof.
  assert (Hfree : forall o, free_of_identifier o <-> is_word_at o = false).
  { intros [c|]; unfold free_of_identifier; cbn.
    - rewrite <- not_true_iff_false, is_word_char_spec. split.
      + intros H. apply H. reflexivity.
      + intros H c' [= <-]. exact H.
    - split; [reflexivity | intros _ c' [=]]. }
  split.
  - destruct s as [|c1 [|c2 [|c3 [|c4 post]]]]; try discriminate.
    unfold sudo_match_at, word_boundary. rewrite !andb_true_iff.
    rewrite (char_ci_spec "s" "S"), (char_ci_spec "u" "U"),
      (char_ci_spec "d" "D"), (char_ci_spec "o" "O")
      by (cbn; first [lia | reflexivity]).
    intros [[[[[Hb Hs] Hu] Hd] Ho] He].
    exists c1, c2, c3, c4, post. repeat split; try assumption.
    + apply Hfree. cbn [is_word_at] in Hb.
      rewrite (letter_is_word "s" "S" c1) in Hb
        by (first [exact s_range | reflexivity | assumption]).
      destruct (is_word_at prev); [discriminate | reflexivity].
    + apply Hfree. cbn [is_word_at] in He.
      rewrite (letter_is_word "o" "O" c4) in He
        by (first [exact o_range | reflexivity | assumption]).
      destruct (is_word_at (head post)); [discriminate | reflexivity].
  - intros (c1 & c2 & c3 & c4 & post & -> & Hs & Hu & Hd & Ho & Hb & He).
    unfold sudo_match_at, word_boundary. cbn [is_word_at].
    rewrite (letter_is_word "s" "S" c1), (letter_is_word "o" "O" c4)
      by (first [exact s_range | exact o_range | reflexivity | assumption]).
    apply Hfree in Hb, He. rewrite Hb, He.
    rewrite !andb_true_iff.
    rewrite (char_ci_spec "s" "S"), (char_ci_spec "u" "U"),
      (char_ci_spec "d" "D"), (char_ci_spec "o" "O")
      by (cbn; first [lia | reflexivity]).
    repeat split; assumption.
Qed.

Lemma sudo_search_spec prev s :
  sudo_search prev s = true <->
  exists pre c1 c2 c3 c4 post,
    s = pre ++ c1 :: c2 :: c3 :: c4 :: post
    /\ either "s" "S" c1 /\ either "u" "U" c2
    /\ either "d" "D" c3 /\ either "o" "O" c4
    /\ free_of_identifier (match last pre with Some c => Some c | None => prev end)
    /\ free_of_identifier (head post).
Proof.
  revert prev. induction s as [|c s IH]; intros prev.
  - split; [discriminate|].
    intros (pre & c1 & c2 & c3 & c4 & post & H & _). destruct pre; discriminate.
  - rewrite sudo_search_cons, orb_true_iff, sudo_match_at_spec, IH. split.
    + intros [(c1 & c2 & c3 & c4 & post & H)
             |(pre & c1 & c2 & c3 & c4 & post & -> & Hs & Hu & Hd & Ho & Hb & He)].
      * exists [], c1, c2, c3, c4, post. exact H.
      * exists (c :: pre), c1, c2, c3, c4, post.
        repeat split; try assumption.
        rewrite last_cons. destruct (last pre); assumption.
    + intros (pre & c1 & c2 & c3 & c4 & post & H & Hs & Hu & Hd & Ho & Hb & He).
      destruct pre as [|c' pre].
      * left. exists c1, c2, c3, c4, post. repeat split; assumption.
      * right. injection H as -> ->. exists pre, c1, c2, c3, c4, post.
        repeat split; try assumption.
        rewrite last_cons in Hb. destruct (last pre); assumption.
Qed.

(** The pattern matches exactly the command lines with a standalone
    [sudo]. *)
Lemma sudo_test_spec s : sudo_test s = true <-> standalone_sudo s.
Proof.
  unfold sudo_test, standalone_sudo. rewrite sudo_search_spec.
  split; intros (pre & c1 & c2 & c3 & c4 & post & H & Hs & Hu & Hd & Ho & Hb & He);
    exists pre, c1, c2, c3, c4, post; repeat split; try assumption.
  - destruct (last pre); [assumption | intros c' [=]].
  - destruct (last pre); [assumption | intros c' [=]].
Qed.

Lemma standalone_sudo_nonempty s : standalone_sudo s -> falsy (trim s) = false.
Proof.
  intros H. apply sudo_test_spec in H. rewrite <- sudo_test_trim in H.
  destruct (trim s); [discriminate | reflexivity].
Qed.

(** *** [split] and [appendLines] *)

Lemma sum_lengths_nonempty ls :
  sum_lengths (List.filter (fun l => negb (falsy l)) ls) = sum_lengths ls.
Proof.
  induction ls as [|l ls IH]; [reflexivity|].
  destruct l as [|c l]; cbn [List.filter falsy negb]; unfold sum_lengths in *;
    cbn [map fold_right]; rewrite IH; reflexivity.
Qed.

Lemma split_scan_units n : forall s cur,
  (length s <= n)%nat ->
  (sum_lengths (split_scan cur s) + Z.of_nat (separator_units s)
   = Z.of_nat (length cur) + Z.of_nat (length s))%Z.
Proof.
  induction n as [|n IH]; intros s cur Hn.
  - destruct s; [|cbn in Hn; lia]. cbn. unfold sum_lengths. cbn. lia.
  - destruct s as [|c rest]; [cbn; unfold sum_lengths; cbn; lia|].
    cbn [length] in Hn.
    assert (Hcons : forall cur', sum_lengths (cur' :: split_scan [] rest)
              = (Z.of_nat (length cur') + sum_lengths (split_scan [] rest))%Z)
      by reflexivity.
    assert (Hkeep : (sum_lengths (split_scan (cur ++ [c]) rest)
                     + Z.of_nat (separator_units rest)
                     = Z.of_nat (length cur) + Z.of_nat (length (c :: rest)))%Z).
    { rewrite IH by lia. rewrite length_app. cbn [length]. lia. }
    cbn [split_scan separator_units].
    destruct (c =? LF).
    + rewrite Hcons. specialize (IH rest [] ltac:(lia)).
      cbn [length] in *. lia.
    + destruct (c =? CR); [|exact Hkeep].
      destruct rest as [|d rest']; [exact Hkeep|].
      destruct (d =? LF) eqn:Ed; [|exact Hkeep].
      change (sum_lengths (cur :: split_scan [] rest'))
        with (Z.of_nat (length cur) + sum_lengths (split_scan [] rest'))%Z.
      cbn [separator_units]. rewrite Ed.
      specialize (IH rest' [] ltac:(cbn [length] in Hn; lia)).
      cbn [length] in *. lia.
Qed.

(** The counted units and the separators add up to the chunk. *)
Lemma counted_units_separators data :
  (counted_units data + Z.of_nat (separator_units data)
   = Z.of_nat (length data))%Z.
Proof.
  unfold counted_units.
  change (fold_right Z.add 0%Z
            (map (fun l => Z.of_nat (length l))
               (List.filter (fun l => negb (falsy l)) (split_newlines data))))
    with (sum_lengths (List.filter (fun l => negb (falsy l)) (split_newlines data))).
  rewrite sum_lengths_nonempty. unfold split_newlines.
  rewrite (split_scan_units (length data) data []) by lia. reflexivity.
Qed.

Lemma counted_units_bounds data :
  (0 <= counted_units data <= Z.of_nat (length data))%Z.
Proof.
  split; [|pose proof (counted_units_separators data); lia].
  unfold counted_units.
  induction (List.filter (fun l => negb (falsy l)) (split_newlines data))
    as [|l ls IH]; cbn; lia.
Qed.

Lemma separator_units_LF data : In LF data -> (0 < separator_units data)%nat.
Proof.
  induction data as [|c rest IH]; [intros []|].
  intros [Heq | Hin]; cbn [separator_units].
  - subst c. cbn. lia.
  - specialize (IH Hin). destruct (c =? LF); [lia|].
    destruct (c =? CR); [|exact IH].
    destruct rest as [|d rest']; [exact IH|].
    destruct (d =? LF); [lia | exact IH].
Qed.

Lemma set_blocks_id st : set_blocks (blocks st) st = st.
Proof. destruct st; reflexivity. Qed.

Lemma appendLines_spec container data className st :
  exists B,
    appendLines container data className st
    = (set_blocks B st, counted_units data)
    /\ default [] (B !! container)
       = children container st ++ line_elements className data
    /\ forall c, c <> container -> B !! c = blocks st !! c.
Proof.
  unfold appendLines, counted_units, line_elements.
  generalize (split_newlines data) as lines.
  assert (H : forall lines st0 a, exists B,
    fold_left
      (fun (acc : State * Z) (line : jsstring) =>
         if falsy line then acc
         else
           (appendChild container
              (mkElement (lit "output-line " ++ className) line) (fst acc),
            (snd acc + Z.of_nat (length line))%Z))
      lines (set_blocks (blocks st0) st, a)
    = (set_blocks B st,
       (a + fold_right Z.add 0%Z
              (map (fun l => Z.of_nat (length l))
                 (List.filter (fun l => negb (falsy l)) lines)))%Z)
    /\ default [] (B !! container)
       = default [] (blocks st0 !! container)
         ++ map (mkElement (lit "output-line " ++ className))
              (List.filter (fun l => negb (falsy l)) lines)
    /\ forall c, c <> container -> B !! c = blocks st0 !! c).
  { induction lines as [|l lines IH]; intros st0 a.
    - exists (blocks st0). cbn. rewrite Z.add_0_r, app_nil_r. auto.
    - destruct l as [|c l].
      + cbn [fold_left falsy List.filter negb]. apply IH.
      + cbn [fold_left falsy List.filter negb fst snd map fold_right].
        set (el := mkElement (lit "output-line " ++ className) (c :: l)).
        destruct (IH (set_blocks
                        (<[container := default [] (blocks st0 !! container) ++ [el]]>
                           (blocks st0)) st)
                     (a + Z.of_nat (length (c :: l)))%Z)
          as (B & HB & Hc & Ho).
        exists B. split; [|split].
        * rewrite <- Z.add_assoc in HB. exact HB.
        * rewrite Hc. cbn [blocks set_blocks].
          rewrite lookup_insert_eq. unfold default at 1. cbn [from_option id].
          rewrite <- app_assoc. reflexivity.
        * intros c' Hc'. rewrite (Ho c' Hc'). cbn [blocks set_blocks].
          apply lookup_insert_ne. congruence. }
  intros lines. specialize (H lines st 0%Z).
  rewrite set_blocks_id in H. exact H.
Qed.

(** ** The executor *)

Section Properties.

Variable toFixed2 : Z -> jsstring.

Local Abbreviation runScript := (Executor.runScript toFixed2).
Local Abbreviation settle := (Executor.settle toFixed2).
Local Abbreviation step := (Executor.step toFixed2).
Local Abbreviation steps := (Executor.steps toFixed2).

Lemma steps_app st es1 es2 : steps st (es1 ++ es2) = steps (steps st es1) es2.
Proof. apply fold_left_app. Qed.

Lemma steps_cons st e es : steps st (e :: es) = steps (step st e) es.
Proof. reflexivity. Qed.

(** C9: an empty or whitespace-only command line changes nothing: the call
    returns at once, with the executor, its history, its page and the effect
    log exactly as they were. *)
Theorem empty_command_is_noop (st : State) (input : jsstring) (now : Z)
    (env : SpawnOutcome) :
  whitespace_only input ->
  runScript input now env st = (st, Fulfilled)
  /\ step st (RunScript input now env) = st.
Proof.
  intros H. unfold Executor.step, Executor.runScript.
  rewrite (trim_whitespace_only input H). cbn. split; reflexivity.
Qed.

(** C1: a command line with a standalone [sudo], submitted while no run is
    in flight, is blocked: nothing is spawned, no timer is armed, the history
    gets one failed entry with duration [0.00] and the block message, and the
    pane shows the command and that message. *)
Theorem sudo_is_blocked (st : State) (input : jsstring) (now : Z)
    (env : SpawnOutcome) :
  isRunning st = false ->
  standalone_sudo input ->
  let st' := fst (runScript input now env st) in
  let div := nextHandle st in
  snd (runScript input now env st) = Fulfilled
  /\ effects st' = effects st
  /\ frames st' = frames st /\ timers st' = timers st
  /\ isRunning st' = false /\ currentProcess st' = currentProcess st
  /\ killTimer st' = killTimer st
  /\ commandHistory st'
     = commandHistory st
       ++ [mkHistoryEntry (trim input) [mkElement output_error msg_blocked]
             true (lit "0.00")]
  /\ children div st' = [mkElement output_error msg_blocked]
  /\ scriptOutput st'
     = (if has_placeholder (scriptOutput st) then [] else scriptOutput st)
       ++ [CommandDiv (command_text (trim input)); OutputBlock div]
  /\ executionTime st' = [].
Proof.
  intros Hidle Hsudo.
  pose proof (standalone_sudo_nonempty input Hsudo) as Hne.
  apply sudo_test_spec in Hsudo. rewrite <- sudo_test_trim in Hsudo.
  unfold Executor.runScript. rewrite Hne, Hidle, Hsudo. cbn [orb fst snd].
  unfold blocked, remove_placeholder, createBlock, appendMessage, appendChild,
    append_node, children.
  destruct (has_placeholder (scriptOutput st)); cbn;
    rewrite !lookup_insert_eq; cbn; rewrite <- ?app_assoc;
    repeat split; solve [reflexivity | assumption].
Qed.

Ltac simpl_state :=
  cbn [isRunning currentProcess commandHistory killTimer wasStopped timedOut
       scriptOutput executionTime runBtn_disabled runBtn_innerHTML
       stopBtn_disabled blocks frames lingering timers effects nextHandle
       set_lingering set_isRunning
       set_currentProcess set_commandHistory set_killTimer set_wasStopped
       set_timedOut set_scriptOutput set_executionTime set_runBtn_disabled
       set_runBtn_innerHTML set_stopBtn_disabled set_blocks set_frames
       set_timers set_effects set_nextHandle script startTime isError_v
       duration_v outputChars outputDiv set_outputChars set_locals fst snd
       promise_of default from_option id command output isError duration].

(** *** The data listener *)

Lemma onData_no_frame className pid data st :
  frames st !! pid = None -> lingering st !! pid = None ->
  onData className pid data st = st.
Proof. intros H L. unfold onData. rewrite H, L. reflexivity. Qed.

Lemma onData_guarded className pid data st f :
  frames st !! pid = Some f -> guard f st = true ->
  onData className pid data st = st.
Proof.
  intros H G. unfold onData, listener, guard in *. rewrite H, G. reflexivity.
Qed.

Lemma onData_lingering_guarded className pid data st f :
  frames st !! pid = None -> lingering st !! pid = Some f ->
  guard f st = true ->
  onData className pid data st = st.
Proof.
  intros H L G. unfold onData, listener, guard in *. rewrite H, L, G.
  reflexivity.
Qed.

Lemma onData_lingering_accepted className pid data st f :
  frames st !! pid = None -> lingering st !! pid = Some f ->
  guard f st = false ->
  exists B,
    default [] (B !! outputDiv f)
    = children (outputDiv f) st ++ line_elements className data
    /\ (forall c, c <> outputDiv f -> B !! c = blocks st !! c)
    /\ let f' := set_outputChars (outputChars f + counted_units data) f in
       let st1 :=
         set_lingering (<[pid := f']> (lingering st)) (set_blocks B st) in
       onData className pid data st
       = if (maxOutputChars <? outputChars f')%Z then
           kill_current
             (set_wasStopped true
                (set_blocks
                   (<[outputDiv f
                      := default [] (B !! outputDiv f) ++ [truncation_notice]]> B)
                   st1))
         else st1.
Proof.
  intros H L G. unfold onData, listener, guard in *. rewrite H, L, G.
  destruct (appendLines_spec (outputDiv f) data className st) as (B & -> & Hc & Ho).
  exists B. split; [exact Hc|]. split; [exact Ho|].
  cbn [outputChars set_outputChars outputDiv].
  destruct (maxOutputChars <? outputChars f + counted_units data)%Z; reflexivity.
Qed.

(** A chunk is handled in one of five ways. *)
Lemma onData_cases pid st :
  (frames st !! pid = None /\ lingering st !! pid = None)
  \/ (exists f, frames st !! pid = Some f /\ guard f st = true)
  \/ (exists f, frames st !! pid = Some f /\ guard f st = false)
  \/ (exists f, frames st !! pid = None /\ lingering st !! pid = Some f
                /\ guard f st = true)
  \/ (exists f, frames st !! pid = None /\ lingering st !! pid = Some f
                /\ guard f st = false).
Proof.
  destruct (frames st !! pid) as [f|] eqn:Hf.
  - destruct (guard f st) eqn:G; eauto 6.
  - destruct (lingering st !! pid) as [f|] eqn:Hl; [|auto].
    destruct (guard f st) eqn:G; eauto 8.
Qed.

Lemma onData_accepted className pid data st f :
  frames st !! pid = Some f -> guard f st = false ->
  exists B,
    default [] (B !! outputDiv f)
    = children (outputDiv f) st ++ line_elements className data
    /\ (forall c, c <> outputDiv f -> B !! c = blocks st !! c)
    /\ let f' := set_outputChars (outputChars f + counted_units data) f in
       let st1 := set_frames (<[pid := f']> (frames st)) (set_blocks B st) in
       onData className pid data st
       = if (maxOutputChars <? outputChars f')%Z then
           kill_current
             (set_wasStopped true
                (set_blocks
                   (<[outputDiv f
                      := default [] (B !! outputDiv f) ++ [truncation_notice]]> B)
                   st1))
         else st1.
Proof.
  intros H G. unfold onData, listener, guard in *. rewrite H, G.
  destruct (appendLines_spec (outputDiv f) data className st) as (B & -> & Hc & Ho).
  exists B. split; [exact Hc|]. split; [exact Ho|].
  cbn [outputChars set_outputChars outputDiv].
  destruct (maxOutputChars <? outputChars f + counted_units data)%Z; reflexivity.
Qed.

Lemma kill_current_effects st pid :
  currentProcess st = Some pid ->
  effects (kill_current st) = effects st ++ [Kill pid SIGTERM].
Proof. intros H. unfold kill_current. rewrite H. reflexivity. Qed.

Ltac kill_cases :=
  unfold kill_current, kill, log;
  match goal with
  | |- context [match currentProcess ?s with _ => _ end] =>
      let E := fresh "E" in destruct (currentProcess s) eqn:E
  end.

(** *** Starting a run *)

Lemma runScript_starts st input now :
  isRunning st = false ->
  falsy (trim input) = false ->
  sudo_test (trim input) = false ->
  let st' := fst (runScript input now SpawnOk st) in
  let div := nextHandle st in
  let pid := S div in
  let t := S (S div) in
  snd (runScript input now SpawnOk st) = Pending
  /\ InFlight pid t (trim input) now div st'
  /\ frames st' = <[pid := mkFrame (trim input) now false [] 0 div]> (frames st)
  /\ timers st' = t :: timers st
  /\ effects st'
     = effects st
       ++ [Spawn (lit "/bin/zsh") [lit "-c"; trim input] (Some pid);
           SetTimeout t timeoutMs]
  /\ wasStopped st' = false /\ timedOut st' = false
  /\ children div st' = []
  /\ commandHistory st' = commandHistory st.
Proof.
  intros Hidle Hne Hsudo. unfold Executor.runScript.
  rewrite Hne, Hidle, Hsudo. cbn [orb].
  unfold remove_placeholder, createBlock, append_node, setTimeout, log,
    InFlight, Awaiting, children.
  destruct (has_placeholder _); cbn; rewrite ?lookup_insert_eq, <- ?app_assoc;
    cbn; repeat split; try reflexivity; eexists; reflexivity.
Qed.

(** *** Events while a run is in flight *)

Lemma set_outputChars_id f : set_outputChars (outputChars f) f = f.
Proof. destruct f; reflexivity. Qed.

Lemma runScript_busy st input now env :
  isRunning st = true -> runScript input now env st = (st, Fulfilled).
Proof.
  intros H. unfold Executor.runScript. rewrite H, orb_true_r. reflexivity.
Qed.

Lemma onData_quiet className pid data st :
  let st' := onData className pid data st in
  isRunning st' = isRunning st
  /\ currentProcess st' = currentProcess st
  /\ killTimer st' = killTimer st
  /\ timers st' = timers st
  /\ commandHistory st' = commandHistory st
  /\ timedOut st' = timedOut st
  /\ (wasStopped st = true -> wasStopped st' = true)
  /\ (forall p f, frames st !! p = Some f ->
        exists n, frames st' !! p = Some (set_outputChars n f))
  /\ (forall p, frames st !! p = None -> frames st' !! p = None).
Proof.
  cbn zeta.
  assert (Hid : forall p f, frames st !! p = Some f ->
            exists n, frames st !! p = Some (set_outputChars n f)).
  { intros p f H. exists (outputChars f). rewrite set_outputChars_id. exact H. }
  destruct (onData_cases pid st)
    as [[Hf Hl]|[(f & Hf & G)|[(f & Hf & G)|[(f & Hf & Hl & G)
                                            |(f & Hf & Hl & G)]]]];
    [rewrite (onData_no_frame _ _ _ _ Hf Hl); repeat split; auto
    |rewrite (onData_guarded _ _ _ _ _ Hf G); repeat split; auto
    |
    |rewrite (onData_lingering_guarded _ _ _ _ _ Hf Hl G); repeat split; auto
    |destruct (onData_lingering_accepted className pid data st f Hf Hl G)
       as (B & _ & _ & ->);
     unfold guard in G; rewrite !orb_false_iff in G;
     destruct G as [[_ Gt] Gs];
     destruct (maxOutputChars <? _)%Z;
     [kill_cases; cbn; repeat split; auto | cbn; repeat split; auto]].
  destruct (onData_accepted className pid data st f Hf G) as (B & _ & _ & ->).
  assert (Hfr : forall p g, frames st !! p = Some g ->
            exists n, <[pid := set_outputChars (outputChars f + counted_units data) f]>
                        (frames st) !! p = Some (set_outputChars n g)).
  { intros p g Hp. destruct (decide (pid = p)) as [<-|Hne].
    - rewrite lookup_insert_eq. rewrite Hf in Hp. injection Hp as <-. eauto.
    - rewrite lookup_insert_ne by exact Hne. auto. }
  assert (Hno : forall p, frames st !! p = None ->
            <[pid := set_outputChars (outputChars f + counted_units data) f]>
              (frames st) !! p = None).
  { intros p Hp. rewrite lookup_insert_ne; [exact Hp|]. congruence. }
  unfold guard in G. rewrite !orb_false_iff in G. destruct G as [[_ Gt] Gs].
  destruct (maxOutputChars <? _)%Z.
  - kill_cases; cbn; repeat split; auto.
  - cbn. repeat split; auto.
Qed.

Lemma quiet_step st e :
  isRunning st = true -> quiet e ->
  let st' := step st e in
  isRunning st' = true
  /\ currentProcess st' = currentProcess st
  /\ killTimer st' = killTimer st
  /\ (timedOut st = true -> timedOut st' = true)
  /\ (wasStopped st = true -> wasStopped st' = true)
  /\ (forall p f, frames st !! p = Some f ->
        exists n, frames st' !! p = Some (set_outputChars n f))
  /\ (forall p, frames st !! p = None -> frames st' !! p = None).
Proof.
  intros Hrun Hq.
  assert (Hid : forall p f, frames st !! p = Some f ->
            exists n, frames st !! p = Some (set_outputChars n f)).
  { intros p f H. exists (outputChars f). rewrite set_outputChars_id. exact H. }
  destruct e as [input now env| | |t|pid data|pid data|pid code now|pid err now];
    cbn [Executor.step quiet] in *; try contradiction.
  - rewrite runScript_busy by exact Hrun. cbn. repeat split; auto.
  - unfold stopScript. rewrite Hrun.
    destruct (currentProcess st) eqn:E; cbn; repeat split; auto.
  - cbn. repeat split; auto.
  - destruct (decide (t ∈ timers st)); [|repeat split; auto].
    unfold onTimeout. kill_cases; cbn; repeat split; auto.
  - destruct (onData_quiet output_stdout pid data st)
      as (H1 & H2 & H3 & _ & _ & H4 & H5 & H6 & H7).
    repeat split; try congruence; auto.
  - destruct (onData_quiet output_stderr pid data st)
      as (H1 & H2 & H3 & _ & _ & H4 & H5 & H6 & H7).
    repeat split; try congruence; auto.
Qed.

Lemma quiet_steps st es :
  isRunning st = true -> Forall quiet es ->
  let st' := steps st es in
  isRunning st' = true
  /\ currentProcess st' = currentProcess st
  /\ killTimer st' = killTimer st
  /\ (timedOut st = true -> timedOut st' = true)
  /\ (wasStopped st = true -> wasStopped st' = true)
  /\ (forall p f, frames st !! p = Some f ->
        exists n, frames st' !! p = Some (set_outputChars n f))
  /\ (forall p, frames st !! p = None -> frames st' !! p = None).
Proof.
  intros Hrun Hq. revert st Hrun.
  induction Hq as [|e es He _ IH]; intros st Hrun.
  - cbn. repeat split; auto. intros p f H. exists (outputChars f).
    rewrite set_outputChars_id. exact H.
  - rewrite steps_cons.
    destruct (quiet_step st e Hrun He) as (H1 & H2 & H3 & H4 & H5 & H6 & H7).
    destruct (IH _ H1) as (I1 & I2 & I3 & I4 & I5 & I6 & I7).
    cbn zeta. repeat split; try congruence; auto.
    intros p f Hp. destruct (H6 p f Hp) as [n Hn].
    destruct (I6 p _ Hn) as [m Hm]. exists m. rewrite Hm.
    destruct f; reflexivity.
Qed.

Lemma inflight_steps pid t script start div st es :
  InFlight pid t script start div st -> Forall quiet es ->
  InFlight pid t script start div (steps st es).
Proof.
  intros (Hrun & Hp & Ht & [n Hf]) Hq.
  destruct (quiet_steps st es Hrun Hq) as (H1 & H2 & H3 & _ & _ & H6 & _).
  destruct (H6 _ _ Hf) as [m Hm].
  repeat split; try congruence. exists m. exact Hm.
Qed.

Lemma inflight_step pid t script start div st e :
  InFlight pid t script start div st -> quiet e ->
  InFlight pid t script start div (step st e).
Proof.
  intros H Hq. apply (inflight_steps pid t script start div st [e]).
  - exact H.
  - repeat constructor. exact Hq.
Qed.

(** *** The end of a run *)

Ltac settle_tac Hf :=
  unfold Executor.step, streams_end, Executor.settle; rewrite Hf;
  unfold try_catch_finally, after_close, catch_block, finally_block,
    clearKillTimer, clearTimeout, appendMessage, appendChild, children, log.

(** C6: a child that closes with no exit code, in a run that neither timed
    out nor was stopped, is reported exactly like one that exits with code 0:
    the success line is appended, the history entry is not an error, and the
    time label carries no suffix. *)
Theorem null_exit_code_is_success (st : State) (pid : nat) (script : jsstring)
    (start : Z) (div : nat) (now : Z) :
  Awaiting pid script start div st ->
  timedOut st = false ->
  wasStopped st = false ->
  let st' := step st (ProcClose pid None now) in
  settle pid (Normal None) now st = settle pid (Normal (Some 0%Z)) now st
  /\ snd (settle pid (Normal None) now st) = Some Fulfilled
  /\ commandHistory st'
     = commandHistory st
       ++ [mkHistoryEntry script
             (children div st ++ [mkElement output_success msg_completed])
             false (toFixed2 (now - start))]
  /\ executionTime st'
     = lit "Execution time: " ++ toFixed2 (now - start) ++ lit "s"
  /\ isRunning st' = false
  /\ frames st' !! pid = None.
Proof.
  intros [n Hf] Ht Hs. split; [reflexivity|].
  settle_tac Hf. simpl_state. rewrite Ht, Hs. simpl_state.
  destruct (killTimer st); simpl_state;
    rewrite !lookup_insert_eq, lookup_delete_eq; simpl_state;
    repeat split; reflexivity.
Qed.

(** C7: a child that exits with a non-zero code, in a run that neither
    timed out nor was stopped, is reported as a failure of the command: the
    line appended names the exit code (distinct codes give distinct lines),
    the history entry is an error, and the time label has no suffix, where a
    failed run has [(failed)]. *)
Theorem nonzero_exit_code_is_command_failure (st : State) (pid : nat)
    (script : jsstring) (start : Z) (div : nat) (code now : Z) :
  Awaiting pid script start div st ->
  timedOut st = false ->
  wasStopped st = false ->
  code <> 0%Z ->
  let st' := step st (ProcClose pid (Some code) now) in
  snd (settle pid (Normal (Some code)) now st) = Some Fulfilled
  /\ commandHistory st'
     = commandHistory st
       ++ [mkHistoryEntry script
             (children div st ++ [mkElement output_error (msg_exit_code code)])
             true (toFixed2 (now - start))]
  /\ (forall code', msg_exit_code code' = msg_exit_code code -> code' = code)
  /\ executionTime st'
     = lit "Execution time: " ++ toFixed2 (now - start) ++ lit "s"
  /\ (forall e, executionTime st'
                <> executionTime (step st (ProcError pid e now)))
  /\ isRunning st' = false
  /\ frames st' !! pid = None.
Proof.
  intros [n Hf] Ht Hs Hc. apply Z.eqb_neq in Hc.
  settle_tac Hf. simpl_state. rewrite Ht, Hs, Hc. simpl_state.
  destruct (killTimer st); simpl_state;
    rewrite !lookup_insert_eq, lookup_delete_eq; simpl_state;
    (repeat split; try reflexivity);
    try (intros code' H; apply msg_exit_code_inj; exact H);
    intros _ H; apply (f_equal (@length N)) in H;
    rewrite !length_app in H; cbn in H; lia.
Qed.

Lemma settle_fulfilled st pid f outcome now :
  frames st !! pid = Some f ->
  let r := settle pid outcome now st in
  snd r = Some Fulfilled
  /\ isRunning (fst r) = false
  /\ currentProcess (fst r) = None
  /\ killTimer (fst r) = None
  /\ frames (fst r) = delete pid (frames st)
  /\ exists entry, commandHistory (fst r) = commandHistory st ++ [entry].
Proof.
  intros Hf. settle_tac Hf.
  destruct outcome as [code|err]; simpl_state.
  - destruct (timedOut st), (wasStopped st), code as [c|];
      try destruct (c =? 0)%Z; simpl_state;
      destruct (killTimer st) eqn:Ek; simpl_state;
      repeat split; try assumption; eexists; reflexivity.
  - destruct (killTimer st) eqn:Ek; simpl_state;
      repeat split; try assumption; eexists; reflexivity.
Qed.

Lemma settle_error st pid script start div err now :
  Awaiting pid script start div st ->
  let st' := step st (ProcError pid err now) in
  commandHistory st'
  = commandHistory st
    ++ [mkHistoryEntry script
          (children div st ++ [mkElement output_error (msg_error err)])
          true (toFixed2 (now - start))]
  /\ executionTime st'
     = lit "Execution time: " ++ toFixed2 (now - start) ++ lit "s (failed)".
Proof.
  intros [n Hf]. settle_tac Hf. simpl_state.
  destruct (killTimer st); simpl_state; rewrite !lookup_insert_eq;
    simpl_state; split; reflexivity.
Qed.

(** C8: a command line that passes the guards always ends in a fulfilled
    promise, never a rejected one.  If [spawn] throws, the call returns at
    once with a failed entry; otherwise it waits, and whatever happens in
    between, the first ['close'] or ['error'] of the child fulfils the promise
    and pushes one history entry.  An error yields a failed entry with the
    error's text and the elapsed time. *)
Theorem run_settles_fulfilled (st : State) (input : jsstring) (now : Z) :
  isRunning st = false ->
  falsy (trim input) = false ->
  sudo_test (trim input) = false ->
  let div := nextHandle st in
  let pid := S div in
  (forall err endTime,
     let r := runScript input now (SpawnThrows err endTime) st in
     snd r = Fulfilled
     /\ isRunning (fst r) = false
     /\ frames (fst r) = frames st
     /\ commandHistory (fst r)
        = commandHistory st
          ++ [mkHistoryEntry (trim input)
                [mkElement output_error (msg_error err)] true
                (toFixed2 (endTime - now))]
     /\ executionTime (fst r)
        = lit "Execution time: " ++ toFixed2 (endTime - now)
          ++ lit "s (failed)")
  /\ snd (runScript input now SpawnOk st) = Pending
  /\ (forall es outcome now',
        Forall quiet es ->
        let st2 := steps (fst (runScript input now SpawnOk st)) es in
        let r := settle pid outcome now' st2 in
        snd r = Some Fulfilled
        /\ isRunning (fst r) = false
        /\ frames (fst r) !! pid = None
        /\ (exists entry,
              commandHistory (fst r) = commandHistory st2 ++ [entry])
        /\ forall err,
             outcome = Throw err ->
             commandHistory (fst r)
             = commandHistory st2
               ++ [mkHistoryEntry (trim input)
                     (children div st2
                      ++ [mkElement output_error (msg_error err)])
                     true (toFixed2 (now' - now))]
             /\ executionTime (fst r)
                = lit "Execution time: " ++ toFixed2 (now' - now)
                  ++ lit "s (failed)")
  /\ (forall err, falsy (message err) = false ->
        msg_error err = 0x2717 :: lit " Error: " ++ message err).
Proof.
  intros Hidle Hne Hsudo div pid. split; [|split; [|split]].
  - intros err endTime. unfold Executor.runScript.
    rewrite Hne, Hidle, Hsudo. cbn [orb].
    unfold remove_placeholder, createBlock, append_node,
      try_catch_finally, catch_block, finally_block, clearKillTimer,
      clearTimeout, appendMessage, appendChild, children, log.
    simpl_state.
    destruct (has_placeholder (scriptOutput st)); simpl_state;
      destruct (killTimer st) eqn:Ek; simpl_state; rewrite !lookup_insert_eq;
      simpl_state; repeat split; reflexivity.
  - apply (runScript_starts st input now Hidle Hne Hsudo).
  - intros es outcome now' Hq.
    destruct (runScript_starts st input now Hidle Hne Hsudo)
      as (_ & Hin & _).
    pose proof (inflight_steps _ _ _ _ _ _ es Hin Hq) as (_ & _ & _ & Haw).
    fold div pid in Haw. cbn zeta.
    set (st2 := steps (fst (runScript input now SpawnOk st)) es) in *.
    destruct Haw as [n Hf].
    destruct (settle_fulfilled st2 pid _ outcome now' Hf)
      as (H1 & H2 & _ & _ & H5 & H6).
    split; [exact H1|]. split; [exact H2|]. split.
    { rewrite H5. apply lookup_delete_eq. }
    split; [exact H6|].
    intros err ->.
    apply (settle_error st2 pid (trim input) now div err now').
    exists n. exact Hf.
  - intros err H. unfold msg_error, error_text. rewrite H. reflexivity.
Qed.

(** *** One run at a time *)

Lemma consistent_idle st :
  isRunning st = false -> frames st = ∅ -> timers st = [] ->
  currentProcess st = None -> killTimer st = None -> consistent st.
Proof. intros. left. auto. Qed.

Lemma onData_consistent className pid data st :
  consistent st -> consistent (onData className pid data st).
Proof.
  intros Hc.
  destruct (onData_quiet className pid data st)
    as (H1 & H2 & H3 & H4 & _ & _ & _ & Hsome & Hnone).
  destruct Hc as [(Hrun & Hfr & Hti & Hcp & Hkt)
                 |(Hrun & p & t & f & Hfr & Hcp & Hkt & Hti)].
  - left. rewrite H1, H2, H3, H4. repeat split; try assumption.
    apply map_empty. intros q. apply Hnone. rewrite Hfr. apply lookup_empty.
  - right. rewrite H1, H2, H3, H4. split; [assumption|].
    destruct (Hsome p f) as [n Hn]; [rewrite Hfr; apply lookup_singleton_eq|].
    exists p, t, (set_outputChars n f). repeat split; try assumption.
    apply map_eq. intros q. destruct (decide (q = p)) as [->|Hq].
    + rewrite Hn, lookup_singleton_eq. reflexivity.
    + rewrite lookup_singleton_ne by congruence. apply Hnone.
      rewrite Hfr. apply lookup_singleton_ne. congruence.
Qed.

Lemma streams_end_consistent pid st :
  consistent st -> consistent (streams_end pid st).
Proof. intros H. exact H. Qed.

Lemma consistent_step st e : consistent st -> consistent (step st e).
Proof.
  intros [(Hrun & Hfr & Hti & Hcp & Hkt)
         |(Hrun & pid & t & f & Hfr & Hcp & Hkt & Hti)].
  - (* idle *)
    destruct e as [input now env| | |t|pid data|pid data|pid code now|pid err now];
      cbn [Executor.step].
    + unfold Executor.runScript. rewrite Hrun, orb_false_r.
      destruct (falsy (trim input)); [left; auto|].
      destruct (sudo_test (trim input)).
      * left. unfold blocked, remove_placeholder, createBlock, appendMessage,
          appendChild, append_node. simpl_state.
        destruct (has_placeholder (scriptOutput st)); simpl_state; auto.
      * unfold remove_placeholder, createBlock, append_node, setTimeout,
          try_catch_finally, catch_block, finally_block, clearKillTimer,
          clearTimeout, appendMessage, appendChild, children, log.
        simpl_state.
        destruct env as [|err endTime];
          destruct (has_placeholder (scriptOutput st)); simpl_state;
          rewrite ?Hkt; simpl_state.
        all: try (left; repeat split; assumption).
        all: right; split; [reflexivity|]; do 3 eexists; rewrite Hfr, Hti;
          repeat split; try reflexivity; left; reflexivity.
    + left. unfold stopScript. rewrite Hcp. auto.
    + left. cbn. auto.
    + rewrite Hti. rewrite decide_False by (apply not_elem_of_nil).
      left. auto.
    + apply onData_consistent. left. auto.
    + apply onData_consistent. left. auto.
    + apply streams_end_consistent.
      unfold Executor.settle. rewrite Hfr, lookup_empty. left. auto.
    + unfold Executor.settle. rewrite Hfr, lookup_empty. left. auto.
  - (* running *)
    assert (Hlook : frames st !! pid = Some f)
      by (rewrite Hfr; apply lookup_singleton_eq).
    assert (Hother : forall p, p <> pid -> frames st !! p = None)
      by (intros p Hp; rewrite Hfr; apply lookup_singleton_ne; congruence).
    assert (Hsettle : forall p outcome now,
              consistent (fst (settle p outcome now st))).
    { intros p outcome now. destruct (decide (p = pid)) as [->|Hp].
      - destruct (settle_fulfilled st pid f outcome now Hlook)
          as (_ & H2 & H3 & H4 & H5 & _).
        left. repeat split; try assumption.
        + rewrite H5, Hfr. apply delete_singleton_eq.
        + clear H2 H3 H4 H5. settle_tac Hlook.
          destruct outcome as [code|err]; simpl_state.
          * destruct (timedOut st), (wasStopped st), code as [c|];
              try destruct (c =? 0)%Z; simpl_state; rewrite Hkt; simpl_state;
              destruct Hti as [-> | ->]; cbn; try rewrite decide_False by tauto;
              reflexivity.
          * rewrite Hkt; simpl_state.
            destruct Hti as [-> | ->]; cbn; try rewrite decide_False by tauto;
              reflexivity.
      - unfold Executor.settle. rewrite (Hother p Hp). right.
        split; [assumption|]. exists pid, t, f. auto. }
    assert (Hsame : consistent st).
    { right. split; [assumption|]. exists pid, t, f. auto. }
    assert (Hdata : forall className p data,
              consistent (onData className p data st))
      by (intros; apply onData_consistent; exact Hsame).
    destruct e as [input now env| | |t'|p data|p data|p code now|p err now];
      cbn [Executor.step]; try apply Hsettle; try apply Hdata;
      try (apply streams_end_consistent; apply Hsettle).
    + rewrite runScript_busy by exact Hrun. right.
      split; [assumption|]. exists pid, t, f. auto.
    + right. unfold stopScript. rewrite Hcp, Hrun. simpl_state.
      split; [assumption|]. exists pid, t, f. auto.
    + right. cbn. split; [assumption|]. exists pid, t, f. auto.
    + destruct (decide (t' ∈ timers st)) as [Hin|Hin];
        [|right; split; [assumption|]; exists pid, t, f; auto].
      right. unfold onTimeout, kill_current, kill, log. simpl_state.
      rewrite Hcp. simpl_state. split; [assumption|]. exists pid, t, f.
      repeat split; try assumption.
      destruct Hti as [Ht | Ht]; rewrite Ht in Hin |- *.
      * apply list_elem_of_singleton in Hin. subst t'. cbn.
        rewrite decide_False by tauto. right. reflexivity.
      * right. reflexivity.
Qed.

Lemma consistent_steps st es : consistent st -> consistent (steps st es).
Proof.
  revert st. induction es as [|e es IH]; intros st H; [exact H|].
  rewrite steps_cons. apply IH, consistent_step, H.
Qed.

Lemma consistent_one_run st :
  consistent st -> (size (frames st) <= 1 /\ length (timers st) <= 1)%nat.
Proof.
  intros [(_ & -> & -> & _)|(_ & pid & t & f & -> & _ & _ & [-> | ->])];
    rewrite ?map_size_empty, ?map_size_singleton; cbn; lia.
Qed.

(** C5: a call while a run is in flight returns at once and leaves the
    executor exactly as it was: the run, its output and its timer included.
    From a consistent executor every sequence of events leads to a consistent
    one, so at most one call is ever suspended and at most one timeout
    pending, and a run is in flight exactly when one call is suspended. *)
Theorem one_run_at_a_time :
  (forall st input now env,
     isRunning st = true ->
     runScript input now env st = (st, Fulfilled)
     /\ step st (RunScript input now env) = st)
  /\ consistent fresh
  /\ (forall st es,
        consistent st ->
        let st' := steps st es in
        consistent st'
        /\ (size (frames st') <= 1)%nat
        /\ (length (timers st') <= 1)%nat
        /\ (isRunning st' = true <-> size (frames st') = 1%nat)
        /\ forall input now env,
             frames st' <> ∅ -> step st' (RunScript input now env) = st').
Proof.
  split; [|split].
  - intros st input now env H. unfold Executor.step.
    rewrite runScript_busy by exact H. split; reflexivity.
  - apply consistent_idle; reflexivity.
  - intros st es H. cbn zeta.
    pose proof (consistent_steps st es H) as Hc.
    destruct (consistent_one_run _ Hc) as [H1 H2].
    split; [exact Hc|]. split; [exact H1|]. split; [exact H2|].
    destruct Hc as [(Hrun & Hfr & _)|(Hrun & pid & t & f & Hfr & _)].
    + rewrite Hrun, Hfr, map_size_empty. split.
      * split; discriminate.
      * intros input now env Hne. contradiction.
    + rewrite Hrun, Hfr, map_size_singleton. split.
      * split; reflexivity.
      * intros input now env _. unfold Executor.step.
        rewrite runScript_busy by exact Hrun. reflexivity.
Qed.

(** *** The timeout *)

Lemma timer_fires st pid t :
  currentProcess st = Some pid -> t ∈ timers st ->
  let st' := step st (TimerFired t) in
  timedOut st' = true
  /\ effects st' = effects st ++ [Kill pid SIGTERM]
  /\ t ∉ timers st'.
Proof.
  intros Hcp Hin. cbn [Executor.step]. rewrite decide_True by exact Hin.
  unfold onTimeout, kill_current, kill, log. simpl_state. rewrite Hcp.
  simpl_state. repeat split. intros H. apply list_elem_of_filter in H.
  tauto.
Qed.

Lemma close_after_timeout st pid script start div code now :
  Awaiting pid script start div st ->
  timedOut st = true ->
  let st' := step st (ProcClose pid code now) in
  commandHistory st'
  = commandHistory st
    ++ [mkHistoryEntry script
          (children div st ++ [mkElement output_error msg_timed_out])
          true (toFixed2 (now - start))]
  /\ executionTime st'
     = lit "Execution time: " ++ toFixed2 (now - start) ++ lit "s (timeout)"
  /\ isRunning st' = false
  /\ frames st' !! pid = None.
Proof.
  intros [n Hf] Ht. settle_tac Hf. simpl_state. rewrite Ht. simpl_state.
  destruct (killTimer st); simpl_state;
    rewrite !lookup_insert_eq, lookup_delete_eq; simpl_state;
    repeat split; reflexivity.
Qed.

(** C2: an accepted command spawns the shell and arms one timeout of 30000
    milliseconds.  When that timeout fires while the run is in flight, the
    child is sent [SIGTERM] and the run is marked timed out; whatever happens
    before the child closes (a stop request, output past the cap), and
    whatever exit code it then reports, the run is recorded as timed out. *)
Theorem timeout_takes_precedence :
  (forall st input now,
     isRunning st = false ->
     falsy (trim input) = false ->
     sudo_test (trim input) = false ->
     let st1 := step st (RunScript input now SpawnOk) in
     let div := nextHandle st in
     InFlight (S div) (S (S div)) (trim input) now div st1
     /\ S (S div) ∈ timers st1
     /\ effects st1
        = effects st
          ++ [Spawn (lit "/bin/zsh") [lit "-c"; trim input] (Some (S div));
              SetTimeout (S (S div)) 30000])
  /\ (forall st pid t script start div es code now,
        InFlight pid t script start div st ->
        t ∈ timers st ->
        Forall quiet es ->
        let st1 := step st (TimerFired t) in
        let st2 := steps st1 es in
        let st3 := step st2 (ProcClose pid code now) in
        timedOut st1 = true
        /\ effects st1 = effects st ++ [Kill pid SIGTERM]
        /\ commandHistory st3
           = commandHistory st2
             ++ [mkHistoryEntry script
                   (children div st2 ++ [mkElement output_error msg_timed_out])
                   true (toFixed2 (now - start))]
        /\ executionTime st3
           = lit "Execution time: " ++ toFixed2 (now - start)
             ++ lit "s (timeout)"
        /\ isRunning st3 = false)
  /\ msg_timed_out = 0x2717 :: lit " Timed out after 30s".
Proof.
  split; [|split; [|vm_compute; reflexivity]].
  - intros st input now Hidle Hne Hsudo. cbn zeta.
    destruct (runScript_starts st input now Hidle Hne Hsudo)
      as (_ & Hin & _ & Hti & Hef & _).
    cbn [Executor.step]. split; [exact Hin|]. split; [|exact Hef].
    rewrite Hti. apply list_elem_of_here.
  - intros st pid t script start div es code now Hin Ht Hq. cbn zeta.
    destruct Hin as (Hrun & Hcp & Hkt & Haw).
    destruct (timer_fires st pid t Hcp Ht) as (H1 & H2 & _).
    split; [exact H1|]. split; [exact H2|].
    assert (Hin1 : InFlight pid t script start div (step st (TimerFired t)))
      by (apply inflight_step; [repeat split; assumption | exact I]).
    destruct Hin1 as (Hrun1 & _ & _ & Haw1).
    destruct (quiet_steps _ es Hrun1 Hq) as (_ & _ & _ & Hto & _ & Hfr & _).
    destruct Haw1 as [n Hf1]. destruct (Hfr _ _ Hf1) as [m Hm].
    destruct (close_after_timeout (steps (step st (TimerFired t)) es)
                pid script start div code now) as (C1 & C2 & C3 & _).
    + exists m. exact Hm.
    + apply Hto, H1.
    + auto.
Qed.

(** *** The output cap *)

Lemma onData_lingering_frames className pid data st :
  frames st !! pid = None ->
  frames (onData className pid data st) = frames st.
Proof.
  intros Hf.
  destruct (lingering st !! pid) as [f|] eqn:Hl;
    [|rewrite onData_no_frame by assumption; reflexivity].
  destruct (guard f st) eqn:G;
    [rewrite (onData_lingering_guarded _ _ _ _ _ Hf Hl G); reflexivity|].
  destruct (onData_lingering_accepted className pid data st f Hf Hl G)
    as (B & _ & _ & ->).
  unfold kill_current, kill, log.
  destruct (maxOutputChars <? _)%Z; [destruct (currentProcess _)|];
    reflexivity.
Qed.

Lemma onData_other className pid data st p :
  pid <> p -> frames (onData className pid data st) !! p = frames st !! p.
Proof.
  intros Hne.
  destruct (frames st !! pid) as [f|] eqn:Hf;
    [|rewrite onData_lingering_frames by exact Hf; reflexivity].
  destruct (guard f st) eqn:G;
    [rewrite (onData_guarded _ _ _ _ _ Hf G); reflexivity|].
  destruct (onData_accepted className pid data st f Hf G) as (B & _ & _ & ->).
  unfold kill_current, kill, log.
  destruct (maxOutputChars <? _)%Z; [destruct (currentProcess _)|];
    simpl_state; apply lookup_insert_ne; exact Hne.
Qed.

Lemma frames_step st e p g :
  frames (step st e) !! p = Some g ->
  frames st !! p = Some g
  \/ outputChars g = 0%Z
  \/ exists f, frames st !! p = Some f /\ guard f st = false
       /\ (outputChars g <= outputChars f + chunk_units e)%Z.
Proof.
  assert (Hdata : forall className data,
    frames (onData className p data st) !! p = Some g ->
    frames st !! p = Some g
    \/ outputChars g = 0%Z
    \/ exists f, frames st !! p = Some f /\ guard f st = false
         /\ (outputChars g <= outputChars f + Z.of_nat (length data))%Z).
  { intros className data H.
    destruct (frames st !! p) as [f|] eqn:Hf;
      [|rewrite onData_lingering_frames in H by exact Hf; congruence].
    destruct (guard f st) eqn:G;
      [rewrite (onData_guarded _ _ _ _ _ Hf G) in H; rewrite Hf in H; auto|].
    destruct (onData_accepted className p data st f Hf G) as (B & _ & _ & Heq).
    cbn zeta in Heq. rewrite Heq in H. clear Heq.
    right. right. exists f. split; [reflexivity|]. split; [exact G|].
    pose proof (counted_units_bounds data).
    revert H. unfold kill_current, kill, log.
    destruct (maxOutputChars <? _)%Z; [destruct (currentProcess _)|];
      simpl_state; rewrite lookup_insert_eq; intros [= <-];
      cbn [outputChars set_outputChars]; lia. }
  destruct e as [input now env| | |t|pid data|pid data|pid code now|pid err now];
    cbn [Executor.step chunk_units].
  - unfold Executor.runScript.
    destruct (falsy (trim input) || isRunning st); [auto|].
    destruct (sudo_test (trim input)).
    + unfold blocked, remove_placeholder, createBlock, appendMessage,
        appendChild, append_node. simpl_state.
      destruct (has_placeholder (scriptOutput st)); simpl_state; auto.
    + unfold remove_placeholder, createBlock, append_node, setTimeout,
        try_catch_finally, catch_block, finally_block, clearKillTimer,
        clearTimeout, appendMessage, appendChild, children, log.
      simpl_state.
      destruct env as [|err endTime];
        destruct (has_placeholder (scriptOutput st)); simpl_state;
        try (destruct (killTimer st); simpl_state; auto; fail).
      all: intros H; apply lookup_insert_Some in H;
        destruct H as [[_ <-]|[_ H]]; auto.
  - unfold stopScript. destruct (currentProcess st), (isRunning st); auto.
  - auto.
  - destruct (decide (t ∈ timers st)); [|auto].
    unfold onTimeout, kill_current, kill, log. simpl_state.
    destruct (currentProcess st); auto.
  - intros H. destruct (decide (pid = p)) as [->|Hne]; [eauto|].
    left. rewrite onData_other in H by exact Hne. exact H.
  - intros H. destruct (decide (pid = p)) as [->|Hne]; [eauto|].
    left. rewrite onData_other in H by exact Hne. exact H.
  - unfold streams_end. simpl_state.
    destruct (frames st !! pid) as [f|] eqn:Hf.
    + destruct (settle_fulfilled st pid f (Normal code) now Hf)
        as (_ & _ & _ & _ & -> & _).
      intros H. apply lookup_delete_Some in H. tauto.
    + unfold Executor.settle. rewrite Hf. auto.
  - destruct (frames st !! pid) as [f|] eqn:Hf.
    + destruct (settle_fulfilled st pid f (Throw err) now Hf)
        as (_ & _ & _ & _ & -> & _).
      intros H. apply lookup_delete_Some in H. tauto.
    + unfold Executor.settle. rewrite Hf. auto.
Qed.

Lemma frames_within_steps B st es :
  (0 <= B)%Z ->
  frames_within B st ->
  Forall (fun e => (chunk_units e <= B)%Z) es ->
  frames_within B (steps st es).
Proof.
  intros HB Hst Hes. revert st Hst.
  induction Hes as [|e es He _ IH]; intros st Hst; [exact Hst|].
  rewrite steps_cons. apply IH. intros p g Hg.
  destruct (frames_step st e p g Hg) as [H|[H|(f & Hf & G & Hle)]].
  - apply (Hst p g H).
  - rewrite H. unfold maxOutputChars. lia.
  - unfold guard in G. rewrite !orb_false_iff in G.
    destruct G as [[G _] _]. apply Z.ltb_ge in G. lia.
Qed.

Lemma guard_false f st :
  guard f st = false <->
  (outputChars f <= maxOutputChars)%Z /\ timedOut st = false
  /\ wasStopped st = false.
Proof.
  unfold guard. rewrite !orb_false_iff, Z.ltb_ge. tauto.
Qed.

(** C3: a chunk is appended first and the cap checked afterwards, so the
    counter of a run is at most the cap plus the size of one chunk.  A chunk
    accepted while the counter is within the cap adds its counted units; if
    that takes the counter past the cap, the truncation notice follows the
    chunk's lines, the run is marked stopped and the child is sent [SIGTERM];
    otherwise nothing else happens.  Over any sequence of events whose chunks
    are at most [B] units long, no counter exceeds the cap plus [B]. *)
Theorem output_cap_one_chunk :
  (forall st pid f className data,
     frames st !! pid = Some f ->
     (outputChars f <= maxOutputChars)%Z ->
     timedOut st = false ->
     wasStopped st = false ->
     let st' := onData className pid data st in
     let total := (outputChars f + counted_units data)%Z in
     frames st' !! pid = Some (set_outputChars total f)
     /\ (total <= maxOutputChars + Z.of_nat (length data))%Z
     /\ ((total <= maxOutputChars)%Z ->
         children (outputDiv f) st'
         = children (outputDiv f) st ++ line_elements className data
         /\ wasStopped st' = false /\ effects st' = effects st)
     /\ ((maxOutputChars < total)%Z ->
         children (outputDiv f) st'
         = children (outputDiv f) st ++ line_elements className data
           ++ [truncation_notice]
         /\ wasStopped st' = true
         /\ forall p, currentProcess st = Some p ->
              effects st' = effects st ++ [Kill p SIGTERM]))
  /\ (forall B st es,
        (0 <= B)%Z ->
        frames_within B st ->
        Forall (fun e => (chunk_units e <= B)%Z) es ->
        frames_within B (steps st es))
  /\ (forall B, frames_within B fresh)
  /\ maxOutputChars = 50000%Z.
Proof.
  split; [|split; [|split; [|reflexivity]]].
  - intros st pid f className data Hf Hle Ht Hs. cbn zeta.
    assert (G : guard f st = false) by (apply guard_false; auto).
    destruct (onData_accepted className pid data st f Hf G)
      as (B & Hc & _ & ->).
    pose proof (counted_units_bounds data) as Hb.
    cbn [outputChars set_outputChars].
    unfold kill_current, kill, log, children in *.
    destruct (Z.ltb_spec maxOutputChars (outputChars f + counted_units data));
      simpl_state.
    + split.
      { destruct (currentProcess st); simpl_state; apply lookup_insert_eq. }
      split; [lia|]. split; [lia|]. intros _.
      destruct (currentProcess st) eqn:Hcp; simpl_state;
        rewrite lookup_insert_eq; simpl_state; rewrite Hc, <- app_assoc;
        repeat split; try reflexivity; intros p' [= <-]; try reflexivity.
    + split; [apply lookup_insert_eq|]. split; [lia|]. split; [|lia].
      intros _. rewrite Hc. auto.
  - intros B st es. apply frames_within_steps.
  - intros B pid f H. cbn in H. rewrite lookup_empty in H. discriminate.
Qed.

(** *** After the mark *)

Lemma marked_guard pid f st :
  frames st !! pid = Some f -> marked pid st -> guard f st = true.
Proof.
  intros Hf [H|[H|(f' & Hf' & H)]]; unfold guard.
  - rewrite H, orb_true_r. reflexivity.
  - rewrite H, orb_true_r. reflexivity.
  - rewrite Hf in Hf'. injection Hf' as <-.
    apply Z.ltb_lt in H. rewrite H. reflexivity.
Qed.

Lemma flagged_guard f st :
  timedOut st = true \/ wasStopped st = true -> guard f st = true.
Proof.
  intros [H|H]; unfold guard; rewrite H, ?orb_true_r; reflexivity.
Qed.

(** With either flag set every listener drops its chunk, that of a lingering
    child too. *)
Lemma flagged_data className p data st :
  timedOut st = true \/ wasStopped st = true ->
  onData className p data st = st.
Proof.
  intros H.
  destruct (onData_cases p st)
    as [[Hf Hl]|[(f & Hf & G)|[(f & Hf & G)|[(f & Hf & Hl & G)
                                            |(f & Hf & Hl & G)]]]].
  - apply onData_no_frame; assumption.
  - apply (onData_guarded _ _ _ _ f); assumption.
  - rewrite (flagged_guard f st H) in G. discriminate.
  - apply (onData_lingering_guarded _ _ _ _ f); assumption.
  - rewrite (flagged_guard f st H) in G. discriminate.
Qed.

Lemma marked_data className st pid f data :
  frames st !! pid = Some f -> marked pid st ->
  onData className pid data st = st.
Proof.
  intros Hf Hm. apply (onData_guarded _ _ _ _ _ Hf).
  apply (marked_guard pid); assumption.
Qed.

Lemma flagged_step st e :
  isRunning st = true ->
  timedOut st = true \/ wasStopped st = true ->
  quiet e ->
  blocks (step st e) = blocks st /\ frames (step st e) = frames st.
Proof.
  intros Hrun Hm Hq.
  destruct e as [input now env| | |t'|p data|p data|p code now|p err now];
    cbn [Executor.step quiet] in *; try contradiction.
  - rewrite runScript_busy by exact Hrun. auto.
  - unfold stopScript. destruct (currentProcess st), (isRunning st); auto.
  - auto.
  - destruct (decide (t' ∈ timers st)); [|auto].
    unfold onTimeout, kill_current, kill, log. simpl_state.
    destruct (currentProcess st); auto.
  - rewrite flagged_data by assumption. auto.
  - rewrite flagged_data by assumption. auto.
Qed.

(** A listener that lingers counts on, and reads the flags and the current
    child of the executor as they are when its chunk arrives: a chunk that
    takes its counter past the cap is appended to the block of the run that
    has ended, followed by the truncation notice, and it marks whatever run
    is in flight as stopped and sends [SIGTERM] to the child of that run. *)
Lemma lingering_chunk_past_cap className pid data st f p :
  frames st !! pid = None ->
  lingering st !! pid = Some f ->
  guard f st = false ->
  (maxOutputChars < outputChars f + counted_units data)%Z ->
  currentProcess st = Some p ->
  let st' := onData className pid data st in
  children (outputDiv f) st'
  = children (outputDiv f) st ++ line_elements className data
    ++ [truncation_notice]
  /\ wasStopped st' = true
  /\ effects st' = effects st ++ [Kill p SIGTERM]
  /\ frames st' = frames st.
Proof.
  intros Hf Hl G Hover Hcp. cbn zeta.
  destruct (onData_lingering_accepted className pid data st f Hf Hl G)
    as (B & HB & _ & ->).
  cbn [outputChars set_outputChars outputDiv].
  apply Z.ltb_lt in Hover. rewrite Hover.
  unfold kill_current, kill, log, children. simpl_state. rewrite Hcp.
  simpl_state. rewrite lookup_insert_eq. simpl_state.
  unfold children in HB. rewrite HB, <- app_assoc. auto.
Qed.

(** While its call is suspended, a marked run gets no output: the listeners
    of its child drop every chunk, and once a flag is set no event before the
    child closes or fails changes any output block.  This says nothing of a
    chunk that arrives after the call has ended on an ['error']. *)
Lemma marked_run_in_flight (st : State) (pid t : nat) (script : jsstring)
    (start : Z) (div : nat) :
  InFlight pid t script start div st ->
  (marked pid st ->
   forall data,
     step st (StdoutData pid data) = st /\ step st (StderrData pid data) = st)
  /\ (timedOut st = true \/ wasStopped st = true ->
      forall es,
        Forall quiet es ->
        blocks (steps st es) = blocks st
        /\ (timedOut (steps st es) = true \/ wasStopped (steps st es) = true)
        /\ InFlight pid t script start div (steps st es)).
Proof.
  intros Hin. split.
  - intros Hm data. destruct Hin as (_ & _ & _ & [n Hf]). cbn [Executor.step].
    rewrite !(marked_data _ st pid _ _ Hf Hm). auto.
  - intros Hm es Hq. revert st Hin Hm.
    induction Hq as [|e es He _ IH]; intros st Hin Hm; [auto|].
    rewrite steps_cons.
    pose proof Hin as (Hrun & _).
    destruct (flagged_step st e Hrun Hm He) as [Hb Hf].
    destruct (quiet_step st e Hrun He) as (_ & _ & _ & Hto & Hws & _).
    assert (Hin' : InFlight pid t script start div (step st e))
      by (apply inflight_step; assumption).
    assert (Hm' : timedOut (step st e) = true \/ wasStopped (step st e) = true)
      by (destruct Hm; auto).
    destruct (IH (step st e) Hin' Hm') as (I1 & I2 & I3).
    rewrite I1, Hb. auto.
Qed.

(** C10: what a chunk adds to the counter is the total length of its
    non-empty lines.  Together with the code units of the line separators
    that makes up the chunk, so a chunk with a line feed adds strictly less
    than its length; empty lines add nothing. *)
Theorem counter_counts_nonempty_lines :
  (forall container data className st,
     snd (appendLines container data className st) = counted_units data
     /\ children container (fst (appendLines container data className st))
        = children container st ++ line_elements className data)
  /\ (forall st pid f className data,
        frames st !! pid = Some f ->
        guard f st = false ->
        frames (onData className pid data st) !! pid
        = Some (set_outputChars (outputChars f + counted_units data) f))
  /\ (forall data,
        (counted_units data + Z.of_nat (separator_units data)
         = Z.of_nat (length data))%Z)
  /\ (forall data,
        In LF data -> (counted_units data < Z.of_nat (length data))%Z)
  /\ counted_units (lit "ab" ++ [LF; LF; CR; LF] ++ lit "c" ++ [LF]) = 3%Z.
Proof.
  split; [|split; [|split; [|split]]].
  - intros container data className st.
    destruct (appendLines_spec container data className st) as (B & -> & Hc & _).
    split; [reflexivity|]. exact Hc.
  - intros st pid f className data Hf G.
    destruct (onData_accepted className pid data st f Hf G) as (B & _ & _ & ->).
    unfold kill_current, kill, log.
    destruct (maxOutputChars <? _)%Z; [destruct (currentProcess _)|];
      simpl_state; apply lookup_insert_eq.
  - apply counted_units_separators.
  - intros data H. pose proof (counted_units_separators data).
    pose proof (separator_units_LF data H). lia.
  - reflexivity.
Qed.

End Properties.

(** ** The properties at concrete inputs *)

Lemma running_example_in_flight :
  InFlight 1 2 (lit "sleep 60") 0 0 running_example.
Proof.
  repeat split; try (vm_compute; reflexivity).
  exists 0%Z. vm_compute. reflexivity.
Defined.

Lemma running_example_consistent : consistent running_example.
Proof.
  apply (consistent_steps toFixed2_exact fresh
           [RunScript (lit "sleep 60") 0 SpawnOk]).
  apply consistent_idle; reflexivity.
Defined.

Lemma sudo_is_blocked_witness :
  isRunning fresh = false /\ standalone_sudo (lit " sudo ls")
  /\ commandHistory
       (fst (runScript toFixed2_exact (lit " sudo ls") 5 SpawnOk fresh))
     = [mkHistoryEntry (lit "sudo ls") [mkElement output_error msg_blocked]
          true (lit "0.00")].
Proof.
  assert (Hs : standalone_sudo (lit " sudo ls")).
  { exists [32], 115, 117, 100, 111, (lit " ls").
    unfold either, free_of_identifier, identifier_char. cbn.
    repeat split; try (left; reflexivity);
      intros c [= <-]; lia. }
  split; [reflexivity|]. split; [exact Hs|].
  exact (proj1 (proj2 (proj2 (proj2 (proj2 (proj2 (proj2 (proj2
    (sudo_is_blocked toFixed2_exact fresh (lit " sudo ls") 5 SpawnOk
       eq_refl Hs))))))))).
Defined.

Lemma timeout_takes_precedence_witness :
  InFlight 1 2 (lit "sleep 60") 0 0 running_example
  /\ 2%nat ∈ timers running_example
  /\ Forall quiet [StopScript; StdoutData 1 (lit "x")]
  /\ isRunning
       (step toFixed2_exact
          (steps toFixed2_exact
             (step toFixed2_exact running_example (TimerFired 2))
             [StopScript; StdoutData 1 (lit "x")])
          (ProcClose 1 (Some 0%Z) 31000))
     = false.
Proof.
  assert (Ht : 2%nat ∈ timers running_example).
  { assert (E : timers running_example = [2%nat]) by (vm_compute; reflexivity).
    rewrite E. apply list_elem_of_here. }
  assert (Hq : Forall quiet [StopScript; StdoutData 1 (lit "x")])
    by (repeat constructor).
  split; [exact running_example_in_flight|]. split; [exact Ht|].
  split; [exact Hq|].
  pose proof (proj1 (proj2 (timeout_takes_precedence toFixed2_exact))
                running_example 1%nat 2%nat (lit "sleep 60") 0%Z 0%nat
                [StopScript; StdoutData 1 (lit "x")] (Some 0%Z) 31000%Z
                running_example_in_flight Ht Hq) as H.
  cbn zeta in H. exact (proj2 (proj2 (proj2 (proj2 H)))).
Defined.

Lemma output_cap_one_chunk_witness :
  frames running_example !! 1%nat
  = Some (mkFrame (lit "sleep 60") 0 false [] 0 0)
  /\ (0 <= maxOutputChars)%Z
  /\ timedOut running_example = false
  /\ wasStopped running_example = false
  /\ frames (onData output_stdout 1 (lit "hello" ++ [LF]) running_example)
     !! 1%nat
     = Some (mkFrame (lit "sleep 60") 0 false [] 5 0).
Proof.
  assert (Hf : frames running_example !! 1%nat
               = Some (mkFrame (lit "sleep 60") 0 false [] 0 0))
    by (vm_compute; reflexivity).
  assert (Hle : (0 <= maxOutputChars)%Z) by (unfold maxOutputChars; lia).
  split; [exact Hf|]. split; [exact Hle|].
  split; [reflexivity|]. split; [reflexivity|].
  exact (proj1 (proj1 (output_cap_one_chunk toFixed2_exact)
                  running_example 1%nat _ output_stdout (lit "hello" ++ [LF])
                  Hf Hle eq_refl eq_refl)).
Defined.

(** C4: the code does not keep to the claim.  The flags a ['data'] listener
    tests are fields of the executor, not of the run, and the listeners are
    never removed.  A run that was stopped ends on an ['error'] when the
    signal cannot be delivered, and its child lives on.  Until the next run
    starts, the flag still holds the chunks of that child back; the next run
    resets the flags, and a late chunk of the old child is then appended to
    the output block of the stopped run. *)
Theorem late_chunk_reaches_stopped_run :
  let eperm := mkJsError (lit "Error") (lit "kill EPERM") in
  let stopped :=
    steps toFixed2_exact fresh [RunScript (lit "yes") 0 SpawnOk; StopScript] in
  let ended := step toFixed2_exact stopped (ProcError 1 eperm 100) in
  let next := step toFixed2_exact ended (RunScript (lit "pwd") 200 SpawnOk) in
  let late := StdoutData 1 (lit "y" ++ [LF]) in
  InFlight 1 2 (lit "yes") 0 0 stopped
  /\ marked 1 stopped
  /\ commandHistory ended
     = [mkHistoryEntry (lit "yes") [mkElement output_error (msg_error eperm)]
          true (lit "0.10")]
  /\ step toFixed2_exact ended late = ended
  /\ InFlight 4 5 (lit "pwd") 200 3 next
  /\ children 0 next = [mkElement output_error (msg_error eperm)]
  /\ children 0 (step toFixed2_exact next late)
     = [mkElement output_error (msg_error eperm);
        mkElement (lit "output-line output-stdout") (lit "y")].
Proof.
  cbn zeta. split; [|split; [|split; [|split; [|split; [|split]]]]].
  - repeat split; try reflexivity. exists 0%Z. vm_compute. reflexivity.
  - right. left. vm_compute. reflexivity.
  - vm_compute. reflexivity.
  - vm_compute. reflexivity.
  - repeat split; try reflexivity. exists 0%Z. vm_compute. reflexivity.
  - vm_compute. reflexivity.
  - vm_compute. reflexivity.
Qed.

Lemma one_run_at_a_time_witness :
  isRunning running_example = true
  /\ step toFixed2_exact running_example (RunScript (lit "ls") 7 SpawnOk)
     = running_example.
Proof.
  split; [reflexivity|].
  exact (proj2 (proj1 (one_run_at_a_time toFixed2_exact)
                  running_example (lit "ls") 7%Z SpawnOk eq_refl)).
Defined.

Lemma null_exit_code_is_success_witness :
  Awaiting 1 (lit "sleep 60") 0 0 running_example
  /\ timedOut running_example = false
  /\ wasStopped running_example = false
  /\ settle toFixed2_exact 1 (Normal None) 900 running_example
     = settle toFixed2_exact 1 (Normal (Some 0%Z)) 900 running_example.
Proof.
  assert (Ha : Awaiting 1 (lit "sleep 60") 0 0 running_example)
    by (exists 0%Z; vm_compute; reflexivity).
  split; [exact Ha|]. split; [reflexivity|]. split; [reflexivity|].
  exact (proj1 (null_exit_code_is_success toFixed2_exact running_example
                  1%nat (lit "sleep 60") 0%Z 0%nat 900%Z Ha eq_refl eq_refl)).
Defined.

Lemma nonzero_exit_code_is_command_failure_witness :
  Awaiting 1 (lit "sleep 60") 0 0 running_example
  /\ timedOut running_example = false
  /\ wasStopped running_example = false
  /\ 2%Z <> 0%Z
  /\ commandHistory
       (step toFixed2_exact running_example (ProcClose 1 (Some 2%Z) 900))
     = [mkHistoryEntry (lit "sleep 60")
          [mkElement output_error (msg_exit_code 2)] true (lit "0.90")].
Proof.
  assert (Ha : Awaiting 1 (lit "sleep 60") 0 0 running_example)
    by (exists 0%Z; vm_compute; reflexivity).
  assert (Hc : 2%Z <> 0%Z) by lia.
  split; [exact Ha|]. split; [reflexivity|]. split; [reflexivity|].
  split; [exact Hc|].
  exact (proj1 (proj2 (nonzero_exit_code_is_command_failure toFixed2_exact
                         running_example 1%nat (lit "sleep 60") 0%Z 0%nat
                         2%Z 900%Z Ha eq_refl eq_refl Hc))).
Defined.

Lemma run_settles_fulfilled_witness :
  isRunning fresh = false
  /\ falsy (trim (lit "ls")) = false
  /\ sudo_test (trim (lit "ls")) = false
  /\ Forall quiet [StdoutData 1 (lit "a"); StopScript]
  /\ snd (settle toFixed2_exact 1
            (Throw (mkJsError (lit "Error") (lit "spawn ENOENT"))) 40
            (steps toFixed2_exact
               (fst (runScript toFixed2_exact (lit "ls") 0 SpawnOk fresh))
               [StdoutData 1 (lit "a"); StopScript]))
     = Some Fulfilled.
Proof.
  assert (Hq : Forall quiet [StdoutData 1 (lit "a"); StopScript])
    by (repeat constructor).
  split; [reflexivity|]. split; [reflexivity|]. split; [reflexivity|].
  split; [exact Hq|].
  pose proof (proj1 (proj2 (proj2
                (run_settles_fulfilled toFixed2_exact fresh (lit "ls") 0%Z
                   eq_refl eq_refl eq_refl)))
                [StdoutData 1 (lit "a"); StopScript]
                (Throw (mkJsError (lit "Error") (lit "spawn ENOENT"))) 40%Z
                Hq) as H.
  cbn zeta in H. exact (proj1 H).
Defined.

Lemma empty_command_is_noop_witness :
  whitespace_only (lit "   ")
  /\ runScript toFixed2_exact (lit "   ") 3 SpawnOk running_example
     = (running_example, Fulfilled).
Proof.
  assert (Hw : whitespace_only (lit "   ")) by (repeat constructor).
  split; [exact Hw|].
  exact (proj1 (empty_command_is_noop toFixed2_exact running_example
                  (lit "   ") 3%Z SpawnOk Hw)).
Defined.

Lemma counter_counts_nonempty_lines_witness :
  In LF (lit "hello" ++ [LF])
  /\ (counted_units (lit "hello" ++ [LF])
      < Z.of_nat (length (lit "hello" ++ [LF])))%Z.
Proof.
  assert (Hin : In LF (lit "hello" ++ [LF]))
    by (cbn; repeat (first [left; reflexivity | right])).
  split; [exact Hin|].
  exact (proj1 (proj2 (proj2 (proj2
           counter_counts_nonempty_lines)))
           (lit "hello" ++ [LF]) Hin).
Defined.

(** *** Scenarios *)

Example echo_hello_scenario :
  let st :=
    steps toFixed2_exact fresh
      [RunScript (lit "echo hello") 1000 SpawnOk;
       StdoutData 1 (lit "hello" ++ [LF]);
       ProcClose 1 (Some 0%Z) 1234] in
  commandHistory st
  = [mkHistoryEntry (lit "echo hello")
       [mkElement (lit "output-line output-stdout") (lit "hello");
        mkElement output_success msg_completed]
       false (lit "0.23")]
  /\ isRunning st = false /\ timers st = []
  /\ executionTime st = lit "Execution time: 0.23s".
Proof. vm_compute. repeat split; reflexivity. Qed.

Example sleep_timeout_scenario :
  let st :=
    steps toFixed2_exact fresh
      [RunScript (lit "sleep 60") 0 SpawnOk;
       TimerFired 2;
       ProcClose 1 None 30010] in
  commandHistory st
  = [mkHistoryEntry (lit "sleep 60") [mkElement output_error msg_timed_out]
       true (lit "30.01")]
  /\ effects st
     = [Spawn (lit "/bin/zsh") [lit "-c"; lit "sleep 60"] (Some 1%nat);
        SetTimeout 2 30000; Kill 1 SIGTERM; ClearTimeout 2]
  /\ executionTime st = lit "Execution time: 30.01s (timeout)".
Proof. vm_compute. repeat split; reflexivity. Qed.

Example stop_scenario :
  let st :=
    steps toFixed2_exact fresh
      [RunScript (lit "yes") 0 SpawnOk;
       StdoutData 1 (lit "y" ++ [LF] ++ lit "y" ++ [LF]);
       StopScript;
       StdoutData 1 (lit "y" ++ [LF]);
       ProcClose 1 None 2000] in
  commandHistory st
  = [mkHistoryEntry (lit "yes")
       [mkElement (lit "output-line output-stdout") (lit "y");
        mkElement (lit "output-line output-stdout") (lit "y");
        mkElement output_error msg_stopped]
       true (lit "2.00")]
  /\ executionTime st = lit "Execution time: 2.00s (stopped)".
Proof. vm_compute. repeat split; reflexivity. Qed.

Example busy_sudo_scenario :
  step toFixed2_exact running_example (RunScript (lit "sudo ls") 5 SpawnOk)
  = running_example.
Proof. vm_compute. reflexivity. Qed.

Import MoreNotions.

(** *** More about [trim] *)

Lemma trimStart_head s c r : trimStart s = c :: r -> is_whitespace c = false.
Proof.
  induction s as [|a s IH]; cbn; [discriminate|].
  destruct (is_whitespace a) eqn:E; [exact IH|].
  intros [= <- _]. exact E.
Qed.

Lemma trimStart_fixed s :
  (forall c, head s = Some c -> is_whitespace c = false) -> trimStart s = s.
Proof.
  destruct s as [|c r]; [reflexivity|]. intros H. cbn.
  rewrite (H c eq_refl). reflexivity.
Qed.

Lemma head_rev (s : jsstring) : head (rev s) = last s.
Proof.
  induction s as [|c s IH]; [reflexivity|]. cbn [rev].
  destruct s as [|d s]; [reflexivity|].
  rewrite last_cons_cons, <- IH. cbn [rev].
  destruct (rev s ++ [d]) eqn:E; [|reflexivity].
  apply app_eq_nil in E as [_ E]. discriminate.
Qed.

Lemma last_rev (s : jsstring) : last (rev s) = head s.
Proof. rewrite <- (rev_involutive s) at 2. symmetry. apply head_rev. Qed.

Lemma trimEnd_fixed s :
  (forall c, last s = Some c -> is_whitespace c = false) -> trimEnd s = s.
Proof.
  intros H. unfold trimEnd. rewrite trimStart_fixed.
  - apply rev_involutive.
  - intros c Hc. rewrite head_rev in Hc. auto.
Qed.

Lemma trim_fixed s : trimmed s -> trim s = s.
Proof.
  intros [Hh Hl]. unfold trim. rewrite (trimStart_fixed s Hh).
  apply trimEnd_fixed, Hl.
Qed.

Lemma trim_trimmed s : trimmed (trim s).
Proof.
  unfold trim, trimEnd.
  set (t := trimStart s).
  set (u := trimStart (rev t)).
  split.
  - intros c Hc. rewrite head_rev in Hc.
    destruct (trimStart_app (rev t)) as [l [_ Hl]]. fold u in Hl.
    assert (Hlast : last (rev t) = Some c).
    { rewrite Hl. destruct u as [|x u']; [discriminate|].
      rewrite last_app. rewrite Hc. reflexivity. }
    rewrite last_rev in Hlast.
    destruct t as [|a t'] eqn:Et; [discriminate|]. injection Hlast as ->.
    apply (trimStart_head s c t'). exact Et.
  - intros c Hc. rewrite last_rev in Hc.
    destruct u as [|a u'] eqn:Eu; [discriminate|]. injection Hc as ->.
    apply (trimStart_head (rev t) c u'). exact Eu.
Qed.

Lemma trim_idempotent s : trim (trim s) = trim s.
Proof. apply trim_fixed, trim_trimmed. Qed.

(** ** More about the executor *)

Section MoreProperties.

Variable toFixed2 : Z -> jsstring.

Local Abbreviation runScript := (Executor.runScript toFixed2).
Local Abbreviation settle := (Executor.settle toFixed2).
Local Abbreviation step := (Executor.step toFixed2).
Local Abbreviation steps := (Executor.steps toFixed2).

Ltac simpl_state :=
  cbn [isRunning currentProcess commandHistory killTimer wasStopped timedOut
       scriptOutput executionTime runBtn_disabled runBtn_innerHTML
       stopBtn_disabled blocks frames lingering timers effects nextHandle
       set_lingering set_isRunning
       set_currentProcess set_commandHistory set_killTimer set_wasStopped
       set_timedOut set_scriptOutput set_executionTime set_runBtn_disabled
       set_runBtn_innerHTML set_stopBtn_disabled set_blocks set_frames
       set_timers set_effects set_nextHandle script startTime isError_v
       duration_v outputChars outputDiv set_outputChars set_locals fst snd
       promise_of default from_option id command output isError duration].

Ltac simpl_state_in H :=
  cbn [isRunning currentProcess commandHistory killTimer wasStopped timedOut
       scriptOutput executionTime runBtn_disabled runBtn_innerHTML
       stopBtn_disabled blocks frames lingering timers effects nextHandle
       set_lingering set_isRunning
       set_currentProcess set_commandHistory set_killTimer set_wasStopped
       set_timedOut set_scriptOutput set_executionTime set_runBtn_disabled
       set_runBtn_innerHTML set_stopBtn_disabled set_blocks set_frames
       set_timers set_effects set_nextHandle script startTime isError_v
       duration_v outputChars outputDiv set_outputChars set_locals fst snd
       promise_of default from_option id command output isError duration] in H.

Ltac settle_tac Hf :=
  unfold Executor.step, streams_end, Executor.settle; rewrite Hf;
  unfold try_catch_finally, after_close, catch_block, finally_block,
    clearKillTimer, clearTimeout, appendMessage, appendChild, children, log.

Ltac kill_cases :=
  unfold kill_current, kill, log;
  match goal with
  | |- context [match currentProcess ?s with _ => _ end] =>
      let E := fresh "E" in destruct (currentProcess s) eqn:E
  end.

(** A chunk changes neither the pane nor the handles. *)
Lemma onData_pane className pid data st :
  scriptOutput (onData className pid data st) = scriptOutput st
  /\ nextHandle (onData className pid data st) = nextHandle st.
Proof.
  destruct (onData_cases pid st)
    as [[Hf Hl]|[(f & Hf & G)|[(f & Hf & G)|[(f & Hf & Hl & G)
                                            |(f & Hf & Hl & G)]]]].
  - rewrite onData_no_frame by assumption. auto.
  - rewrite (onData_guarded _ _ _ _ _ Hf G). auto.
  - destruct (onData_accepted className pid data st f Hf G)
      as (B & _ & _ & ->).
    unfold kill_current, kill, log.
    destruct (maxOutputChars <? _)%Z; [destruct (currentProcess _)|]; auto.
  - rewrite (onData_lingering_guarded _ _ _ _ _ Hf Hl G). auto.
  - destruct (onData_lingering_accepted className pid data st f Hf Hl G)
      as (B & _ & _ & ->).
    unfold kill_current, kill, log.
    destruct (maxOutputChars <? _)%Z; [destruct (currentProcess _)|]; auto.
Qed.

Lemma calm_quiet e : calm e -> quiet e.
Proof. destruct e; cbn; auto. Qed.

Lemma calm_step_timedOut st e :
  isRunning st = true -> calm e -> timedOut (step st e) = timedOut st.
Proof.
  intros Hrun Hc.
  destruct e as [input now env| | |t|pid data|pid data|pid code now|pid err now];
    cbn [Executor.step calm] in *; try contradiction.
  - rewrite runScript_busy by exact Hrun. reflexivity.
  - unfold stopScript. destruct (currentProcess st), (isRunning st); reflexivity.
  - reflexivity.
  - apply (onData_quiet output_stdout pid data st).
  - apply (onData_quiet output_stderr pid data st).
Qed.

Lemma calm_steps_timedOut st es :
  isRunning st = true -> Forall calm es ->
  timedOut (steps st es) = timedOut st.
Proof.
  intros Hrun Hc. revert st Hrun.
  induction Hc as [|e es He _ IH]; intros st Hrun; [reflexivity|].
  rewrite steps_cons.
  destruct (quiet_step toFixed2 st e Hrun (calm_quiet e He)) as (Hrun' & _).
  rewrite IH by exact Hrun'. apply calm_step_timedOut; assumption.
Qed.

Lemma close_after_stop st pid script start div code now :
  Awaiting pid script start div st ->
  timedOut st = false ->
  wasStopped st = true ->
  let st' := step st (ProcClose pid code now) in
  commandHistory st'
  = commandHistory st
    ++ [mkHistoryEntry script
          (children div st ++ [mkElement output_error msg_stopped])
          true (toFixed2 (now - start))]
  /\ executionTime st'
     = lit "Execution time: " ++ toFixed2 (now - start) ++ lit "s (stopped)"
  /\ isRunning st' = false
  /\ scriptOutput st' = scriptOutput st.
Proof.
  intros [n Hf] Ht Hs. settle_tac Hf. simpl_state. rewrite Ht, Hs. simpl_state.
  destruct (killTimer st); simpl_state;
    rewrite !lookup_insert_eq; simpl_state; repeat split; reflexivity.
Qed.

(** X1: a stop request during a run marks it stopped and sends [SIGTERM] to
    its child.  If no timeout fires before the child closes, the run is
    recorded as stopped by the user, whatever the exit code; the output it
    had at the time of the request is kept and nothing that arrives later is
    added. *)
Theorem stop_request_resolves_stopped (st : State) (pid t : nat)
    (script : jsstring) (start : Z) (div : nat) (es : list Event)
    (code : option Z) (now : Z) :
  consistent st ->
  InFlight pid t script start div st ->
  timedOut st = false ->
  Forall calm es ->
  let st1 := step st StopScript in
  let st2 := steps st1 es in
  let st3 := step st2 (ProcClose pid code now) in
  wasStopped st1 = true
  /\ stopBtn_disabled st1 = true
  /\ effects st1 = effects st ++ [Kill pid SIGTERM]
  /\ children div st2 = children div st
  /\ commandHistory st3
     = commandHistory st2
       ++ [mkHistoryEntry script
             (children div st ++ [mkElement output_error msg_stopped])
             true (toFixed2 (now - start))]
  /\ executionTime st3
     = lit "Execution time: " ++ toFixed2 (now - start) ++ lit "s (stopped)"
  /\ isRunning st3 = false.
Proof.
  intros Hc Hin Hto Hcalm. cbn zeta.
  pose proof Hin as (Hrun & Hcp & _).
  assert (Hq : Forall quiet es)
    by (eapply Forall_impl; [exact Hcalm | exact calm_quiet]).
  assert (E1 : step st StopScript
               = kill pid SIGTERM
                   (set_stopBtn_disabled true (set_wasStopped true st))).
  { cbn [Executor.step]. unfold stopScript. rewrite Hcp, Hrun. reflexivity. }
  assert (Hs1 : wasStopped (step st StopScript) = true) by (rewrite E1; reflexivity).
  assert (Hb1 : blocks (step st StopScript) = blocks st) by (rewrite E1; reflexivity).
  assert (Ht1 : timedOut (step st StopScript) = false) by (rewrite E1; exact Hto).
  assert (Hin1 : InFlight pid t script start div (step st StopScript))
    by (apply inflight_step; [exact Hin | exact I]).
  assert (Hc1 : consistent (step st StopScript)) by (apply consistent_step, Hc).
  destruct (proj2 (marked_run_in_flight toFixed2 _ pid t script start div
                     Hin1) (or_intror Hs1) es Hq) as (Hb2 & _ & Hin2).
  pose proof Hin1 as (Hrun1 & _).
  destruct (quiet_steps toFixed2 _ es Hrun1 Hq) as (_ & _ & _ & _ & Hws & _).
  pose proof (calm_steps_timedOut _ es Hrun1 Hcalm) as Ht2.
  rewrite Ht1 in Ht2.
  destruct Hin2 as (_ & _ & _ & Haw2).
  destruct (close_after_stop _ pid script start div code now Haw2 Ht2 (Hws Hs1))
    as (C1 & C2 & C3 & _).
  assert (Hch : children div (steps (step st StopScript) es) = children div st)
    by (unfold children; rewrite Hb2, Hb1; reflexivity).
  rewrite Hch in C1.
  split; [exact Hs1|]. split; [rewrite E1; reflexivity|].
  split; [rewrite E1; reflexivity|]. auto.
Qed.

(** X2: a chunk that takes the counter past the cap is appended whole,
    followed by the truncation notice; the child is sent [SIGTERM].  If no
    timeout fires before the child closes, the run is recorded as stopped by
    the user: its output is what it had, the chunk's lines, the truncation
    notice and the stopped line. *)
Theorem truncation_resolves_stopped (st : State) (pid t : nat)
    (script : jsstring) (start : Z) (div : nat) (n : Z) (err : bool)
    (data : jsstring) (es : list Event) (code : option Z) (now : Z) :
  consistent st ->
  InFlight pid t script start div st ->
  frames st !! pid = Some (mkFrame script start false [] n div) ->
  (n <= maxOutputChars)%Z ->
  timedOut st = false ->
  wasStopped st = false ->
  (maxOutputChars < n + counted_units data)%Z ->
  Forall calm es ->
  let className := if err then output_stderr else output_stdout in
  let st1 :=
    step st (if err then StderrData pid data else StdoutData pid data) in
  let st2 := steps st1 es in
  let st3 := step st2 (ProcClose pid code now) in
  let shown :=
    children div st ++ line_elements className data ++ [truncation_notice] in
  wasStopped st1 = true
  /\ effects st1 = effects st ++ [Kill pid SIGTERM]
  /\ children div st2 = shown
  /\ commandHistory st3
     = commandHistory st2
       ++ [mkHistoryEntry script
             (shown ++ [mkElement output_error msg_stopped])
             true (toFixed2 (now - start))]
  /\ executionTime st3
     = lit "Execution time: " ++ toFixed2 (now - start) ++ lit "s (stopped)".
Proof.
  intros Hc Hin Hf Hn Hto Hws Hover Hcalm. cbn zeta.
  pose proof Hin as (Hrun & Hcp & _).
  assert (Hq : Forall quiet es)
    by (eapply Forall_impl; [exact Hcalm | exact calm_quiet]).
  set (className := if err then output_stderr else output_stdout).
  set (e := if err then StderrData pid data else StdoutData pid data).
  assert (Ee : step st e = onData className pid data st)
    by (unfold e, className; destruct err; reflexivity).
  assert (Hqe : quiet e) by (unfold e; destruct err; exact I).
  assert (G : guard (mkFrame script start false [] n div) st = false)
    by (apply guard_false; auto).
  destruct (onData_accepted className pid data st _ Hf G)
    as (B & HB & _ & Heq).
  cbn zeta in Heq. cbn [outputChars set_outputChars outputDiv] in Heq, HB.
  apply Z.ltb_lt in Hover. rewrite Hover in Heq.
  unfold kill_current, kill, log in Heq. simpl_state_in Heq.
  rewrite Hcp in Heq.
  assert (Hs1 : wasStopped (step st e) = true) by (rewrite Ee, Heq; reflexivity).
  assert (Ht1 : timedOut (step st e) = false) by (rewrite Ee, Heq; exact Hto).
  assert (Hch1 : children div (step st e)
                 = children div st ++ line_elements className data
                   ++ [truncation_notice]).
  { rewrite Ee, Heq. unfold children. simpl_state. rewrite lookup_insert_eq.
    simpl_state. rewrite HB, <- app_assoc. reflexivity. }
  assert (Hin1 : InFlight pid t script start div (step st e))
    by (apply inflight_step; assumption).
  assert (Hc1 : consistent (step st e)) by (apply consistent_step, Hc).
  destruct (proj2 (marked_run_in_flight toFixed2 _ pid t script start div
                     Hin1) (or_intror Hs1) es Hq) as (Hb2 & _ & Hin2).
  pose proof Hin1 as (Hrun1 & _).
  destruct (quiet_steps toFixed2 _ es Hrun1 Hq) as (_ & _ & _ & _ & Hws2 & _).
  pose proof (calm_steps_timedOut _ es Hrun1 Hcalm) as Ht2.
  rewrite Ht1 in Ht2.
  destruct Hin2 as (_ & _ & _ & Haw2).
  destruct (close_after_stop _ pid script start div code now Haw2 Ht2 (Hws2 Hs1))
    as (C1 & C2 & _).
  assert (Hch2 : children div (steps (step st e) es) = children div (step st e))
    by (unfold children; rewrite Hb2; reflexivity).
  rewrite Hch2, Hch1 in C1.
  split; [exact Hs1|]. split; [rewrite Ee, Heq; reflexivity|].
  split; [rewrite Hch2; exact Hch1|]. split; [exact C1 | exact C2].
Qed.

Lemma settle_frame st pid f outcome now :
  frames st !! pid = Some f ->
  let st' := fst (settle pid outcome now st) in
  scriptOutput st' = scriptOutput st
  /\ nextHandle st' = nextHandle st
  /\ effects st'
     = effects st
       ++ match killTimer st with Some t => [ClearTimeout t] | None => [] end
  /\ timers st'
     = match killTimer st with
       | Some t => filter (λ x, x ≠ t) (timers st)
       | None => timers st
       end
  /\ exists verdict b d,
       commandHistory st'
       = commandHistory st
         ++ [mkHistoryEntry (script f)
               (children (outputDiv f) st ++ [verdict]) b d]
       /\ blocks st'
          = <[outputDiv f := children (outputDiv f) st ++ [verdict]]> (blocks st).
Proof.
  intros Hf. settle_tac Hf.
  destruct outcome as [code|err]; simpl_state.
  - destruct (timedOut st), (wasStopped st), code as [c|];
      try destruct (c =? 0)%Z; simpl_state;
      destruct (killTimer st) eqn:Ek; simpl_state;
      rewrite ?lookup_insert_eq, ?app_nil_r; simpl_state;
      repeat split; do 3 eexists; split; reflexivity.
  - destruct (killTimer st) eqn:Ek; simpl_state;
      rewrite ?lookup_insert_eq, ?app_nil_r; simpl_state;
      repeat split; do 3 eexists; split; reflexivity.
Qed.

(** X3: when the child of the run in flight closes or fails, the executor
    is idle again: the kill timer is cancelled with [clearTimeout], no
    timeout is left pending, so a timeout event can no longer change
    anything, and the next command is accepted. *)
Theorem settled_run_leaves_idle (st : State) (pid t : nat)
    (script : jsstring) (start : Z) (div : nat)
    (outcome : Completion (option Z)) (now : Z) :
  consistent st ->
  InFlight pid t script start div st ->
  let st' := fst (settle pid outcome now st) in
  isRunning st' = false
  /\ currentProcess st' = None
  /\ killTimer st' = None
  /\ frames st' = ∅
  /\ timers st' = []
  /\ effects st' = effects st ++ [ClearTimeout t]
  /\ (forall t', step st' (TimerFired t') = st')
  /\ forall input now',
       falsy (trim input) = false ->
       sudo_test (trim input) = false ->
       snd (runScript input now' SpawnOk st') = Pending.
Proof.
  intros Hc (Hrun & Hcp & Hkt & [n Hf]). cbn zeta.
  destruct (settle_fulfilled toFixed2 st pid _ outcome now Hf)
    as (_ & H2 & H3 & H4 & H5 & _).
  destruct (settle_frame st pid _ outcome now Hf) as (_ & _ & He & Ht & _).
  rewrite Hkt in He, Ht.
  assert (Hfr : frames (fst (settle pid outcome now st)) = ∅).
  { rewrite H5.
    destruct Hc as [(Hidle & _)|(_ & pid' & t' & f' & Hfr & _)]; [congruence|].
    rewrite Hfr in Hf |- *. apply lookup_singleton_Some in Hf as [<- _].
    apply delete_singleton_eq. }
  assert (Hti : timers (fst (settle pid outcome now st)) = []).
  { rewrite Ht.
    destruct Hc as [(Hidle & _)|(_ & pid' & t' & f' & _ & _ & Hkt' & Hti)];
      [congruence|].
    rewrite Hkt in Hkt'. injection Hkt' as <-.
    destruct Hti as [-> | ->]; cbn; [rewrite decide_False by tauto|];
      reflexivity. }
  repeat split; try assumption.
  - intros t'. cbn [Executor.step]. rewrite Hti.
    rewrite decide_False by (apply not_elem_of_nil). reflexivity.
  - intros input now' Hne Hsudo.
    apply (runScript_starts toFixed2 _ input now' H2 Hne Hsudo).
Qed.

Lemma quiet_step_pane st e :
  isRunning st = true -> quiet e ->
  scriptOutput st = [Placeholder] -> commandHistory st = [] ->
  scriptOutput (step st e) = [Placeholder] /\ commandHistory (step st e) = [].
Proof.
  intros Hrun Hq Hp Hh.
  destruct e as [input now env| | |t|pid data|pid data|pid code now|pid err now];
    cbn [Executor.step quiet] in *; try contradiction.
  - rewrite runScript_busy by exact Hrun. auto.
  - unfold stopScript. destruct (currentProcess st), (isRunning st); auto.
  - auto.
  - destruct (decide (t ∈ timers st)); [|auto].
    unfold onTimeout, kill_current, kill, log. simpl_state.
    destruct (currentProcess st); auto.
  - destruct (onData_quiet output_stdout pid data st)
      as (_ & _ & _ & _ & H & _). rewrite H. split; [|exact Hh].
    rewrite (proj1 (onData_pane output_stdout pid data st)). exact Hp.
  - destruct (onData_quiet output_stderr pid data st)
      as (_ & _ & _ & _ & H & _). rewrite H. split; [|exact Hh].
    rewrite (proj1 (onData_pane output_stderr pid data st)). exact Hp.
Qed.

(** X4: clearing the output while a run is in flight detaches the run's
    block from the pane for good.  Whatever the run still prints, and however
    it ends, the pane shows only the placeholder afterwards, while the
    history, emptied by the clearing, ends up with exactly the entry of this
    run, holding its whole output. *)
Theorem clear_during_run_hides_output (st : State) (pid t : nat)
    (script : jsstring) (start : Z) (div : nat) (es : list Event)
    (code : option Z) (now : Z) :
  InFlight pid t script start div st ->
  Forall quiet es ->
  let st1 := step st ClearOutput in
  let st2 := steps st1 es in
  let st3 := step st2 (ProcClose pid code now) in
  scriptOutput st3 = [Placeholder]
  /\ (OutputBlock div ∉ scriptOutput st3)
  /\ (exists verdict b d,
        commandHistory st3
        = [mkHistoryEntry script (children div st2 ++ [verdict]) b d]).
Proof.
  intros Hin Hq. cbn zeta.
  assert (Hin1 : InFlight pid t script start div (step st ClearOutput))
    by (apply inflight_step; [exact Hin | exact I]).
  assert (Hpane : forall s,
            isRunning s = true ->
            scriptOutput s = [Placeholder] -> commandHistory s = [] ->
            scriptOutput (steps s es) = [Placeholder]
            /\ commandHistory (steps s es) = []).
  { clear Hin Hin1. induction Hq as [|e es He _ IH]; intros s Hrun Hp Hh;
      [auto|].
    rewrite steps_cons.
    destruct (quiet_step_pane s e Hrun He Hp Hh) as [Hp' Hh'].
    destruct (quiet_step toFixed2 s e Hrun He) as (Hrun' & _).
    apply IH; assumption. }
  pose proof Hin1 as (Hrun1 & _).
  destruct (Hpane (step st ClearOutput) Hrun1 eq_refl eq_refl) as [Hp2 Hh2].
  pose proof (inflight_steps toFixed2 _ _ _ _ _ _ es Hin1 Hq)
    as (_ & _ & _ & [n Hf]).
  destruct (settle_frame _ pid _ (Normal code) now Hf)
    as (Hs & _ & _ & _ & verdict & b & d & Hh3 & _).
  change (step (steps (step st ClearOutput) es) (ProcClose pid code now))
    with (streams_end pid
            (fst (settle pid (Normal code) now
                    (steps (step st ClearOutput) es)))).
  unfold streams_end. simpl_state. rewrite Hs, Hp2. split; [reflexivity|]. split.
  - intros H. apply list_elem_of_singleton in H. discriminate.
  - exists verdict, b, d. rewrite Hh3, Hh2. reflexivity.
Qed.

(** *** Blocks nobody writes to *)

Lemma runScript_shape st input now env :
  let st' := fst (runScript input now env st) in
  (nextHandle st <= nextHandle st')%nat
  /\ (forall b, (b < nextHandle st)%nat -> blocks st' !! b = blocks st !! b)
  /\ (forall p g, frames st' !! p = Some g ->
        frames st !! p = Some g \/ outputDiv g = nextHandle st)
  /\ lingering st' = lingering st.
Proof.
  cbn zeta. unfold Executor.runScript.
  destruct (falsy (trim input) || isRunning st); [cbn; auto|].
  destruct (sudo_test (trim input)).
  - unfold blocked, remove_placeholder, createBlock, appendMessage,
      appendChild, append_node, children. simpl_state.
    destruct (has_placeholder (scriptOutput st)); simpl_state;
      (split; [lia|]); (split; [|auto]); intros b Hb;
      rewrite !lookup_insert_ne by lia; reflexivity.
  - unfold remove_placeholder, createBlock, append_node, setTimeout,
      try_catch_finally, catch_block, finally_block, clearKillTimer,
      clearTimeout, appendMessage, appendChild, children, log.
    simpl_state.
    destruct env as [|err endTime];
      destruct (has_placeholder (scriptOutput st)); simpl_state;
      try (destruct (killTimer st); simpl_state);
      (split; [lia|]); (split; [intros b Hb;
        rewrite !lookup_insert_ne by lia; reflexivity|]);
      (split; [|reflexivity]);
      intros p g H; auto;
      apply lookup_insert_Some in H; destruct H as [[_ <-]|[_ H]]; auto.
Qed.

(** A chunk leaves the listeners with their blocks. *)
Lemma onData_listeners className pid data st p g :
  frames (onData className pid data st) !! p = Some g
  \/ lingering (onData className pid data st) !! p = Some g ->
  exists f,
    (frames st !! p = Some f \/ lingering st !! p = Some f)
    /\ outputDiv g = outputDiv f.
Proof.
  intros H.
  destruct (onData_cases pid st)
    as [[Hf Hl]|[(f & Hf & G)|[(f & Hf & G)|[(f & Hf & Hl & G)
                                            |(f & Hf & Hl & G)]]]].
  - rewrite onData_no_frame in H by assumption. exists g. auto.
  - rewrite (onData_guarded _ _ _ _ _ Hf G) in H. exists g. auto.
  - destruct (onData_accepted className pid data st f Hf G)
      as (B & _ & _ & Heq).
    cbn zeta in Heq. rewrite Heq in H. clear Heq.
    assert (H' : <[pid := set_outputChars
                             (outputChars f + counted_units data) f]>
                   (frames st) !! p = Some g
                 \/ lingering st !! p = Some g).
    { revert H. unfold kill_current, kill, log.
      destruct (maxOutputChars <? _)%Z; [destruct (currentProcess _)|];
        simpl_state; auto. }
    destruct H' as [H'|H']; [|exists g; auto].
    apply lookup_insert_Some in H' as [[<- <-]|[_ H']];
      [exists f | exists g]; auto.
  - rewrite (onData_lingering_guarded _ _ _ _ _ Hf Hl G) in H.
    exists g. auto.
  - destruct (onData_lingering_accepted className pid data st f Hf Hl G)
      as (B & _ & _ & Heq).
    cbn zeta in Heq. rewrite Heq in H. clear Heq.
    assert (H' : frames st !! p = Some g
                 \/ <[pid := set_outputChars
                                (outputChars f + counted_units data) f]>
                      (lingering st) !! p = Some g).
    { revert H. unfold kill_current, kill, log.
      destruct (maxOutputChars <? _)%Z; [destruct (currentProcess _)|];
        simpl_state; auto. }
    destruct H' as [H'|H']; [exists g; auto|].
    apply lookup_insert_Some in H' as [[<- <-]|[_ H']];
      [exists f | exists g]; auto.
Qed.

(** A chunk changes the block of its listener only. *)
Lemma onData_blocks className pid data st b :
  ~ owned b st ->
  blocks (onData className pid data st) !! b = blocks st !! b.
Proof.
  intros Hown.
  destruct (onData_cases pid st)
    as [[Hf Hl]|[(f & Hf & G)|[(f & Hf & G)|[(f & Hf & Hl & G)
                                            |(f & Hf & Hl & G)]]]].
  - rewrite onData_no_frame by assumption. reflexivity.
  - rewrite (onData_guarded _ _ _ _ _ Hf G). reflexivity.
  - assert (Hne : b <> outputDiv f)
      by (intros ->; apply Hown; exists pid, f; auto).
    destruct (onData_accepted className pid data st f Hf G)
      as (B & _ & HB & ->).
    unfold kill_current, kill, log.
    destruct (maxOutputChars <? _)%Z; [destruct (currentProcess _)|];
      simpl_state; rewrite ?lookup_insert_ne by congruence; auto.
  - rewrite (onData_lingering_guarded _ _ _ _ _ Hf Hl G). reflexivity.
  - assert (Hne : b <> outputDiv f)
      by (intros ->; apply Hown; exists pid, f; auto).
    destruct (onData_lingering_accepted className pid data st f Hf Hl G)
      as (B & _ & HB & ->).
    unfold kill_current, kill, log.
    destruct (maxOutputChars <? _)%Z; [destruct (currentProcess _)|];
      simpl_state; rewrite ?lookup_insert_ne by congruence; auto.
Qed.

(** After ['close'] the listeners of the child are gone; after ['error']
    they linger. *)
Lemma settle_lingering st pid f outcome now :
  frames st !! pid = Some f ->
  lingering (fst (settle pid outcome now st))
  = match outcome with
    | Normal _ => lingering st
    | Throw _ => <[pid := f]> (lingering st)
    end.
Proof.
  intros Hf. settle_tac Hf.
  destruct outcome as [code|err]; simpl_state.
  - destruct (timedOut st), (wasStopped st), code as [c|];
      try destruct (c =? 0)%Z; simpl_state;
      destruct (killTimer st); reflexivity.
  - destruct (killTimer st); reflexivity.
Qed.

Lemma unowned_step st e b :
  (b < nextHandle st)%nat -> ~ owned b st ->
  blocks (step st e) !! b = blocks st !! b
  /\ (b < nextHandle (step st e))%nat
  /\ ~ owned b (step st e).
Proof.
  intros Hb Hown.
  assert (Hdata : forall className pid data,
            blocks (onData className pid data st) !! b = blocks st !! b
            /\ (b < nextHandle (onData className pid data st))%nat
            /\ ~ owned b (onData className pid data st)).
  { intros className pid data.
    split; [apply onData_blocks, Hown|].
    split; [rewrite (proj2 (onData_pane className pid data st)); exact Hb|].
    intros (p & g & Hg & Hdiv).
    destruct (onData_listeners className pid data st p g Hg)
      as (f & Hf & Hsame).
    apply Hown. exists p, f. split; [exact Hf | congruence]. }
  assert (Hsettle : forall pid outcome now,
            blocks (fst (settle pid outcome now st)) !! b = blocks st !! b
            /\ (b < nextHandle (fst (settle pid outcome now st)))%nat
            /\ ~ owned b (fst (settle pid outcome now st))).
  { intros pid outcome now.
    destruct (frames st !! pid) as [f|] eqn:Hf;
      [|unfold Executor.settle; rewrite Hf; auto].
    assert (Hne : b <> outputDiv f)
      by (intros ->; apply Hown; exists pid, f; auto).
    destruct (settle_frame st pid f outcome now Hf)
      as (_ & Hn & _ & _ & verdict & b' & d & _ & Hbl).
    destruct (settle_fulfilled toFixed2 st pid f outcome now Hf)
      as (_ & _ & _ & _ & Hfr & _).
    pose proof (settle_lingering st pid f outcome now Hf) as Hli.
    split; [rewrite Hbl; apply lookup_insert_ne; congruence|].
    split; [rewrite Hn; exact Hb|].
    intros (p & g & Hg & Hdiv). rewrite Hfr, Hli in Hg.
    destruct Hg as [Hg|Hg].
    - apply lookup_delete_Some in Hg as [_ Hg]. apply Hown. exists p, g. auto.
    - destruct outcome as [code|err]; [apply Hown; exists p, g; auto|].
      apply lookup_insert_Some in Hg as [[<- <-]|[_ Hg]];
        [congruence | apply Hown; exists p, g; auto]. }
  destruct e as [input now env| | |t|pid data|pid data|pid code now|pid err now];
    cbn [Executor.step]; try apply Hdata; try apply Hsettle.
  - destruct (runScript_shape st input now env) as (H1 & H2 & H3 & H4).
    split; [apply H2, Hb|]. split; [lia|].
    intros (p & g & Hg & Hdiv). rewrite H4 in Hg. destruct Hg as [Hg|Hg].
    + destruct (H3 p g Hg) as [H|H]; [apply Hown; exists p, g; auto | lia].
    + apply Hown. exists p, g. auto.
  - unfold stopScript. destruct (currentProcess st), (isRunning st); auto.
  - auto.
  - destruct (decide (t ∈ timers st)); [|auto].
    unfold onTimeout, kill_current, kill, log. simpl_state.
    destruct (currentProcess st); auto.
  - destruct (Hsettle pid (Normal code) now) as (H1 & H2 & H3).
    unfold streams_end. simpl_state. split; [exact H1|]. split; [exact H2|].
    intros (p & g & Hg & Hdiv). apply H3. exists p, g. split; [|exact Hdiv].
    simpl_state_in Hg. destruct Hg as [Hg|Hg]; [auto|].
    apply lookup_delete_Some in Hg as [_ Hg]. auto.
Qed.

(** X5: a block that exists and that no installed listener writes to (the
    block of a blocked command, or of a run whose child has closed) never
    changes again, whatever is run, printed, stopped or cleared afterwards,
    and whichever listeners still fire. *)
Theorem finished_output_is_immutable (st : State) (b : nat) (es : list Event) :
  (b < nextHandle st)%nat ->
  ~ owned b st ->
  children b (steps st es) = children b st.
Proof.
  intros Hb Hown. revert st Hb Hown.
  induction es as [|e es IH]; intros st Hb Hown; [reflexivity|].
  rewrite steps_cons.
  destruct (unowned_step st e b Hb Hown) as (H1 & H2 & H3).
  rewrite (IH _ H2 H3). unfold children. rewrite H1. reflexivity.
Qed.

Lemma blocked_effects script st : effects (blocked script st) = effects st.
Proof.
  unfold blocked, remove_placeholder, createBlock, appendMessage, appendChild,
    append_node. simpl_state.
  destruct (has_placeholder (scriptOutput st)); reflexivity.
Qed.

(** X6: blocking is exact.  A non-blank command line submitted to an idle
    executor is handed to [/bin/zsh -c], trimmed and otherwise verbatim, if
    and only if it has no standalone [sudo]; with one, the effect log is
    left as it was. *)
Theorem spawned_iff_no_standalone_sudo (st : State) (input : jsstring)
    (now : Z) :
  isRunning st = false ->
  falsy (trim input) = false ->
  let st' := step st (RunScript input now SpawnOk) in
  (~ standalone_sudo input <->
   effects st'
   = effects st
     ++ [Spawn (lit "/bin/zsh") [lit "-c"; trim input]
           (Some (S (nextHandle st)));
         SetTimeout (S (S (nextHandle st))) timeoutMs])
  /\ (standalone_sudo input <-> effects st' = effects st).
Proof.
  intros Hidle Hne. cbn zeta.
  assert (Hlen : effects st
                 <> effects st
                    ++ [Spawn (lit "/bin/zsh") [lit "-c"; trim input]
                          (Some (S (nextHandle st)));
                        SetTimeout (S (S (nextHandle st))) timeoutMs]).
  { intros H. apply (f_equal (@length Effect)) in H.
    rewrite length_app in H. cbn in H. lia. }
  destruct (sudo_test (trim input)) eqn:Hs.
  - assert (Hst : standalone_sudo input)
      by (apply sudo_test_spec; rewrite <- sudo_test_trim; exact Hs).
    assert (He : effects (step st (RunScript input now SpawnOk)) = effects st).
    { cbn [Executor.step]. unfold Executor.runScript.
      rewrite Hne, Hidle, Hs. cbn [orb fst]. apply blocked_effects. }
    rewrite He. split; split; try tauto; intros H; contradiction.
  - assert (Hst : ~ standalone_sudo input).
    { intros H. apply sudo_test_spec in H. rewrite <- sudo_test_trim in H.
      congruence. }
    destruct (runScript_starts toFixed2 st input now Hidle Hne Hs)
      as (_ & _ & _ & _ & He & _).
    cbn [Executor.step]. rewrite He. split; split; try tauto;
      intros H; symmetry in H; contradiction.
Qed.

(** *** Lines *)

Lemma split_scan_no_LF s : forall cur,
  LF ∉ s -> split_scan cur s = [cur ++ s].
Proof.
  induction s as [|c rest IH]; intros cur H; cbn [split_scan].
  - rewrite app_nil_r. reflexivity.
  - apply not_elem_of_cons in H as [Hc Hrest].
    destruct (N.eqb_spec c LF) as [->|_]; [contradiction|].
    assert (Hkeep : split_scan (cur ++ [c]) rest = [cur ++ c :: rest])
      by (rewrite IH by exact Hrest; rewrite <- app_assoc; reflexivity).
    destruct (c =? CR); [|exact Hkeep].
    destruct rest as [|d rest']; [exact Hkeep|].
    apply not_elem_of_cons in Hrest as [Hd _].
    destruct (N.eqb_spec d LF) as [->|_]; [contradiction | exact Hkeep].
Qed.

Lemma split_scan_pieces n : forall s cur,
  (length s <= n)%nat -> LF ∉ cur ->
  Forall (fun l => LF ∉ l) (split_scan cur s).
Proof.
  induction n as [|n IH]; intros s cur Hn Hcur.
  - destruct s; [|cbn in Hn; lia]. cbn. auto.
  - destruct s as [|c rest]; [cbn; auto|]. cbn [length] in Hn.
    assert (Hnil : LF ∉ ([] : jsstring)) by apply not_elem_of_nil.
    cbn [split_scan].
    destruct (N.eqb_spec c LF) as [->|Hc].
    + constructor; [exact Hcur|]. apply IH; [lia | exact Hnil].
    + assert (Hcur' : LF ∉ cur ++ [c]).
      { rewrite elem_of_app, list_elem_of_singleton. intros [H|H]; auto. }
      assert (Hkeep : Forall (fun l => LF ∉ l) (split_scan (cur ++ [c]) rest))
        by (apply IH; [lia | exact Hcur']).
      destruct (c =? CR); [|exact Hkeep].
      destruct rest as [|d rest']; [exact Hkeep|].
      destruct (d =? LF); [|exact Hkeep].
      constructor; [exact Hcur|].
      apply IH; [cbn [length] in Hn; lia | exact Hnil].
Qed.

Lemma line_elements_no_LF className data :
  LF ∉ data -> data <> [] ->
  line_elements className data
  = [mkElement (lit "output-line " ++ className) data].
Proof.
  intros H Hne. unfold line_elements, split_newlines.
  rewrite split_scan_no_LF by exact H. cbn [app List.filter].
  destruct data; [contradiction | reflexivity].
Qed.

Lemma counted_units_no_LF data :
  LF ∉ data -> counted_units data = Z.of_nat (length data).
Proof.
  intros H. unfold counted_units, split_newlines.
  rewrite split_scan_no_LF by exact H. cbn [app List.filter].
  destruct data; cbn; lia.
Qed.

(** X7: every [div] that [appendLines] adds carries the class of its
    stream, a non-empty text and no line feed; they go after the children the
    block already has.  A chunk without a line feed becomes a single line, an
    empty chunk none. *)
Theorem appended_lines_shape (container : nat) (data className : jsstring)
    (st : State) :
  exists new,
    children container (fst (appendLines container data className st))
    = children container st ++ new
    /\ Forall (fun el =>
                 Executor.className el = lit "output-line " ++ className
                 /\ textContent el <> [] /\ LF ∉ textContent el) new
    /\ (LF ∉ data -> data <> [] ->
        new = [mkElement (lit "output-line " ++ className) data])
    /\ (data = [] -> new = []).
Proof.
  destruct (appendLines_spec container data className st) as (B & -> & Hc & _).
  exists (line_elements className data). split; [exact Hc|]. split; [|split].
  - unfold line_elements, split_newlines.
    pose proof (split_scan_pieces (length data) data [] (le_n _)
                  (not_elem_of_nil _)) as Hp.
    induction Hp as [|l ls Hl _ IH]; cbn [List.filter map]; [constructor|].
    destruct l as [|c l]; cbn [falsy negb]; [exact IH|].
    constructor; [|exact IH]. cbn. repeat split; [discriminate | exact Hl].
  - apply line_elements_no_LF.
  - intros ->. reflexivity.
Qed.

Lemma onData_within className pid data st f :
  frames st !! pid = Some f ->
  guard f st = false ->
  (outputChars f + counted_units data <= maxOutputChars)%Z ->
  let st' := onData className pid data st in
  frames st' !! pid
  = Some (set_outputChars (outputChars f + counted_units data) f)
  /\ children (outputDiv f) st'
     = children (outputDiv f) st ++ line_elements className data
  /\ timedOut st' = timedOut st
  /\ wasStopped st' = wasStopped st.
Proof.
  intros Hf G Hle. cbn zeta.
  destruct (onData_accepted className pid data st f Hf G) as (B & HB & _ & ->).
  cbn [outputChars set_outputChars].
  apply Z.ltb_ge in Hle. rewrite Hle. unfold children. simpl_state.
  rewrite lookup_insert_eq. auto.
Qed.

(** X8: lines are cut at chunk boundaries.  The same text delivered in one
    chunk is one line; delivered in two chunks it is two lines, although no
    line feed separates them. *)
Theorem line_split_across_chunks (st : State) (pid : nat) (f : Frame)
    (className d1 d2 : jsstring) :
  frames st !! pid = Some f ->
  guard f st = false ->
  LF ∉ d1 -> LF ∉ d2 -> d1 <> [] -> d2 <> [] ->
  (outputChars f + Z.of_nat (length d1) + Z.of_nat (length d2)
   <= maxOutputChars)%Z ->
  let line := mkElement (lit "output-line " ++ className) in
  children (outputDiv f)
    (onData className pid d2 (onData className pid d1 st))
  = children (outputDiv f) st ++ [line d1; line d2]
  /\ children (outputDiv f) (onData className pid (d1 ++ d2) st)
     = children (outputDiv f) st ++ [line (d1 ++ d2)].
Proof.
  intros Hf G H1 H2 Hn1 Hn2 Hle. cbn zeta.
  pose proof (counted_units_no_LF d1 H1) as C1.
  pose proof (counted_units_no_LF d2 H2) as C2.
  assert (H12 : LF ∉ d1 ++ d2) by (rewrite elem_of_app; tauto).
  pose proof (counted_units_no_LF (d1 ++ d2) H12) as C12.
  rewrite length_app in C12.
  apply guard_false in G as (Gc & Gt & Gs).
  split.
  - destruct (onData_within className pid d1 st f Hf) as (F1 & K1 & T1 & S1);
      [apply guard_false; auto | lia |].
    destruct (onData_within className pid d2 _ _ F1) as (_ & K2 & _).
    + apply guard_false. cbn [outputChars set_outputChars].
      split; [lia|]. split; congruence.
    + cbn [outputChars set_outputChars]. lia.
    + cbn [outputDiv set_outputChars] in K2. rewrite K2, K1.
      rewrite !line_elements_no_LF by assumption.
      rewrite <- app_assoc. reflexivity.
  - destruct (onData_within className pid (d1 ++ d2) st f Hf) as (_ & K & _);
      [apply guard_false; auto | lia |].
    rewrite K, line_elements_no_LF; [reflexivity | exact H12|].
    destruct d1; [contradiction | discriminate].
Qed.

(** *** What reaches the outside *)

Lemma allowed_effect_mono log more e :
  allowed_effect log e -> allowed_effect (log ++ more) e.
Proof.
  destruct e; cbn; auto. intros [H1 [args H2]]. split; [exact H1|].
  exists args. apply in_or_app. left. exact H2.
Qed.

Lemma spawned_mono pid log more : spawned pid log -> spawned pid (log ++ more).
Proof. intros [args H]. exists args. apply in_or_app. left. exact H. Qed.

Lemma safe_log_extend st st' news :
  safe_log st ->
  effects st' = effects st ++ news ->
  Forall (allowed_effect (effects st ++ news)) news ->
  (forall pid, currentProcess st' = Some pid ->
     currentProcess st = Some pid \/ spawned pid (effects st ++ news)) ->
  safe_log st'.
Proof.
  intros [Hall Hcp] He Hnews Hcp'. unfold safe_log. rewrite He. split.
  - apply Forall_app. split; [|exact Hnews].
    eapply Forall_impl; [exact Hall|]. intros e. apply allowed_effect_mono.
  - intros pid Hp. destruct (Hcp' pid Hp) as [H|H]; [|exact H].
    apply spawned_mono, Hcp, H.
Qed.

Lemma safe_log_kill_current st :
  safe_log st -> safe_log (kill_current st).
Proof.
  intros Hs. unfold kill_current.
  destruct (currentProcess st) as [p|] eqn:Hcp; [|exact Hs].
  apply (safe_log_extend st _ [Kill p SIGTERM] Hs); [reflexivity | |].
  - constructor; [|constructor]. cbn. split; [reflexivity|].
    apply spawned_mono, Hs, Hcp.
  - cbn. auto.
Qed.

Lemma safe_log_same st st' :
  safe_log st -> effects st' = effects st ->
  currentProcess st' = currentProcess st -> safe_log st'.
Proof.
  intros Hs He Hcp.
  apply (safe_log_extend st st' [] Hs).
  - rewrite app_nil_r. exact He.
  - constructor.
  - intros pid H. left. congruence.
Qed.

Lemma safe_log_step st e : safe_log st -> safe_log (step st e).
Proof.
  intros Hs.
  assert (Hdata : forall className pid data,
            safe_log (onData className pid data st)).
  { intros className pid data.
    destruct (onData_cases pid st)
      as [[Hf Hl]|[(f & Hf & G)|[(f & Hf & G)|[(f & Hf & Hl & G)
                                              |(f & Hf & Hl & G)]]]].
    - rewrite onData_no_frame by assumption. exact Hs.
    - rewrite (onData_guarded _ _ _ _ _ Hf G). exact Hs.
    - destruct (onData_accepted className pid data st f Hf G)
        as (B & _ & _ & ->).
      destruct (maxOutputChars <? _)%Z.
      + apply safe_log_kill_current.
        apply (safe_log_same st _ Hs); reflexivity.
      + apply (safe_log_same st _ Hs); reflexivity.
    - rewrite (onData_lingering_guarded _ _ _ _ _ Hf Hl G). exact Hs.
    - destruct (onData_lingering_accepted className pid data st f Hf Hl G)
        as (B & _ & _ & ->).
      destruct (maxOutputChars <? _)%Z.
      + apply safe_log_kill_current.
        apply (safe_log_same st _ Hs); reflexivity.
      + apply (safe_log_same st _ Hs); reflexivity. }
  assert (Hsettle : forall pid outcome now,
            safe_log (fst (settle pid outcome now st))).
  { intros pid outcome now.
    destruct (frames st !! pid) as [f|] eqn:Hf;
      [|unfold Executor.settle; rewrite Hf; exact Hs].
    destruct (settle_frame st pid f outcome now Hf) as (_ & _ & He & _).
    destruct (settle_fulfilled toFixed2 st pid f outcome now Hf)
      as (_ & _ & Hcp & _).
    apply (safe_log_extend st _ _ Hs He).
    - destruct (killTimer st); repeat constructor.
    - intros p Hp. congruence. }
  destruct e as [input now env| | |t|pid data|pid data|pid code now|pid err now];
    cbn [Executor.step]; try apply Hdata; try apply Hsettle.
  - unfold Executor.runScript.
    destruct (falsy (trim input) || isRunning st) eqn:Hg; [exact Hs|].
    apply orb_false_iff in Hg as [Hne Hidle].
    destruct (sudo_test (trim input)) eqn:Hsudo.
    + cbn [fst]. apply (safe_log_same st _ Hs); [apply blocked_effects|].
      unfold blocked, remove_placeholder, createBlock, appendMessage,
        appendChild, append_node. simpl_state.
      destruct (has_placeholder (scriptOutput st)); reflexivity.
    + assert (Hok : allowed_effect []
                      (Spawn (lit "/bin/zsh") [lit "-c"; trim input] None)).
      { cbn. split; [reflexivity|]. exists (trim input).
        split; [reflexivity|]. split.
        - intros E. rewrite E in Hne. discriminate.
        - intros H. apply sudo_test_spec in H. congruence. }
      unfold remove_placeholder, createBlock, append_node, setTimeout,
        try_catch_finally, catch_block, finally_block, clearKillTimer,
        clearTimeout, appendMessage, appendChild, children, log.
      simpl_state.
      destruct env as [|err endTime].
      * eapply (safe_log_extend st _
                  [Spawn (lit "/bin/zsh") [lit "-c"; trim input]
                     (Some (S (nextHandle st)));
                   SetTimeout (S (S (nextHandle st))) timeoutMs] Hs).
        -- destruct (has_placeholder (scriptOutput st)); simpl_state;
             rewrite <- app_assoc; reflexivity.
        -- constructor; [exact Hok|]. constructor; [reflexivity | constructor].
        -- intros p Hp. right.
           assert (p = S (nextHandle st))
             by (destruct (has_placeholder (scriptOutput st));
                 simpl_state_in Hp; congruence).
           subst p. exists [lit "-c"; trim input].
           apply in_or_app. right. left. reflexivity.
      * eapply (safe_log_extend st _
                  ([Spawn (lit "/bin/zsh") [lit "-c"; trim input] None]
                   ++ match killTimer st with
                      | Some t => [ClearTimeout t]
                      | None => []
                      end) Hs).
        -- destruct (has_placeholder (scriptOutput st)); simpl_state;
             destruct (killTimer st); simpl_state;
             rewrite <- ?app_assoc; reflexivity.
        -- constructor; [exact Hok|]. destruct (killTimer st); repeat constructor.
        -- intros p Hp. exfalso.
           destruct (has_placeholder (scriptOutput st)); simpl_state_in Hp;
             destruct (killTimer st); simpl_state_in Hp; discriminate.
  - unfold stopScript. destruct (currentProcess st) as [p|] eqn:Hcp; [|exact Hs].
    destruct (isRunning st); [|exact Hs].
    apply (safe_log_extend st _ [Kill p SIGTERM] Hs); [reflexivity | |].
    + constructor; [|constructor]. cbn. split; [reflexivity|].
      apply spawned_mono, Hs, Hcp.
    + cbn. auto.
  - apply (safe_log_same st _ Hs); reflexivity.
  - destruct (decide (t ∈ timers st)); [|exact Hs].
    unfold onTimeout. apply safe_log_kill_current.
    apply (safe_log_same st _ Hs); reflexivity.
Qed.

Lemma safe_log_steps st es : safe_log st -> safe_log (steps st es).
Proof.
  revert st. induction es as [|e es IH]; intros st H; [exact H|].
  rewrite steps_cons. apply IH, safe_log_step, H.
Qed.

(** X9: the executor only ever runs non-empty commands without a
    standalone [sudo], always as [/bin/zsh -c <command>]; it only ever sends
    [SIGTERM], and only to a child it has spawned; every timeout it arms is
    of 30000 milliseconds.  This holds for the whole effect log after any
    sequence of events. *)
Theorem effect_log_is_safe (es : list Event) (e : Effect) :
  let st := steps fresh es in
  In e (effects st) ->
  match e with
  | Spawn file args _ =>
      file = lit "/bin/zsh"
      /\ exists script,
           args = [lit "-c"; script] /\ script <> []
           /\ sudo_test script = false /\ ~ standalone_sudo script
  | Kill pid signal => signal = SIGTERM /\ spawned pid (effects st)
  | SetTimeout _ ms => ms = 30000%Z
  | ClearTimeout _ => True
  end.
Proof.
  cbn zeta. intros Hin.
  assert (Hs : safe_log (steps fresh es))
    by (apply safe_log_steps; split; [constructor | discriminate]).
  destruct Hs as [Hall _]. rewrite Forall_forall in Hall.
  apply list_elem_of_In in Hin. specialize (Hall e Hin).
  destruct e as [file args child|pid signal|t ms|t]; cbn in Hall |- *; auto.
  destruct Hall as (Hf & script & Ha & Hne & Hno).
  split; [exact Hf|]. exists script. repeat split; auto.
  destruct (sudo_test script) eqn:E; [|reflexivity].
  exfalso. apply Hno, sudo_test_spec, E.
Qed.

(** *** The history *)

Lemma settle_entry st pid f outcome now :
  frames st !! pid = Some f ->
  exists verdict b d,
    commandHistory (fst (settle pid outcome now st))
    = commandHistory st
      ++ [mkHistoryEntry (script f) (children (outputDiv f) st ++ [verdict])
            b d]
    /\ ((className verdict = output_error /\ b = true)
        \/ (className verdict = output_success /\ b = isError_v f)).
Proof.
  intros Hf. settle_tac Hf.
  destruct outcome as [code|err]; simpl_state.
  - destruct (timedOut st), (wasStopped st), code as [c|];
      try destruct (c =? 0)%Z; simpl_state;
      destruct (killTimer st) eqn:Ek; simpl_state;
      rewrite ?lookup_insert_eq; simpl_state;
      do 3 eexists; (split; [reflexivity|]); cbn; auto.
  - destruct (killTimer st) eqn:Ek; simpl_state;
      rewrite ?lookup_insert_eq; simpl_state;
      do 3 eexists; (split; [reflexivity|]); cbn; auto.
Qed.

Lemma well_formed_snoc script out status b d :
  script <> [] -> trimmed script ->
  (className status = output_error /\ b = true)
  \/ (className status = output_success /\ b = false) ->
  well_formed_entry (mkHistoryEntry script (out ++ [status]) b d).
Proof.
  intros Hne Ht Hs. split; [exact Hne|]. split; [exact Ht|].
  exists status. cbn [output isError]. split; [apply last_snoc | exact Hs].
Qed.

Lemma history_step st e :
  clean_frames st ->
  Forall well_formed_entry (commandHistory st) ->
  clean_frames (step st e)
  /\ Forall well_formed_entry (commandHistory (step st e)).
Proof.
  intros Hcl Hwf.
  assert (Hdata : forall className pid data,
            clean_frames (onData className pid data st)
            /\ Forall well_formed_entry
                 (commandHistory (onData className pid data st))).
  { intros className pid data.
    destruct (onData_quiet className pid data st)
      as (_ & _ & _ & _ & Hh & _ & _ & Hs & Hn).
    rewrite Hh. split; [|exact Hwf].
    intros p g Hg. destruct (frames st !! p) as [f|] eqn:Hf.
    - destruct (Hs p f Hf) as [n Hn']. rewrite Hn' in Hg. injection Hg as <-.
      apply (Hcl p f Hf).
    - rewrite (Hn p Hf) in Hg. discriminate. }
  assert (Hsettle : forall pid outcome now,
            clean_frames (fst (settle pid outcome now st))
            /\ Forall well_formed_entry
                 (commandHistory (fst (settle pid outcome now st)))).
  { intros pid outcome now.
    destruct (frames st !! pid) as [f|] eqn:Hf;
      [|unfold Executor.settle; rewrite Hf; auto].
    destruct (settle_fulfilled toFixed2 st pid f outcome now Hf)
      as (_ & _ & _ & _ & Hfr & _).
    destruct (settle_entry st pid f outcome now Hf)
      as (verdict & b & d & Hh & Hv).
    destruct (Hcl pid f Hf) as (He & Hne & Ht).
    split.
    - intros p g Hg. rewrite Hfr in Hg.
      apply lookup_delete_Some in Hg as [_ Hg]. apply (Hcl p g Hg).
    - rewrite Hh. apply Forall_app. split; [exact Hwf|].
      constructor; [|constructor].
      apply well_formed_snoc; auto. rewrite He in Hv. exact Hv. }
  destruct e as [input now env| | |t|pid data|pid data|pid code now|pid err now];
    cbn [Executor.step]; try apply Hdata; try apply Hsettle.
  - unfold Executor.runScript.
    destruct (falsy (trim input) || isRunning st) eqn:Hg; [auto|].
    apply orb_false_iff in Hg as [Hne Hidle].
    assert (Hne' : trim input <> [])
      by (intros E; rewrite E in Hne; discriminate).
    pose proof (trim_trimmed input) as Ht.
    destruct (sudo_test (trim input)) eqn:Hsudo.
    + cbn [fst]. unfold blocked, remove_placeholder, createBlock,
        appendMessage, appendChild, append_node, children. simpl_state.
      split.
      * destruct (has_placeholder (scriptOutput st)); exact Hcl.
      * destruct (has_placeholder (scriptOutput st)); simpl_state;
          rewrite !lookup_insert_eq; simpl_state;
          (apply Forall_app; split; [exact Hwf|]);
          (constructor; [|constructor]);
          apply (well_formed_snoc _ []); auto.
    + unfold remove_placeholder, createBlock, append_node, setTimeout,
        try_catch_finally, catch_block, finally_block, clearKillTimer,
        clearTimeout, appendMessage, appendChild, children, log.
      simpl_state.
      destruct env as [|err endTime].
      * split.
        -- intros p g Hg.
           assert (Hg' : <[S (nextHandle st)
                           := mkFrame (trim input) now false [] 0
                                (nextHandle st)]> (frames st) !! p = Some g)
             by (destruct (has_placeholder (scriptOutput st)); exact Hg).
           apply lookup_insert_Some in Hg' as [[_ <-]|[_ Hg']];
             [cbn; auto | apply (Hcl p g Hg')].
        -- destruct (has_placeholder (scriptOutput st)); exact Hwf.
      * split.
        -- destruct (has_placeholder (scriptOutput st)); simpl_state;
             destruct (killTimer st); exact Hcl.
        -- destruct (has_placeholder (scriptOutput st)); simpl_state;
             destruct (killTimer st); simpl_state;
             rewrite !lookup_insert_eq; simpl_state;
             (apply Forall_app; split; [exact Hwf|]);
             (constructor; [|constructor]);
             apply (well_formed_snoc _ []); auto.
  - unfold stopScript. destruct (currentProcess st), (isRunning st); auto.
  - split; [exact Hcl | constructor].
  - destruct (decide (t ∈ timers st)); [|auto].
    unfold onTimeout, kill_current, kill, log. simpl_state.
    destruct (currentProcess st); auto.
Qed.

Lemma history_steps st es :
  clean_frames st ->
  Forall well_formed_entry (commandHistory st) ->
  clean_frames (steps st es)
  /\ Forall well_formed_entry (commandHistory (steps st es)).
Proof.
  revert st. induction es as [|e es IH]; intros st Hc Hw; [auto|].
  rewrite steps_cons. destruct (history_step st e Hc Hw) as [H1 H2].
  apply IH; assumption.
Qed.

(** X10: after any sequence of events every entry of the history holds a
    command that is not empty and has no whitespace around it, and an output
    that ends with a status line; the entry is flagged as an error exactly if
    that line is an error line. *)
Theorem history_entries_well_formed (es : list Event) (h : HistoryEntry) :
  In h (commandHistory (steps fresh es)) ->
  command h <> []
  /\ trim (command h) = command h
  /\ exists status,
       last (output h) = Some status
       /\ ((className status = output_error /\ isError h = true)
           \/ (className status = output_success /\ isError h = false)).
Proof.
  intros Hin.
  assert (H : clean_frames (steps fresh es)
              /\ Forall well_formed_entry (commandHistory (steps fresh es))).
  { apply history_steps.
    - intros pid f Hf. cbn in Hf. rewrite lookup_empty in Hf. discriminate.
    - constructor. }
  destruct H as [_ H]. rewrite Forall_forall in H.
  apply list_elem_of_In in Hin. destruct (H h Hin) as (H1 & H2 & H3).
  split; [exact H1|]. split; [apply trim_fixed, H2 | exact H3].
Qed.

End MoreProperties.

Import Helpers.

(** ** The text helpers *)

Lemma starts_with_app sub post : starts_with sub (sub ++ post) = true.
Proof.
  induction sub as [|a sub IH]; [reflexivity|].
  cbn. rewrite N.eqb_refl. exact IH.
Qed.

Lemma includes_app sub pre post :
  includes sub (pre ++ sub ++ post) = true.
Proof.
  induction pre as [|c pre IH]; cbn [app].
  - destruct (sub ++ post) eqn:E; cbn [includes];
      rewrite <- E, starts_with_app; reflexivity.
  - cbn [includes]. rewrite IH. apply orb_true_r.
Qed.

(** X11: [truncateText] returns a value that fits as it is, and otherwise
    the first [maxLength - 3] code units followed by three dots.  For a limit
    of 3 or more the result never exceeds the limit; for a smaller limit a
    value that does not fit becomes the three dots alone, which is longer
    than the limit. *)
Theorem truncateText_bound (value : jsstring) (maxLength : Z) :
  let result := truncateText value maxLength in
  (Z.of_nat (length result) <= Z.max maxLength 3)%Z
  /\ ((3 <= maxLength)%Z -> (Z.of_nat (length result) <= maxLength)%Z)
  /\ ((Z.of_nat (length value) <= maxLength)%Z -> result = value)
  /\ ((maxLength < Z.of_nat (length value))%Z ->
      result = take (Z.to_nat (maxLength - 3)) value ++ lit "..."
      /\ Z.of_nat (length result) = Z.max maxLength 3)
  /\ ((maxLength < 3)%Z -> (maxLength < Z.of_nat (length value))%Z ->
      result = lit "...").
Proof.
  cbn zeta. unfold truncateText.
  destruct (Z.leb_spec (Z.of_nat (length value)) maxLength) as [Hle|Hgt].
  - repeat split; try lia; auto.
  - assert (Hlen : length (take (Z.to_nat (Z.max (maxLength - 3) 0)) value
                           ++ lit "...")
                   = (Z.to_nat (Z.max (maxLength - 3) 0) + 3)%nat).
    { rewrite length_app, length_take. cbn [length lit]. cbn. lia. }
    assert (Hcut : Z.to_nat (Z.max (maxLength - 3) 0)
                   = Z.to_nat (maxLength - 3)) by lia.
    repeat split; try lia.
    + rewrite Hcut. reflexivity.
    + intros Hsmall _. replace (Z.to_nat (Z.max (maxLength - 3) 0)) with 0%nat
        by lia. reflexivity.
Qed.

Lemma maskApiKey_short key : (length key <= 8)%nat -> maskApiKey key = key.
Proof.
  intros H. unfold maskApiKey. apply Nat.leb_le in H. rewrite H. reflexivity.
Qed.

Lemma maskApiKey_long key :
  (8 < length key)%nat ->
  maskApiKey key = take 4 key ++ lit "..." ++ drop (length key - 4) key
  /\ length (maskApiKey key) = 11%nat
  /\ take 4 (maskApiKey key) = take 4 key
  /\ drop 7 (maskApiKey key) = drop (length key - 4) key
  /\ includes (lit "...") (maskApiKey key) = true.
Proof.
  intros H. unfold maskApiKey.
  destruct (Nat.leb_spec (length key) 8) as [?|_]; [lia|].
  assert (H4 : length (take 4 key) = 4%nat) by (rewrite length_take; lia).
  assert (Hd : length (drop (length key - 4) key) = 4%nat)
    by (rewrite length_drop; lia).
  split; [reflexivity|]. split; [|split; [|split]].
  - rewrite !length_app, H4, Hd. reflexivity.
  - rewrite take_app_le by lia. rewrite take_ge by lia. reflexivity.
  - rewrite drop_app_ge by lia. rewrite H4.
    change (7 - 4)%nat with 3%nat. reflexivity.
  - apply includes_app.
Qed.

(** X12: [maskApiKey] leaves a key of up to 8 code units as it is and turns
    a longer one into its first four and last four code units around three
    dots: 11 code units that contain [...].  Masking a masked key changes
    nothing. *)
Theorem maskApiKey_shape (key : jsstring) :
  maskApiKey (maskApiKey key) = maskApiKey key
  /\ ((length key <= 8)%nat -> maskApiKey key = key)
  /\ ((8 < length key)%nat ->
      length (maskApiKey key) = 11%nat
      /\ take 4 (maskApiKey key) = take 4 key
      /\ drop 7 (maskApiKey key) = drop (length key - 4) key
      /\ includes (lit "...") (maskApiKey key) = true).
Proof.
  split; [|split].
  - destruct (Nat.leb_spec (length key) 8) as [Hle|Hgt].
    + rewrite !(maskApiKey_short key Hle). reflexivity.
    + destruct (maskApiKey_long key Hgt) as (E & L & T & D & _).
      unfold maskApiKey at 1. rewrite L. cbn [Nat.leb].
      rewrite T. change (11 - 4)%nat with 7%nat. rewrite D. symmetry. exact E.
  - apply maskApiKey_short.
  - intros H. destruct (maskApiKey_long key H) as (_ & L & T & D & I).
    auto.
Qed.

Lemma maskApiKey_trimmed key : trimmed key -> trimmed (maskApiKey key).
Proof.
  intros [Hh Hl]. unfold maskApiKey.
  destruct (Nat.leb_spec (length key) 8) as [_|Hgt]; [split; assumption|].
  split; intros c Hc.
  - apply Hh. destruct key as [|a key]; [cbn in Hgt; lia|]. exact Hc.
  - apply Hl. rewrite !app_assoc, last_app in Hc.
    rewrite <- (take_drop (length key - 4) key), last_app.
    destruct (last (drop (length key - 4) key)) eqn:E; [exact Hc|].
    apply last_None in E. apply (f_equal (@length N)) in E.
    rewrite length_drop in E. cbn in E. lia.
Qed.

Lemma saveApiKey_masked key throws st :
  key <> [] -> trimmed key -> inputValue st = maskApiKey key ->
  stored (saveApiKey throws st) = stored st
  \/ stored (saveApiKey throws st) = Some key.
Proof.
  intros Hne Ht Hin. unfold saveApiKey. rewrite Hin.
  rewrite (trim_fixed _ (maskApiKey_trimmed key Ht)).
  destruct (falsy (maskApiKey key)); [left; reflexivity|].
  destruct (includes (lit "...") (maskApiKey key)) eqn:Hinc;
    [left; reflexivity|].
  destruct throws; [left; reflexivity|].
  right. cbn. f_equal.
  destruct (Nat.leb_spec (length key) 8) as [Hle|Hgt].
  - apply maskApiKey_short. exact Hle.
  - destruct (maskApiKey_long key Hgt) as (_ & _ & _ & _ & H). congruence.
Qed.

(** X13: [saveApiKey] never stores a masked key.  It either leaves the
    stored key alone or stores the trimmed text of the field, which then is
    not empty and does not contain [...], and shows its mask.  Saving again
    after a successful save stores nothing new, and so does saving a field
    that shows the mask of the stored key. *)
Theorem saveApiKey_storage :
  (forall throws st,
     let key := trim (inputValue st) in
     let st' := saveApiKey throws st in
     stored st' = stored st
     \/ (throws = false /\ stored st' = Some key /\ key <> []
         /\ includes (lit "...") key = false
         /\ inputValue st' = maskApiKey key))
  /\ (forall throws st,
        stored (saveApiKey throws (saveApiKey false st))
        = stored (saveApiKey false st))
  /\ (forall key throws st,
        stored st = Some key -> key <> [] -> trimmed key ->
        inputValue st = maskApiKey key ->
        stored (saveApiKey throws st) = Some key).
Proof.
  split; [|split].
  - intros throws st. cbn zeta. unfold saveApiKey.
    destruct (trim (inputValue st)) as [|c key] eqn:E; [left; reflexivity|].
    cbn [falsy].
    destruct (includes (lit "...") (c :: key)) eqn:Hinc; [left; reflexivity|].
    destruct throws; [left; reflexivity|].
    right. cbn [stored inputValue updateApiKeyStatus]. repeat split; auto; try discriminate.
  - intros throws st.
    destruct (trim (inputValue st)) as [|c key] eqn:E.
    + unfold saveApiKey at 2 3. rewrite E. cbn [falsy].
      unfold saveApiKey, alert. cbn [inputValue]. rewrite E. reflexivity.
    + destruct (includes (lit "...") (c :: key)) eqn:Hinc.
      * unfold saveApiKey at 2 3. rewrite E, Hinc. cbn [falsy].
        unfold saveApiKey, updateApiKeyStatus. cbn [inputValue].
        rewrite E, Hinc. reflexivity.
      * assert (Ht : trimmed (c :: key)) by (rewrite <- E; apply trim_trimmed).
        assert (E1 : stored (saveApiKey false st) = Some (c :: key))
          by (unfold saveApiKey; rewrite E, Hinc; reflexivity).
        assert (E2 : inputValue (saveApiKey false st) = maskApiKey (c :: key))
          by (unfold saveApiKey; rewrite E, Hinc; reflexivity).
        destruct (saveApiKey_masked (c :: key) throws (saveApiKey false st)
                    ltac:(discriminate) Ht E2) as [H|H].
        -- exact H.
        -- rewrite H, E1. reflexivity.
  - intros key throws st Hs Hne Ht Hin.
    destruct (saveApiKey_masked key throws st Hne Ht Hin) as [H|H].
    + rewrite H. exact Hs.
    + exact H.
Qed.

(** *** Recent prompts *)

Lemma jsstring_eqb_spec a b : jsstring_eqb a b = true <-> a = b.
Proof. unfold jsstring_eqb. apply bool_decide_eq_true. Qed.

Lemma NoDup_filter_take (P : jsstring -> bool) n l :
  List.NoDup l -> List.NoDup (take n (List.filter P l)).
Proof.
  intros H. assert (Hf : List.NoDup (List.filter P l))
    by (apply List.NoDup_filter; exact H).
  revert n. induction Hf as [|x xs Hx _ IH]; intros [|n]; cbn;
    try constructor.
  - intros Hin. apply Hx. apply list_elem_of_In.
    apply list_elem_of_In in Hin. exact (subseteq_take n xs x Hin).
  - apply IH.
Qed.

(** X14: after [addToRecentPrompts] the new prompt comes first and occurs
    once, the list has at most 20 entries whatever its length was, the
    earlier prompts follow in their old order, and a list without
    repetitions stays without.  The select shows the placeholder option and
    then one option per prompt, with a text of at most 63 code units; unless
    [setItem] threw, the stored array is the list. *)
Theorem recent_prompts_after_add (prompt : jsstring) (throws : bool)
    (st : PromptState) :
  let st' := addToRecentPrompts prompt throws st in
  let others :=
    List.filter (fun p => negb (jsstring_eqb p prompt)) (recentPrompts st) in
  recentPrompts st' = prompt :: take 19 others
  /\ ~ In prompt (take 19 others)
  /\ (length (recentPrompts st') <= 20)%nat
  /\ (List.NoDup (recentPrompts st) -> List.NoDup (recentPrompts st'))
  /\ map fst (options st') = [] :: recentPrompts st'
  /\ Forall (fun o => (length (snd o) <= 63)%nat) (tail (options st'))
  /\ (throws = false -> storedPrompts st' = Some (recentPrompts st')).
Proof.
  cbn zeta.
  set (others :=
         List.filter (fun p => negb (jsstring_eqb p prompt)) (recentPrompts st)).
  assert (Hrp : recentPrompts (addToRecentPrompts prompt throws st)
                = prompt :: take 19 others).
  { unfold addToRecentPrompts, updateRecentPromptsUI, saveRecentPrompts.
    fold others. destruct throws; cbn [recentPrompts];
      unfold maxRecentPrompts;
      destruct (Nat.ltb_spec 20 (length (prompt :: others))) as [H|H];
      try reflexivity; cbn [length] in H;
      rewrite (take_ge others 19) by lia; reflexivity. }
  assert (Hnot : ~ In prompt (take 19 others)).
  { intros Hin. apply list_elem_of_In in Hin.
    apply (subseteq_take 19 others) in Hin.
    apply list_elem_of_In in Hin. unfold others in Hin.
    apply filter_In in Hin as [_ Hin]. apply negb_true_iff in Hin.
    assert (jsstring_eqb prompt prompt = true) by (apply jsstring_eqb_spec; auto).
    congruence. }
  split; [exact Hrp|]. split; [exact Hnot|]. split; [|split; [|split; [|split]]].
  - rewrite Hrp. cbn [length]. rewrite length_take. lia.
  - intros Hnd. rewrite Hrp. constructor; [exact Hnot|].
    apply NoDup_filter_take. exact Hnd.
  - unfold addToRecentPrompts, updateRecentPromptsUI at 1. cbn [options map fst].
    f_equal. rewrite map_map. cbn [fst]. rewrite map_id. reflexivity.
  - unfold addToRecentPrompts, updateRecentPromptsUI at 1. cbn [options tail].
    apply Forall_forall. intros o Ho. apply list_elem_of_In in Ho.
    apply in_map_iff in Ho as (p & <- & _). cbn [snd].
    destruct (Nat.ltb_spec 60 (length p)) as [H|H].
    + rewrite length_app, length_take.
      change (length (lit "...")) with 3%nat. lia.
    + lia.
  - intros ->. unfold addToRecentPrompts, updateRecentPromptsUI,
      saveRecentPrompts. reflexivity.
Qed.

Import Tabs.

(** ** The tab bar *)

Lemma classList_remove_not_in token classes :
  ~ In token (classList_remove token classes).
Proof.
  unfold classList_remove. intros H. apply filter_In in H as [_ H].
  apply negb_true_iff in H.
  assert (jsstring_eqb token token = true) by (apply bool_decide_eq_true; auto).
  congruence.
Qed.

Lemma classList_remove_fixed token classes :
  ~ In token classes -> classList_remove token classes = classes.
Proof.
  unfold classList_remove. induction classes as [|c cs IH];
    cbn [In List.filter]; [reflexivity|].
  intros H. destruct (jsstring_eqb c token) eqn:E.
  - apply bool_decide_eq_true in E. tauto.
  - cbn [negb]. rewrite IH by tauto. reflexivity.
Qed.

Lemma classList_add_absent token classes :
  ~ In token classes -> classList_add token classes = classes ++ [token].
Proof.
  unfold classList_add. intros H.
  destruct (existsb (fun c => jsstring_eqb c token) classes) eqn:E;
    [|reflexivity].
  apply existsb_exists in E as (c & Hc & E).
  apply bool_decide_eq_true in E. subst c. contradiction.
Qed.

Lemma switch_classes token classes (on : bool) :
  let classes' :=
    if on then classList_add token (classList_remove token classes)
    else classList_remove token classes in
  (In token classes' <-> on = true)
  /\ classList_remove token classes' = classList_remove token classes.
Proof.
  cbn zeta. pose proof (classList_remove_not_in token classes) as Hno.
  destruct on.
  - rewrite (classList_add_absent _ _ Hno). split.
    + split; [reflexivity|]. intros _. apply in_or_app. right. left. reflexivity.
    + unfold classList_remove at 1. rewrite List.filter_app.
      fold (classList_remove token (classList_remove token classes)).
      rewrite (classList_remove_fixed _ _ Hno). cbn [List.filter].
      assert (E : jsstring_eqb token token = true)
        by (apply bool_decide_eq_true; auto).
      rewrite E. cbn [negb]. apply app_nil_r.
  - split; [split; [contradiction | discriminate]|].
    apply classList_remove_fixed, Hno.
Qed.

(** X15: after [switchTab] a button carries the class [active] exactly if
    its [data-tab] is the given name, and a content exactly if its id is the
    name followed by [-tab]; every other class stays, in its place.  Of two
    switches in a row only the second one counts. *)
Theorem switchTab_activates_exactly (tabName : option jsstring) (p : Page) :
  Forall2 (fun b b' =>
             dataTab b' = dataTab b
             /\ (In active (btnClasses b') <-> dataTab b = tabName)
             /\ classList_remove active (btnClasses b')
                = classList_remove active (btnClasses b))
    (tabBtns p) (tabBtns (switchTab tabName p))
  /\ Forall2 (fun c c' =>
                contentId c' = contentId c
                /\ (In active (contentClasses c')
                    <-> contentId c = name_text tabName ++ lit "-tab")
                /\ classList_remove active (contentClasses c')
                   = classList_remove active (contentClasses c))
       (tabContents p) (tabContents (switchTab tabName p))
  /\ forall other, switchTab tabName (switchTab other p) = switchTab tabName p.
Proof.
  assert (Hname : forall a b, same_name a b = true <-> a = b).
  { intros [a|] [b|]; cbn; try (split; [discriminate | congruence]);
      try tauto.
    unfold jsstring_eqb. rewrite bool_decide_eq_true.
    split; [intros ->; reflexivity | intros [= ->]; reflexivity]. }
  split; [|split].
  - cbn [switchTab tabBtns]. induction (tabBtns p) as [|b bs IH];
      cbn [map]; constructor; [|exact IH].
    cbn [dataTab btnClasses].
    destruct (switch_classes active (btnClasses b)
                (same_name (dataTab b) tabName)) as [H1 H2].
    cbn zeta in H1, H2. rewrite H1, Hname. auto.
  - cbn [switchTab tabContents]. induction (tabContents p) as [|c cs IH];
      cbn [map]; constructor; [|exact IH].
    cbn [contentId contentClasses].
    destruct (switch_classes active (contentClasses c)
                (jsstring_eqb (contentId c) (name_text tabName ++ lit "-tab")))
      as [H1 H2].
    cbn zeta in H1, H2. rewrite H1. unfold jsstring_eqb.
    rewrite bool_decide_eq_true. auto.
  - intros other. unfold switchTab. cbn [tabBtns tabContents].
    rewrite !map_map. f_equal; apply map_ext; intros x;
      cbn [dataTab btnClasses contentId contentClasses]; f_equal.
    + destruct (switch_classes active (btnClasses x)
                  (same_name (dataTab x) other)) as [_ H2].
      cbn zeta in H2. rewrite H2. reflexivity.
    + destruct (switch_classes active (contentClasses x)
                  (jsstring_eqb (contentId x) (name_text other ++ lit "-tab")))
        as [_ H2].
      cbn zeta in H2. rewrite H2. reflexivity.
Qed.

(** ** The todo list *)

Module TodoProps.
Import Todo.

Lemma increasing_below_weaken b b' l :
  (b <= b')%Z -> increasing_below b l -> increasing_below b' l.
Proof.
  intros Hb. induction l as [|x l IH]; cbn; [auto|].
  intros (H1 & H2 & H3). repeat split; [lia | exact H2 | auto].
Qed.

Lemma increasing_below_snoc b l :
  increasing_below b l -> increasing_below (b + 1) (l ++ [b]).
Proof.
  induction l as [|x l IH]; cbn.
  - intros _. repeat split; [lia | constructor].
  - intros (H1 & H2 & H3). split; [lia|]. split; [|auto].
    apply Forall_app. split; [exact H2|]. constructor; [exact H1 | constructor].
Qed.

Lemma increasing_below_remove b l1 x l2 :
  increasing_below b (l1 ++ x :: l2) -> increasing_below b (l1 ++ l2).
Proof.
  induction l1 as [|y l1 IH]; cbn.
  - tauto.
  - intros (H1 & H2 & H3). split; [exact H1|]. split; [|auto].
    apply Forall_app in H2 as [Ha Hb]. apply Forall_app.
    split; [exact Ha|]. inversion Hb; assumption.
Qed.

Lemma increasing_below_bound b l :
  increasing_below b l -> Forall (fun y => (y < b)%Z) l.
Proof.
  induction l as [|x l IH]; cbn; [constructor|].
  intros (H1 & _ & H3). constructor; auto.
Qed.

Lemma increasing_below_NoDup b l : increasing_below b l -> List.NoDup l.
Proof.
  induction l as [|x l IH]; cbn; [constructor|].
  intros (_ & H2 & H3). constructor; [|auto].
  intros Hin. rewrite Forall_forall in H2. apply list_elem_of_In in Hin.
  specialize (H2 x Hin). lia.
Qed.

Lemma log_lines_fields (f : Task -> jsstring) l a :
  tasks (fold_left (fun app task => log (f task) app) l a) = tasks a
  /\ nextId (fold_left (fun app task => log (f task) app) l a) = nextId a
  /\ console (fold_left (fun app task => log (f task) app) l a)
     = console a ++ map f l.
Proof.
  revert a. induction l as [|x l IH]; intros a; cbn [fold_left map].
  - rewrite app_nil_r. auto.
  - destruct (IH (log (f x) a)) as (H1 & H2 & H3).
    rewrite H1, H2, H3. cbn [log tasks nextId console].
    rewrite <- app_assoc. auto.
Qed.

Lemma listTasks_fields app :
  tasks (listTasks app) = tasks app /\ nextId (listTasks app) = nextId app.
Proof.
  unfold listTasks. destruct (tasks app) as [|t ts] eqn:E; [auto|].
  destruct (log_lines_fields task_line (t :: ts)
              (log (lit "-----------") (log (LF :: lit "Your Tasks:") app)))
    as (H1 & H2 & _).
  rewrite H1, H2. auto.
Qed.

Lemma complete_first_spec n ts :
  match complete_first n ts with
  | Some (t, ts') =>
      exists l1 l2,
        ts = l1 ++ t :: l2
        /\ ts' = l1 ++ mkTask (id t) (description t) true :: l2
        /\ id_is n t = true
        /\ Forall (fun u => id_is n u = false) l1
  | None => Forall (fun u => id_is n u = false) ts
  end.
Proof.
  induction ts as [|t ts IH]; cbn [complete_first]; [constructor|].
  destruct (id_is n t) eqn:E.
  - exists [], ts. repeat split; auto.
  - destruct (complete_first n ts) as [[found ts']|].
    + destruct IH as (l1 & l2 & -> & -> & H1 & H2).
      exists (t :: l1), l2. repeat split; auto.
    + constructor; assumption.
Qed.

Lemma findIndex_spec n ts :
  match findIndex n ts with
  | Some i =>
      exists l1 t l2,
        ts = l1 ++ t :: l2 /\ length l1 = i /\ id_is n t = true
        /\ Forall (fun u => id_is n u = false) l1
  | None => Forall (fun u => id_is n u = false) ts
  end.
Proof.
  induction ts as [|t ts IH]; cbn [findIndex]; [constructor|].
  destruct (id_is n t) eqn:E.
  - exists [], t, ts. repeat split; auto.
  - destruct (findIndex n ts) as [i|]; cbn [option_map].
    + destruct IH as (l1 & u & l2 & -> & <- & H1 & H2).
      exists (t :: l1), u, l2. repeat split; auto.
    + constructor; assumption.
Qed.

Lemma deleteTask_spec n app :
  (exists l1 t l2,
     tasks app = l1 ++ t :: l2 /\ id_is n t = true
     /\ Forall (fun u => id_is n u = false) l1
     /\ deleteTask n app
        = log ([0xD83D; 0xDDD1; 0xFE0F] ++ lit "  Deleted: "
               ++ quoted (description t))
            {| tasks := l1 ++ l2; nextId := nextId app;
               console := console app |})
  \/ (Forall (fun u => id_is n u = false) (tasks app)
      /\ deleteTask n app = log not_found app).
Proof.
  unfold deleteTask. pose proof (findIndex_spec n (tasks app)) as H.
  destruct (findIndex n (tasks app)) as [i|]; [|right; auto].
  destruct H as (l1 & t & l2 & E & <- & H1 & H2). left.
  exists l1, t, l2. repeat split; auto. rewrite E.
  rewrite list_lookup_middle by reflexivity.
  rewrite take_app_length.
  replace (drop (S (length l1)) (l1 ++ t :: l2)) with l2; [reflexivity|].
  rewrite (cons_middle t l1 l2), app_assoc.
  replace (S (length l1)) with (length (l1 ++ [t]))
    by (rewrite length_app; cbn; lia).
  rewrite drop_app_length. reflexivity.
Qed.

Lemma increment_bounds n : (n <= increment n <= n + 1)%Z.
Proof. unfold increment. destruct (n <? exact_limit)%Z; lia. Qed.

Lemma increment_exact n :
  (n < exact_limit)%Z -> increment n = (n + 1)%Z.
Proof.
  intros H. unfold increment.
  destruct (Z.ltb_spec n exact_limit); [reflexivity | lia].
Qed.

Lemma call_ids app c :
  (nextId app <= nextId (call app c) <= nextId app + 1)%Z
  /\ forall z, In z (ids (call app c)) ->
       In z (ids app) \/ (nextId app <= z)%Z.
Proof.
  destruct c as [d| |n|n]; cbn [call].
  - unfold addTask, ids. cbn [tasks nextId log].
    rewrite map_app. cbn [map id]. split; [apply increment_bounds|].
    intros z Hz. apply in_app_or in Hz as [Hz|[<-|[]]]; [auto | right; lia].
  - destruct (listTasks_fields app) as [H1 H2]. unfold ids.
    rewrite H1, H2. split; [lia | auto].
  - unfold completeTask. pose proof (complete_first_spec n (tasks app)) as H.
    destruct (complete_first n (tasks app)) as [[t ts']|].
    + destruct H as (l1 & l2 & E & -> & _).
      assert (Hids : ids (log (0x2713 :: lit " Completed: "
                                 ++ quoted (description t))
                            {| tasks := l1 ++ mkTask (id t) (description t) true
                                          :: l2;
                               nextId := nextId app;
                               console := console app |})
                     = ids app).
      { unfold ids. cbn [tasks log]. rewrite E, !map_app. reflexivity. }
      rewrite Hids. cbn [nextId log]. split; [lia | auto].
    + cbn [nextId log]. split; [lia | auto].
  - destruct (deleteTask_spec n app)
      as [(l1 & t & l2 & E & _ & _ & ->)|[_ ->]].
    + unfold ids in *. cbn [tasks nextId log].
      split; [lia|]. intros z Hz. left. rewrite E, map_app. cbn [map].
      rewrite map_app in Hz.
      apply in_app_or in Hz as [Hz|Hz]; apply in_or_app; [left | right; right];
        exact Hz.
    + cbn [nextId log]. split; [lia | auto].
Qed.

Lemma calls_ids app cs :
  (nextId app <= nextId (calls app cs)
   <= nextId app + Z.of_nat (length cs))%Z
  /\ forall z, In z (ids (calls app cs)) ->
       In z (ids app) \/ (nextId app <= z)%Z.
Proof.
  revert app. induction cs as [|c cs IH]; intros app.
  - cbn. split; [lia | auto].
  - change (calls app (c :: cs)) with (calls (call app c) cs).
    destruct (call_ids app c) as (H1 & H2).
    destruct (IH (call app c)) as (I1 & I2).
    split; [cbn [length]; lia|].
    intros z Hz. destruct (I2 z Hz) as [H|H]; [|right; lia].
    destruct (H2 z H) as [H'|H']; auto.
Qed.

Lemma call_invariant app c :
  (nextId app < exact_limit)%Z ->
  increasing_below (nextId app) (ids app) ->
  increasing_below (nextId (call app c)) (ids (call app c)).
Proof.
  intros Hlim Hinv. destruct c as [d| |n|n]; cbn [call].
  - unfold addTask, ids. cbn [tasks nextId log].
    rewrite map_app, (increment_exact _ Hlim). cbn [map id].
    apply increasing_below_snoc. exact Hinv.
  - destruct (listTasks_fields app) as [H1 H2]. unfold ids.
    rewrite H1, H2. exact Hinv.
  - unfold completeTask. pose proof (complete_first_spec n (tasks app)) as H.
    destruct (complete_first n (tasks app)) as [[t ts']|]; [|exact Hinv].
    destruct H as (l1 & l2 & E & -> & _).
    unfold ids in *. cbn [tasks nextId log]. rewrite E in Hinv.
    rewrite map_app in *. exact Hinv.
  - destruct (deleteTask_spec n app)
      as [(l1 & t & l2 & E & _ & _ & ->)|[_ ->]]; [|exact Hinv].
    unfold ids in *. cbn [tasks nextId log]. rewrite E in Hinv.
    rewrite map_app in *. cbn [map] in Hinv.
    apply (increasing_below_remove _ _ _ _ Hinv).
Qed.

Lemma calls_invariant app cs :
  (nextId app + Z.of_nat (length cs) <= exact_limit)%Z ->
  increasing_below (nextId app) (ids app) ->
  increasing_below (nextId (calls app cs)) (ids (calls app cs)).
Proof.
  revert app. induction cs as [|c cs IH]; intros app Hlim Hinv; [exact Hinv|].
  change (calls app (c :: cs)) with (calls (call app c) cs).
  cbn [length] in Hlim. destruct (call_ids app c) as (H1 & _).
  apply IH; [lia|]. apply call_invariant; [lia | exact Hinv].
Qed.

(** Once [nextId] has reached [2 ^ 53] it stays there, and two tasks added
    then get the same id: the bound on the number of calls in the theorems
    below is needed. *)
Lemma addTask_at_limit d1 d2 a :
  nextId a = exact_limit ->
  ids (addTask d2 (addTask d1 a)) = ids a ++ [exact_limit; exact_limit].
Proof.
  intros H. unfold addTask, ids. cbn [tasks nextId log].
  rewrite !map_app, <- app_assoc. cbn [map id app]. rewrite H. reflexivity.
Qed.

(** X16: as long as fewer than [2 ^ 53] methods have been called, in
    whatever order, the ids of the tasks increase along the list, starting
    from 1, and stay below [nextId]: no two tasks share an id, and the id the
    next task gets is one no task has. *)
Theorem todo_ids_increasing (cs : list Call) :
  (Z.of_nat (length cs) < exact_limit)%Z ->
  let app := calls initial cs in
  increasing_below (nextId app) (ids app)
  /\ List.NoDup (ids app)
  /\ Forall (fun z => (1 <= z < nextId app)%Z) (ids app)
  /\ forall d, ids (addTask d app) = ids app ++ [nextId app]
               /\ ~ In (nextId app) (ids app).
Proof.
  intros Hlen. cbn zeta.
  assert (H1 : increasing_below (nextId (calls initial cs))
                 (ids (calls initial cs))).
  { apply calls_invariant; [cbn [initial nextId]; lia | exact I]. }
  destruct (calls_ids initial cs) as (_ & H3).
  split; [exact H1|]. split; [exact (increasing_below_NoDup _ _ H1)|].
  pose proof (increasing_below_bound _ _ H1) as Hb.
  split.
  - apply Forall_forall. intros z Hz. rewrite Forall_forall in Hb.
    specialize (Hb z Hz). apply list_elem_of_In in Hz.
    destruct (H3 z Hz) as [[]|H]. cbn in H. lia.
  - intros d. split.
    + unfold addTask, ids. cbn [tasks log]. rewrite map_app. reflexivity.
    + intros Hin. rewrite Forall_forall in Hb. apply list_elem_of_In in Hin.
      specialize (Hb _ Hin). lia.
Qed.

Lemma id_is_false_ids z l :
  Forall (fun u => id_is (Int z) u = false) l <-> ~ In z (map id l).
Proof.
  induction l as [|t l IH]; cbn [map In id_is].
  - split; [tauto | constructor].
  - rewrite Forall_cons, IH. cbn [id_is]. rewrite Z.eqb_neq. tauto.
Qed.

(** X17: after fewer than [2 ^ 53] calls, [deleteTask] with the id of a task
    removes that task and no other, and the id never shows up again,
    whatever is called afterwards and however often.  With an id no task
    has, or with [NaN], it leaves the tasks alone and reports that the task
    was not found. *)
Theorem deleteTask_removes_for_good (cs : list Call) (z : Z) :
  (Z.of_nat (length cs) < exact_limit)%Z ->
  let app := calls initial cs in
  (In z (ids app) ->
   let app' := deleteTask (Int z) app in
   tasks app' = List.filter (fun t => negb (id t =? z)%Z) (tasks app)
   /\ S (length (tasks app')) = length (tasks app)
   /\ nextId app' = nextId app
   /\ forall cs', ~ In z (ids (calls app' cs')))
  /\ (~ In z (ids app) ->
      deleteTask (Int z) app = log not_found app)
  /\ deleteTask NaN app = log not_found app.
Proof.
  intros Hlen. cbn zeta. set (app := calls initial cs).
  assert (Hinv : increasing_below (nextId app) (ids app)).
  { apply calls_invariant; [cbn [initial nextId]; lia | exact I]. }
  split; [|split].
  - intros Hin.
    destruct (deleteTask_spec (Int z) app)
      as [(l1 & t & l2 & E & Ht & H1 & ->)|[Hnone _]];
      [|apply id_is_false_ids in Hnone; contradiction].
    cbn [id_is] in Ht. apply Z.eqb_eq in Ht.
    pose proof (increasing_below_NoDup _ _ Hinv) as Hnd.
    unfold ids in Hnd, Hinv. rewrite E, map_app in Hnd, Hinv.
    cbn [map] in Hnd, Hinv.
    apply NoDup_remove_2 in Hnd. rewrite Ht in Hnd.
    assert (Hkeep : forall l, ~ In z (map id l) ->
              List.filter (fun t => negb (id t =? z)%Z) l = l).
    { induction l as [|u l IH]; cbn [map In List.filter]; [reflexivity|].
      intros H. destruct (Z.eqb_spec (id u) z) as [Heq|_]; [tauto|].
      cbn [negb]. rewrite IH by tauto. reflexivity. }
    cbn [tasks nextId log]. rewrite E. split; [|split; [|split]].
    + rewrite List.filter_app. cbn [List.filter]. rewrite Ht, Z.eqb_refl.
      cbn [negb]. rewrite !Hkeep; [reflexivity | |];
        intros H; apply Hnd, in_or_app; auto.
    + rewrite !length_app. cbn [length]. lia.
    + reflexivity.
    + intros cs'.
      set (app1 := log ([0xD83D; 0xDDD1; 0xFE0F] ++ lit "  Deleted: "
                        ++ quoted (description t))
                     {| tasks := l1 ++ l2; nextId := nextId app;
                        console := console app |}).
      intros Hz.
      destruct (calls_ids app1 cs') as (_ & H3).
      destruct (H3 z Hz) as [H|H].
      * unfold ids, app1 in H. cbn [tasks log] in H. rewrite map_app in H.
        apply Hnd. exact H.
      * unfold app1 in H. cbn [nextId log] in H.
        pose proof (increasing_below_bound _ _ Hinv) as Hb.
        rewrite Forall_forall in Hb.
        assert (Hlt : (id t < nextId app)%Z).
        { apply Hb. apply list_elem_of_In, in_or_app. right. left. reflexivity. }
        lia.
  - intros Hnot. destruct (deleteTask_spec (Int z) app)
      as [(l1 & t & l2 & E & Ht & _)|[_ H]]; [|exact H].
    exfalso. apply Hnot. unfold ids. rewrite E, map_app.
    apply in_or_app. right. left. cbn [id_is] in Ht.
    apply Z.eqb_eq in Ht. exact Ht.
  - destruct (deleteTask_spec NaN app)
      as [(l1 & t & l2 & _ & Ht & _)|[_ H]]; [discriminate | exact H].
Qed.

Lemma complete_first_at n l1 t l2 :
  Forall (fun u => id_is n u = false) l1 ->
  id_is n t = true ->
  complete_first n (l1 ++ t :: l2)
  = Some (t, l1 ++ mkTask (id t) (description t) true :: l2).
Proof.
  intros Hl1 Ht. induction Hl1 as [|u l1 Hu _ IH]; cbn [app complete_first].
  - rewrite Ht. reflexivity.
  - rewrite Hu, IH. reflexivity.
Qed.

Lemma complete_first_none n l :
  Forall (fun u => id_is n u = false) l -> complete_first n l = None.
Proof.
  intros H. induction H as [|u l Hu _ IH]; cbn [complete_first];
    [reflexivity|].
  rewrite Hu, IH. reflexivity.
Qed.

(** X18: [completeTask] marks the first task with the given id as
    completed, and only that one: the tasks before it, and those after it,
    stay as they are, also a later task with the same id; [nextId] and the
    number of tasks stay, and the call logs the description of that task.
    With an id no task has, or with [NaN], the call only reports that the
    task was not found.  A second call with the same number changes no
    task. *)
Theorem completeTask_marks_one (app : App) (n : JsNumber) :
  let app' := completeTask n app in
  (forall l1 t l2,
     tasks app = l1 ++ t :: l2 ->
     Forall (fun u => id_is n u = false) l1 ->
     id_is n t = true ->
     app'
     = log (0x2713 :: lit " Completed: " ++ quoted (description t))
         {| tasks := l1 ++ mkTask (id t) (description t) true :: l2;
            nextId := nextId app; console := console app |})
  /\ (Forall (fun t => id_is n t = false) (tasks app) ->
      app' = log not_found app)
  /\ completeTask NaN app = log not_found app
  /\ tasks (completeTask n app') = tasks app'
  /\ nextId app' = nextId app
  /\ length (tasks app') = length (tasks app).
Proof.
  cbn zeta.
  assert (Hat : forall l1 t l2,
            tasks app = l1 ++ t :: l2 ->
            Forall (fun u => id_is n u = false) l1 ->
            id_is n t = true ->
            completeTask n app
            = log (0x2713 :: lit " Completed: " ++ quoted (description t))
                {| tasks := l1 ++ mkTask (id t) (description t) true :: l2;
                   nextId := nextId app; console := console app |}).
  { intros l1 t l2 E Hl1 Ht. unfold completeTask.
    rewrite E, (complete_first_at n l1 t l2 Hl1 Ht). reflexivity. }
  assert (Hnone : forall a,
            Forall (fun t => id_is n t = false) (tasks a) ->
            completeTask n a = log not_found a).
  { intros a H. unfold completeTask. rewrite (complete_first_none n _ H).
    reflexivity. }
  split; [exact Hat|]. split; [apply Hnone|].
  split.
  { unfold completeTask. rewrite complete_first_none; [reflexivity|].
    apply Forall_forall. reflexivity. }
  pose proof (complete_first_spec n (tasks app)) as H.
  destruct (complete_first n (tasks app)) as [[t ts']|] eqn:E.
  - destruct H as (l1 & l2 & E1 & _ & Ht & Hl1).
    rewrite (Hat l1 t l2 E1 Hl1 Ht). cbn [tasks nextId log].
    split; [|split; [reflexivity|]].
    + unfold completeTask. cbn [tasks log].
      rewrite (complete_first_at n l1 (mkTask (id t) (description t) true) l2
                 Hl1); [reflexivity|].
      destruct n; cbn in *; auto.
    + rewrite E1, !length_app. reflexivity.
  - rewrite (Hnone app H). cbn [tasks nextId log].
    split; [|split; reflexivity].
    rewrite Hnone; [reflexivity|exact H].
Qed.

End TodoProps.

(** ** The further properties at concrete inputs *)

Lemma near_cap_example_consistent : consistent near_cap_example.
Proof.
  right. split; [reflexivity|].
  exists 1%nat, 2%nat, (mkFrame (lit "sleep 60") 0 false [] 50000 0).
  split; [reflexivity|]. split; [reflexivity|]. split; [reflexivity|].
  left. vm_compute. reflexivity.
Defined.

Lemma near_cap_example_in_flight :
  InFlight 1 2 (lit "sleep 60") 0 0 near_cap_example.
Proof.
  repeat split; try (vm_compute; reflexivity).
  exists 50000%Z. vm_compute. reflexivity.
Defined.

Lemma stop_request_resolves_stopped_witness :
  consistent running_example
  /\ InFlight 1 2 (lit "sleep 60") 0 0 running_example
  /\ timedOut running_example = false
  /\ Forall calm [StdoutData 1 (lit "late"); ClearOutput]
  /\ wasStopped (step toFixed2_exact running_example StopScript) = true.
Proof.
  assert (Hcalm : Forall calm [StdoutData 1 (lit "late"); ClearOutput])
    by (repeat constructor).
  split; [exact running_example_consistent|].
  split; [exact running_example_in_flight|].
  split; [reflexivity|]. split; [exact Hcalm|].
  exact (proj1 (stop_request_resolves_stopped toFixed2_exact running_example
                  1%nat 2%nat (lit "sleep 60") 0%Z 0%nat
                  [StdoutData 1 (lit "late"); ClearOutput] None 500%Z
                  running_example_consistent running_example_in_flight
                  eq_refl Hcalm)).
Defined.

Lemma truncation_resolves_stopped_witness :
  consistent near_cap_example
  /\ InFlight 1 2 (lit "sleep 60") 0 0 near_cap_example
  /\ frames near_cap_example !! 1%nat
     = Some (mkFrame (lit "sleep 60") 0 false [] 50000 0)
  /\ (50000 <= maxOutputChars)%Z
  /\ timedOut near_cap_example = false
  /\ wasStopped near_cap_example = false
  /\ (maxOutputChars < 50000 + counted_units (lit "x"))%Z
  /\ Forall calm [StopScript]
  /\ wasStopped (step toFixed2_exact near_cap_example (StdoutData 1 (lit "x")))
     = true.
Proof.
  assert (Hf : frames near_cap_example !! 1%nat
               = Some (mkFrame (lit "sleep 60") 0 false [] 50000 0))
    by (vm_compute; reflexivity).
  assert (Hle : (50000 <= maxOutputChars)%Z) by (unfold maxOutputChars; lia).
  assert (Hover : (maxOutputChars < 50000 + counted_units (lit "x"))%Z)
    by (vm_compute; reflexivity).
  assert (Hcalm : Forall calm [StopScript]) by (repeat constructor).
  split; [exact near_cap_example_consistent|].
  split; [exact near_cap_example_in_flight|].
  split; [exact Hf|]. split; [exact Hle|].
  split; [reflexivity|]. split; [reflexivity|].
  split; [exact Hover|]. split; [exact Hcalm|].
  exact (proj1 (truncation_resolves_stopped toFixed2_exact near_cap_example
                  1%nat 2%nat (lit "sleep 60") 0%Z 0%nat 50000%Z false
                  (lit "x") [StopScript] None 700%Z
                  near_cap_example_consistent near_cap_example_in_flight
                  Hf Hle eq_refl eq_refl Hover Hcalm)).
Defined.

Lemma settled_run_leaves_idle_witness :
  consistent running_example
  /\ InFlight 1 2 (lit "sleep 60") 0 0 running_example
  /\ timers (fst (settle toFixed2_exact 1 (Normal None) 900 running_example))
     = [].
Proof.
  split; [exact running_example_consistent|].
  split; [exact running_example_in_flight|].
  exact (proj1 (proj2 (proj2 (proj2 (proj2
           (settled_run_leaves_idle toFixed2_exact running_example
              1%nat 2%nat (lit "sleep 60") 0%Z 0%nat (Normal None) 900%Z
              running_example_consistent running_example_in_flight)))))).
Defined.

Lemma clear_during_run_hides_output_witness :
  InFlight 1 2 (lit "sleep 60") 0 0 running_example
  /\ Forall quiet [StdoutData 1 (lit "x")]
  /\ scriptOutput
       (step toFixed2_exact
          (steps toFixed2_exact
             (step toFixed2_exact running_example ClearOutput)
             [StdoutData 1 (lit "x")])
          (ProcClose 1 (Some 0%Z) 900))
     = [Placeholder].
Proof.
  assert (Hq : Forall quiet [StdoutData 1 (lit "x")]) by (repeat constructor).
  split; [exact running_example_in_flight|]. split; [exact Hq|].
  exact (proj1 (clear_during_run_hides_output toFixed2_exact running_example
                  1%nat 2%nat (lit "sleep 60") 0%Z 0%nat
                  [StdoutData 1 (lit "x")] (Some 0%Z) 900%Z
                  running_example_in_flight Hq)).
Defined.

Lemma finished_output_is_immutable_witness :
  let st :=
    steps toFixed2_exact fresh
      [RunScript (lit "ls") 0 SpawnOk; StdoutData 1 (lit "a" ++ [LF]);
       ProcClose 1 (Some 0%Z) 50] in
  (0 < nextHandle st)%nat
  /\ ~ owned 0 st
  /\ children 0
       (steps toFixed2_exact st
          [RunScript (lit "pwd") 60 SpawnOk; StdoutData 1 (lit "late");
           StdoutData 4 (lit "/root" ++ [LF])])
     = [mkElement (lit "output-line output-stdout") (lit "a");
        mkElement output_success msg_completed].
Proof.
  cbn zeta.
  set (st := steps toFixed2_exact fresh
               [RunScript (lit "ls") 0 SpawnOk; StdoutData 1 (lit "a" ++ [LF]);
                ProcClose 1 (Some 0%Z) 50]).
  assert (Hb : (0 < nextHandle st)%nat) by (vm_compute; lia).
  assert (Ef : frames st = ∅) by (vm_compute; reflexivity).
  assert (El : lingering st = ∅) by (vm_compute; reflexivity).
  assert (Hf : ~ owned 0 st).
  { intros (p & g & [H|H] & _);
      [rewrite Ef in H | rewrite El in H];
      rewrite lookup_empty in H; discriminate. }
  split; [exact Hb|]. split; [exact Hf|].
  rewrite (finished_output_is_immutable toFixed2_exact st 0%nat
             [RunScript (lit "pwd") 60 SpawnOk; StdoutData 1 (lit "late");
              StdoutData 4 (lit "/root" ++ [LF])] Hb Hf).
  vm_compute. reflexivity.
Defined.

Lemma spawned_iff_no_standalone_sudo_witness :
  isRunning fresh = false
  /\ falsy (trim (lit "cat /etc/sudoers")) = false
  /\ effects
       (step toFixed2_exact fresh (RunScript (lit "cat /etc/sudoers") 0 SpawnOk))
     = [Spawn (lit "/bin/zsh") [lit "-c"; lit "cat /etc/sudoers"] (Some 1%nat);
        SetTimeout 2 30000].
Proof.
  assert (Hno : ~ standalone_sudo (lit "cat /etc/sudoers")).
  { intros H. apply sudo_test_spec in H. vm_compute in H. discriminate. }
  split; [reflexivity|]. split; [reflexivity|].
  exact (proj1 (proj1 (spawned_iff_no_standalone_sudo toFixed2_exact fresh
                         (lit "cat /etc/sudoers") 0%Z eq_refl eq_refl))
           Hno).
Defined.

Lemma appended_lines_shape_witness :
  (LF ∉ lit "hello") /\ lit "hello" <> []
  /\ exists new,
       children 0 (fst (appendLines 0 (lit "hello") output_stdout fresh))
       = children 0 fresh ++ new
       /\ new = [mkElement (lit "output-line " ++ output_stdout) (lit "hello")].
Proof.
  assert (Hlf : LF ∉ lit "hello").
  { intros H. apply list_elem_of_In in H. vm_compute in H.
    repeat (destruct H as [H|H]; [discriminate|]). exact H. }
  assert (Hne : lit "hello" <> []) by discriminate.
  split; [exact Hlf|]. split; [exact Hne|].
  destruct (appended_lines_shape 0 (lit "hello") output_stdout fresh)
    as (new & H1 & _ & H3 & _).
  exists new. split; [exact H1 | exact (H3 Hlf Hne)].
Defined.

Lemma line_split_across_chunks_witness :
  frames running_example !! 1%nat
  = Some (mkFrame (lit "sleep 60") 0 false [] 0 0)
  /\ guard (mkFrame (lit "sleep 60") 0 false [] 0 0) running_example = false
  /\ (LF ∉ lit "ab") /\ (LF ∉ lit "cd") /\ lit "ab" <> [] /\ lit "cd" <> []
  /\ children 0
       (onData output_stdout 1 (lit "cd")
          (onData output_stdout 1 (lit "ab") running_example))
     = children 0 running_example
       ++ [mkElement (lit "output-line " ++ output_stdout) (lit "ab");
           mkElement (lit "output-line " ++ output_stdout) (lit "cd")].
Proof.
  assert (Hf : frames running_example !! 1%nat
               = Some (mkFrame (lit "sleep 60") 0 false [] 0 0))
    by (vm_compute; reflexivity).
  assert (H1 : LF ∉ lit "ab").
  { intros H. apply list_elem_of_In in H. vm_compute in H.
    repeat (destruct H as [H|H]; [discriminate|]). exact H. }
  assert (H2 : LF ∉ lit "cd").
  { intros H. apply list_elem_of_In in H. vm_compute in H.
    repeat (destruct H as [H|H]; [discriminate|]). exact H. }
  assert (Hn1 : lit "ab" <> []) by discriminate.
  assert (Hn2 : lit "cd" <> []) by discriminate.
  assert (Hle : (outputChars (mkFrame (lit "sleep 60") 0 false [] 0 0)
                 + Z.of_nat (length (lit "ab")) + Z.of_nat (length (lit "cd"))
                 <= maxOutputChars)%Z) by (vm_compute; discriminate).
  split; [exact Hf|]. split; [reflexivity|].
  split; [exact H1|]. split; [exact H2|]. split; [exact Hn1|].
  split; [exact Hn2|].
  exact (proj1 (line_split_across_chunks running_example 1%nat _ output_stdout
                  (lit "ab") (lit "cd") Hf eq_refl H1 H2 Hn1 Hn2 Hle)).
Defined.

Lemma effect_log_is_safe_witness :
  In (Kill 1 SIGTERM)
    (effects
       (steps toFixed2_exact fresh
          [RunScript (lit "ls") 0 SpawnOk; StopScript]))
  /\ spawned 1
       (effects
          (steps toFixed2_exact fresh
             [RunScript (lit "ls") 0 SpawnOk; StopScript])).
Proof.
  assert (Hin : In (Kill 1 SIGTERM)
                  (effects
                     (steps toFixed2_exact fresh
                        [RunScript (lit "ls") 0 SpawnOk; StopScript])))
    by (vm_compute; right; right; left; reflexivity).
  split; [exact Hin|].
  exact (proj2 (effect_log_is_safe toFixed2_exact
                  [RunScript (lit "ls") 0 SpawnOk; StopScript]
                  (Kill 1 SIGTERM) Hin)).
Defined.

Lemma history_entries_well_formed_witness :
  In (mkHistoryEntry (lit "sudo ls") [mkElement output_error msg_blocked]
        true (lit "0.00"))
    (commandHistory
       (steps toFixed2_exact fresh [RunScript (lit " sudo ls ") 0 SpawnOk]))
  /\ trim (lit "sudo ls") = lit "sudo ls".
Proof.
  assert (Hin : In (mkHistoryEntry (lit "sudo ls")
                      [mkElement output_error msg_blocked] true (lit "0.00"))
                  (commandHistory
                     (steps toFixed2_exact fresh
                        [RunScript (lit " sudo ls ") 0 SpawnOk])))
    by (vm_compute; left; reflexivity).
  split; [exact Hin|].
  exact (proj1 (proj2 (history_entries_well_formed toFixed2_exact
                         [RunScript (lit " sudo ls ") 0 SpawnOk] _ Hin))).
Defined.

Lemma truncateText_bound_witness :
  (3 <= 8)%Z
  /\ (8 < Z.of_nat (length (lit "hello world")))%Z
  /\ truncateText (lit "hello world") 8 = lit "hello...".
Proof.
  assert (H3 : (3 <= 8)%Z) by lia.
  assert (Hlong : (8 < Z.of_nat (length (lit "hello world")))%Z)
    by (vm_compute; reflexivity).
  split; [exact H3|]. split; [exact Hlong|].
  exact (proj1 (proj1 (proj2 (proj2 (proj2
           (truncateText_bound (lit "hello world") 8)))) Hlong)).
Defined.

Lemma maskApiKey_shape_witness :
  (8 < length (lit "AIzaSyExample"))%nat
  /\ length (maskApiKey (lit "AIzaSyExample")) = 11%nat.
Proof.
  assert (H : (8 < length (lit "AIzaSyExample"))%nat) by (vm_compute; lia).
  split; [exact H|].
  exact (proj1 (proj2 (proj2 (maskApiKey_shape (lit "AIzaSyExample"))) H)).
Defined.

Lemma saveApiKey_storage_witness :
  lit "AIzaSyExample" <> []
  /\ trimmed (lit "AIzaSyExample")
  /\ stored
       (saveApiKey false
          (mkKeyState (Some (lit "AIzaSyExample")) (lit "AIzaSyExample")
             (maskApiKey (lit "AIzaSyExample")) [] [] [] []))
     = Some (lit "AIzaSyExample").
Proof.
  assert (Hne : lit "AIzaSyExample" <> []) by discriminate.
  assert (Ht : trimmed (lit "AIzaSyExample")).
  { split; intros c H; vm_compute in H; injection H as <-; reflexivity. }
  split; [exact Hne|]. split; [exact Ht|].
  exact (proj2 (proj2 saveApiKey_storage) (lit "AIzaSyExample") false
           (mkKeyState (Some (lit "AIzaSyExample")) (lit "AIzaSyExample")
              (maskApiKey (lit "AIzaSyExample")) [] [] [] [])
           eq_refl Hne Ht eq_refl).
Defined.

Lemma recent_prompts_after_add_witness :
  List.NoDup [lit "a"; lit "b"]
  /\ List.NoDup
       (recentPrompts
          (addToRecentPrompts (lit "b") false
             (mkPromptState [lit "a"; lit "b"] None []))).
Proof.
  assert (Hnd : List.NoDup [lit "a"; lit "b"]).
  { constructor; [intros [H|[]]; discriminate|].
    constructor; [intros []|constructor]. }
  split; [exact Hnd|].
  exact (proj1 (proj2 (proj2 (proj2
           (recent_prompts_after_add (lit "b") false
              (mkPromptState [lit "a"; lit "b"] None [])))))
           Hnd).
Defined.

Lemma switchTab_activates_exactly_witness :
  switchTab (Some (lit "map"))
    (switchTab (Some (lit "chat"))
       (mkPage [mkTabButton (Some (lit "map")) [lit "tab-btn"];
                mkTabButton (Some (lit "chat")) [lit "tab-btn"; lit "active"]]
          [mkTabContent (lit "map-tab") [lit "tab-content"]]))
  = mkPage [mkTabButton (Some (lit "map")) [lit "tab-btn"; lit "active"];
            mkTabButton (Some (lit "chat")) [lit "tab-btn"]]
      [mkTabContent (lit "map-tab") [lit "tab-content"; lit "active"]].
Proof.
  rewrite (proj2 (proj2 (switchTab_activates_exactly (Some (lit "map"))
             (mkPage [mkTabButton (Some (lit "map")) [lit "tab-btn"];
                      mkTabButton (Some (lit "chat"))
                        [lit "tab-btn"; lit "active"]]
                [mkTabContent (lit "map-tab") [lit "tab-content"]])))
             (Some (lit "chat"))).
  vm_compute. reflexivity.
Defined.

Lemma todo_ids_increasing_witness :
  (Z.of_nat
     (length
        [Todo.AddTask (lit "a"); Todo.AddTask (lit "b");
         Todo.DeleteTask (Todo.Int 1); Todo.AddTask (lit "c")])
   < Todo.exact_limit)%Z
  /\ Todo.ids
       (Todo.calls Todo.initial
          [Todo.AddTask (lit "a"); Todo.AddTask (lit "b");
           Todo.DeleteTask (Todo.Int 1); Todo.AddTask (lit "c")])
     = [2%Z; 3%Z]
  /\ List.NoDup
       (Todo.ids
          (Todo.calls Todo.initial
             [Todo.AddTask (lit "a"); Todo.AddTask (lit "b");
              Todo.DeleteTask (Todo.Int 1); Todo.AddTask (lit "c")])).
Proof.
  assert (Hlen : (Z.of_nat
                    (length
                       [Todo.AddTask (lit "a"); Todo.AddTask (lit "b");
                        Todo.DeleteTask (Todo.Int 1); Todo.AddTask (lit "c")])
                  < Todo.exact_limit)%Z) by (vm_compute; reflexivity).
  split; [exact Hlen|]. split; [vm_compute; reflexivity|].
  exact (proj1 (proj2 (TodoProps.todo_ids_increasing
           [Todo.AddTask (lit "a"); Todo.AddTask (lit "b");
            Todo.DeleteTask (Todo.Int 1); Todo.AddTask (lit "c")] Hlen))).
Defined.

Lemma deleteTask_removes_for_good_witness :
  (Z.of_nat (length [Todo.AddTask (lit "a"); Todo.AddTask (lit "b")])
   < Todo.exact_limit)%Z
  /\ In 1%Z
       (Todo.ids
          (Todo.calls Todo.initial
             [Todo.AddTask (lit "a"); Todo.AddTask (lit "b")]))
  /\ ~ In 1%Z
        (Todo.ids
           (Todo.calls
              (Todo.deleteTask (Todo.Int 1)
                 (Todo.calls Todo.initial
                    [Todo.AddTask (lit "a"); Todo.AddTask (lit "b")]))
              [Todo.AddTask (lit "c")])).
Proof.
  assert (Hlen : (Z.of_nat
                    (length [Todo.AddTask (lit "a"); Todo.AddTask (lit "b")])
                  < Todo.exact_limit)%Z) by (vm_compute; reflexivity).
  assert (Hin : In 1%Z
                  (Todo.ids
                     (Todo.calls Todo.initial
                        [Todo.AddTask (lit "a"); Todo.AddTask (lit "b")])))
    by (vm_compute; left; reflexivity).
  split; [exact Hlen|]. split; [exact Hin|].
  exact (proj2 (proj2 (proj2 (proj1
           (TodoProps.deleteTask_removes_for_good
              [Todo.AddTask (lit "a"); Todo.AddTask (lit "b")] 1%Z Hlen)
           Hin)))
           [Todo.AddTask (lit "c")]).
Defined.

Lemma completeTask_marks_one_witness :
  let a := Todo.mkTask 1 (lit "a") false in
  let b := Todo.mkTask 2 (lit "b") false in
  let c := Todo.mkTask 2 (lit "c") false in
  Forall (fun u => Todo.id_is (Todo.Int 2) u = false) [a]
  /\ Todo.id_is (Todo.Int 2) b = true
  /\ Todo.tasks (Todo.completeTask (Todo.Int 2) (Todo.mkApp [a; b; c] 3 []))
     = [a; Todo.mkTask 2 (lit "b") true; c].
Proof.
  cbn zeta.
  assert (H1 : Forall (fun u => Todo.id_is (Todo.Int 2) u = false)
                 [Todo.mkTask 1 (lit "a") false])
    by (repeat constructor).
  assert (H2 : Todo.id_is (Todo.Int 2) (Todo.mkTask 2 (lit "b") false) = true)
    by reflexivity.
  split; [exact H1|]. split; [exact H2|].
  rewrite (proj1 (TodoProps.completeTask_marks_one
                    (Todo.mkApp [Todo.mkTask 1 (lit "a") false;
                                 Todo.mkTask 2 (lit "b") false;
                                 Todo.mkTask 2 (lit "c") false] 3 [])
                    (Todo.Int 2))
             [Todo.mkTask 1 (lit "a") false] (Todo.mkTask 2 (lit "b") false)
             [Todo.mkTask 2 (lit "c") false] eq_refl H1 H2).
  reflexivity.
Defined.
